(** * The [dapr dashboard] command (cmd/dashboard.go)

    A shallow embedding of [DashboardCmd.Run].  The command talks to
    external collaborators only (the Kubernetes client, the existence
    query, the port-forwarding tunnel, the browser, the printer), so the
    body of [Run] is embedded as a tree of collaborator calls: every node
    is one call of the source, every branch on a result is a branch of the
    source.  The tree is run in two ways.  [exec] runs the main flow
    against an arbitrary environment and yields the sequence of calls made
    and the way the flow ended.  [run] runs the main flow together with
    its goroutine, the interrupts and the tunnel under an arbitrary
    schedule. *)

From Stdlib Require Import ZArith List String Ascii Bool Lia DecimalString DecimalPos
  DecimalZ Sorted.
Import ListNotations.
Local Open Scope string_scope.
Local Open Scope Z_scope.
Local Open Scope list_scope.

(** ** Constants (dashboard.go, lines 20-38) *)

Definition dashboardSvc : string := "dapr-dashboard".
Definition defaultHost : string := "localhost".
Definition defaultLocalPort : Z := 8080.
Definition daprSystemNamespace : string := "dapr-system".
Definition defaultNamespace : string := "default".
Definition remotePort : Z := 8080.

(** ** Package-level flag variables (lines 40-44 and [kubernetesMode]) *)

Record Flags : Type := mkFlags {
  dashboardNamespace : string;
  dashboardLocalPort : Z;
  dashboardVersion : bool;
  kubernetesMode : bool
}.

(** ** Values exchanged with the collaborators *)

(** A Go [error] value, known by its message ([err.Error()]). *)
Record error : Type := mkError { Error : string }.

(** Opaque handles owned by the collaborators. *)
Inductive Config : Type := ConfigHandle (id : nat).
Inductive Client : Type := ClientHandle (id : nat).
Inductive PortForward : Type := PortForwardHandle (id : nat).

(** Arguments of a printf-style call. *)
Inductive Arg : Type :=
| AInt (z : Z)
| AStr (s : string)
| AErr (e : error).

(** The two channels the command receives from: [signals] (line 101) and
    the channel returned by [portForward.GetStop()] (line 143). *)
Inductive Chan : Type :=
| Signals
| GetStop (pf : PortForward).

(** ** Formatting *)

Definition TAB : string := String (ascii_of_nat 9) EmptyString.
Definition NL : string := String (ascii_of_nat 10) EmptyString.

(** The verb [%d] of [fmt.Sprintf] on an [int]. *)
Definition fmt_d (z : Z) : string := NilZero.string_of_int (Z.to_int z).

(** [fmt.Sprintf("http://%s:%d", defaultHost, dashboardLocalPort)], line 132. *)
Definition webURL (localPort : Z) : string :=
  ("http://" ++ defaultHost ++ ":" ++ fmt_d localPort)%string.

(** [fmt.Sprintf("Dapr dashboard found in namespace:\t%s", foundNamespace)], line 134. *)
Definition foundMsg (foundNamespace : string) : string :=
  ("Dapr dashboard found in namespace:" ++ TAB ++ foundNamespace)%string.

(** [fmt.Sprintf("Dapr dashboard available at:\t%s\n", webURL)], line 135. *)
Definition availableMsg (url : string) : string :=
  ("Dapr dashboard available at:" ++ TAB ++ url ++ NL)%string.

(** [fmt.Sprintf("Visit %s in your browser to view the dashboard", webURL)], line 140. *)
Definition visitMsg (url : string) : string :=
  ("Visit " ++ url ++ " in your browser to view the dashboard")%string.

(** ** Collaborator calls and their results *)

Inductive Call : Type :=
| GetDashboardVersion                       (* standalone.GetDashboardVersion() *)
| Println (a : string)                      (* fmt.Println(a) *)
| FailureStatusEvent (format : string) (a : list Arg)  (* print.FailureStatusEvent(os.Stdout, ...) *)
| InfoStatusEvent (format : string) (a : list Arg)     (* print.InfoStatusEvent(os.Stdout, ...) *)
| GetKubeConfigClient                       (* kubernetes.GetKubeConfigClient() *)
| CheckPodExists (client : Client) (namespace : string) (name : string)
                                            (* kubernetes.CheckPodExists(client, namespace, nil, name) *)
| SignalNotify                              (* signal.Notify(signals, os.Interrupt) *)
| SignalStop                                (* signal.Stop(signals), deferred *)
| NewPortForward (config : Config) (namespace podName host : string)
                 (localPort remotePort : Z) (emitLogs : bool)
| Init (pf : PortForward)                   (* portForward.Init() *)
| Stop (pf : PortForward)                   (* portForward.Stop() *)
| OpenURL (url : string)                    (* browser.OpenURL(url) *)
| StandaloneRun (port : Z).                 (* standalone.NewDashboardCmd(port).Run() *)

(** The result type of each call, as the source receives it; a Go
    [error] result is [None] for [nil]. *)
Definition Resp (c : Call) : Type :=
  match c with
  | GetDashboardVersion => string
  | Println _ => unit
  | FailureStatusEvent _ _ => unit
  | InfoStatusEvent _ _ => unit
  | GetKubeConfigClient => (Config * Client * option error)%type
  | CheckPodExists _ _ _ => (bool * string)%type
  | SignalNotify => unit
  | SignalStop => unit
  | NewPortForward _ _ _ _ _ _ _ => (PortForward * option error)%type
  | Init _ => option error
  | Stop _ => unit
  | OpenURL _ => option error
  | StandaloneRun _ => option error
  end.

(** ** Programs *)

(** A program either returns, terminates the process ([os.Exit]), calls a
    collaborator and continues with its result, starts a goroutine, or
    receives from a channel (which blocks until a value is available or
    the channel is closed). *)
Inductive Prog (A : Type) : Type :=
| Ret (a : A)
| Exit (code : Z)
| Vis (c : Call) (k : Resp c -> Prog A)
| Go (body : Prog unit) (k : Prog A)
| Recv (ch : Chan) (k : Prog A).

Arguments Ret {A} a.
Arguments Exit {A} code.
Arguments Vis {A} c k.
Arguments Go {A} body k.
Arguments Recv {A} ch k.

Fixpoint bind {A B : Type} (p : Prog A) (f : A -> Prog B) : Prog B :=
  match p with
  | Ret a => f a
  | Exit code => Exit code
  | Vis c k => Vis c (fun r => bind (k r) f)
  | Go body k => Go body (bind k f)
  | Recv ch k => Recv ch (bind k f)
  end.

Definition call (c : Call) : Prog (Resp c) := Vis c Ret.
Definition recv (ch : Chan) : Prog unit := Recv ch (Ret tt).
Definition go (body : Prog unit) : Prog unit := Go body (Ret tt).

Declare Scope prog_scope.
Delimit Scope prog_scope with prog.
Notation "x <- p ;; q" := (bind p (fun x => q))
  (at level 61, p at next level, right associativity) : prog_scope.
Notation "' pat <- p ;; q" := (bind p (fun x => match x with pat => q end))
  (at level 61, pat pattern, p at next level, right associativity) : prog_scope.
Notation "p ;; q" := (bind p (fun _ => q))
  (at level 61, right associativity) : prog_scope.
Local Open Scope prog_scope.

(** ** The body of [Run] *)

(** Lines 69-75: the candidate namespaces, in search order. *)
Definition namespaces (dashboardNamespace : string) : list string :=
  let namespaces := [dashboardNamespace] in
  let namespaces :=
    if negb (dashboardNamespace =? daprSystemNamespace)%string
    then namespaces ++ [daprSystemNamespace] else namespaces in
  let namespaces :=
    if negb (dashboardNamespace =? defaultNamespace)%string
    then namespaces ++ [defaultNamespace] else namespaces in
  namespaces.

(** Lines 77-84: the search loop.  [foundNamespace] starts as the empty
    string and is assigned, followed by [break], at the first probe that
    answers [ok]; the second result of the probe is dropped. *)
Fixpoint searchLoop (client : Client) (namespaces : list string)
    (foundNamespace : string) : Prog string :=
  match namespaces with
  | [] => Ret foundNamespace
  | namespace :: rest =>
      '(ok, _) <- call (CheckPodExists client namespace dashboardSvc) ;;
      if ok : bool then Ret namespace
      else searchLoop client rest foundNamespace
  end.

(** Lines 87-98: the cluster-wide search; both branches end in [os.Exit(1)]. *)
Definition searchAllPods (client : Client) : Prog unit :=
  '(ok, nspace) <- call (CheckPodExists client "" dashboardSvc) ;;
  (if ok : bool then
     call (InfoStatusEvent
       "Dapr dashboard found in namespace: %s. Run dapr dashboard -k -n %s to use this namespace."
       [AStr nspace; AStr nspace])
   else
     call (FailureStatusEvent
       "Failed to find Dapr dashboard in cluster. Check status of dapr dashboard in the cluster."
       [])) ;;
  Exit 1.

(** Lines 126-129: the goroutine that waits for the interrupt. *)
Definition stopOnInterrupt (portForward : PortForward) : Prog unit :=
  recv Signals ;;
  call (Stop portForward).

(** Lines 100-143: from the signal subscription to the wait on the stop
    channel.  The deferred [signal.Stop] runs when the function returns;
    [os.Exit] does not run deferred calls. *)
Definition forwardAndServe (config : Config) (foundNamespace : string)
    (dashboardLocalPort : Z) : Prog unit :=
  call SignalNotify ;;
  '(portForward, err) <- call (NewPortForward config foundNamespace dashboardSvc
                                 defaultHost dashboardLocalPort remotePort false) ;;
  match err with
  | Some err =>
      call (FailureStatusEvent ("%s" ++ NL)%string [AErr err]) ;;
      Exit 1
  | None =>
      err <- call (Init portForward) ;;
      match err with
      | Some err =>
          call (FailureStatusEvent
            ("Error in port forwarding: %s" ++ NL ++
             "Check for `dapr dashboard` running in other terminal sessions, or use the `--port` flag to use a different port." ++ NL)%string
            [AErr err]) ;;
          Exit 1
      | None =>
          go (stopOnInterrupt portForward) ;;
          let webURL := webURL dashboardLocalPort in
          call (InfoStatusEvent (foundMsg foundNamespace) []) ;;
          call (InfoStatusEvent (availableMsg webURL) []) ;;
          err <- call (OpenURL webURL) ;;
          match err with
          | Some _ =>
              call (FailureStatusEvent
                "Failed to start Dapr dashboard in browser automatically" []) ;;
              call (FailureStatusEvent (visitMsg webURL) [])
          | None => Ret tt
          end ;;
          recv (GetStop portForward) ;;
          call SignalStop
      end
  end.

(** Lines 60-143: cluster mode. *)
Definition runKubernetes (f : Flags) : Prog unit :=
  '(config, client, err) <- call GetKubeConfigClient ;;
  match err with
  | Some err =>
      call (FailureStatusEvent "Failed to initialize kubernetes client: %s"
              [AStr (Error err)]) ;;
      Exit 1
  | None =>
      foundNamespace <- searchLoop client (namespaces (dashboardNamespace f)) "" ;;
      if (foundNamespace =? "")%string then searchAllPods client
      else forwardAndServe config foundNamespace (dashboardLocalPort f)
  end.

(** Lines 144-150: standalone mode. *)
Definition runStandalone (f : Flags) : Prog unit :=
  err <- call (StandaloneRun (dashboardLocalPort f)) ;;
  match err with
  | Some _ =>
      call (FailureStatusEvent "Dapr dashboard not found. Is Dapr installed?" [])
  | None => Ret tt
  end.

(** Lines 49-151. *)
Definition Run (f : Flags) : Prog unit :=
  if dashboardVersion f then
    v <- call GetDashboardVersion ;;
    call (Println v) ;;
    Exit 0
  else if dashboardLocalPort f <=? 0 then
    call (FailureStatusEvent "Invalid port: %v" [AInt (dashboardLocalPort f)]) ;;
    Exit 1
  else if kubernetesMode f then runKubernetes f
  else runStandalone f.

(** ** Running the main flow against an environment *)

(** What an observer of the main flow sees: each collaborator call with
    its result, the start of a goroutine, the beginning of a channel
    receive and its completion. *)
Inductive Event : Type :=
| EvCall (c : Call) (r : Resp c)
| EvGo
| EvWait (ch : Chan)
| EvRecv (ch : Chan).

Definition Trace : Type := list Event.

(** The environment answers every call, and decides for every receive
    whether a value ever arrives; both may depend on everything that
    happened before. *)
Record Env : Type := mkEnv {
  respond : Trace -> forall c : Call, Resp c;
  arrives : Trace -> Chan -> bool
}.

(** How the main flow ends: the function returns, the process exits with
    a status, or the flow stays blocked in a receive. *)
Inductive Outcome (A : Type) : Type :=
| Returned (a : A)
| Exited (code : Z)
| Blocked (ch : Chan).

Arguments Returned {A} a.
Arguments Exited {A} code.
Arguments Blocked {A} ch.

(** The main flow, run to its end against [e], after the history [tr].
    A goroutine is started and left to itself: its steps are not steps of
    the main flow (they are interleaved with it in [run], below). *)
Fixpoint exec {A : Type} (e : Env) (p : Prog A) (tr : Trace) : Trace * Outcome A :=
  match p with
  | Ret a => (tr, Returned a)
  | Exit code => (tr, Exited code)
  | Vis c k =>
      let r := respond e tr c in
      exec e (k r) (tr ++ [EvCall c r])
  | Go _ k => exec e k (tr ++ [EvGo])
  | Recv ch k =>
      let tr := tr ++ [EvWait ch] in
      if arrives e tr ch then exec e k (tr ++ [EvRecv ch])
      else (tr, Blocked ch)
  end.

(** One invocation of the command. *)
Definition invoke (e : Env) (f : Flags) : Trace * Outcome unit :=
  exec e (Run f) [].

(** ** Observations on traces *)

(** An existence query. *)
Definition isProbe (ev : Event) : bool :=
  match ev with
  | EvCall (CheckPodExists _ _ _) _ => true
  | _ => false
  end.

(** An existence query without namespace restriction. *)
Definition isClusterWideProbe (ev : Event) : bool :=
  match ev with
  | EvCall (CheckPodExists _ namespace _) _ => (namespace =? "")%string
  | _ => false
  end.

(** Construction of the cluster client. *)
Definition isClientConstruction (ev : Event) : bool :=
  match ev with
  | EvCall GetKubeConfigClient _ => true
  | _ => false
  end.

(** Any use of the tunnel: creation, initialisation, stop, or a receive
    on its stop channel. *)
Definition isTunnelUse (ev : Event) : bool :=
  match ev with
  | EvCall (NewPortForward _ _ _ _ _ _ _) _ => true
  | EvCall (Init _) _ => true
  | EvCall (Stop _) _ => true
  | EvWait (GetStop _) => true
  | EvRecv (GetStop _) => true
  | _ => false
  end.

(** Creation of a tunnel handle. *)
Definition isTunnelCreation (ev : Event) : bool :=
  match ev with
  | EvCall (NewPortForward _ _ _ _ _ _ _) _ => true
  | _ => false
  end.

Definition count (p : Event -> bool) (tr : Trace) : nat :=
  List.length (filter p tr).

Definition never (p : Event -> bool) (tr : Trace) : Prop :=
  forallb (fun ev => negb (p ev)) tr = true.

(** The namespaces probed, in the order of the probes. *)
Fixpoint probed (tr : Trace) : list string :=
  match tr with
  | [] => []
  | EvCall (CheckPodExists _ namespace _) _ :: tr => namespace :: probed tr
  | _ :: tr => probed tr
  end.

(** ** A simulated cluster, for running the command on concrete inputs *)

Record Sim : Type := mkSim {
  simVersion : string;              (* what GetDashboardVersion returns *)
  simClientErr : option error;      (* result of GetKubeConfigClient *)
  simPods : list string;            (* namespaces with a running dashboard pod *)
  simNewErr : option error;         (* result of NewPortForward *)
  simInitErr : option error;        (* result of Init *)
  simBrowserErr : option error;     (* result of browser.OpenURL *)
  simStandaloneErr : option error;  (* result of the standalone launcher *)
  simInterrupted : bool             (* whether the tunnel is ever stopped *)
}.

Definition simRespond (s : Sim) (c : Call) : Resp c :=
  match c return Resp c with
  | GetDashboardVersion => simVersion s
  | Println _ => tt
  | FailureStatusEvent _ _ => tt
  | InfoStatusEvent _ _ => tt
  | GetKubeConfigClient => (ConfigHandle 0, ClientHandle 0, simClientErr s)
  | CheckPodExists _ namespace _ =>
      if (namespace =? "")%string then
        match simPods s with
        | [] => (false, "")
        | ns :: _ => (true, ns)
        end
      else if existsb (String.eqb namespace) (simPods s) then (true, namespace)
      else (false, "")
  | SignalNotify => tt
  | SignalStop => tt
  | NewPortForward _ _ _ _ _ _ _ => (PortForwardHandle 0, simNewErr s)
  | Init _ => simInitErr s
  | Stop _ => tt
  | OpenURL _ => simBrowserErr s
  | StandaloneRun _ => simStandaloneErr s
  end.

Definition simEnv (s : Sim) : Env :=
  mkEnv (fun _ c => simRespond s c)
        (fun _ ch => match ch with
                     | Signals => simInterrupted s
                     | GetStop _ => simInterrupted s
                     end).

(** A healthy setup: client available, tunnel and browser work, the user
    interrupts eventually. *)
Definition healthy (pods : list string) : Sim :=
  mkSim "0.6.0" None pods None None None None true.

(** ** Named events *)

(** A probe of [namespace] and its answer. *)
Definition probeEv (client : Client) (namespace : string) (r : bool * string) : Event :=
  EvCall (CheckPodExists client namespace dashboardSvc) r.

(** [ev] is a probe of [namespace] that did not find the service. *)
Definition Miss (client : Client) (namespace : string) (ev : Event) : Prop :=
  exists nspace, ev = probeEv client namespace (false, nspace).

(** The message that follows the cluster-wide probe. *)
Definition advisoryEv (nspace : string) : Event :=
  EvCall (InfoStatusEvent
    "Dapr dashboard found in namespace: %s. Run dapr dashboard -k -n %s to use this namespace."
    [AStr nspace; AStr nspace]) tt.

Definition notFoundEv : Event :=
  EvCall (FailureStatusEvent
    "Failed to find Dapr dashboard in cluster. Check status of dapr dashboard in the cluster."
    []) tt.

Definition fallbackEv (r : bool * string) : Event :=
  if fst r then advisoryEv (snd r) else notFoundEv.

Definition notifyEv : Event := EvCall SignalNotify tt.

Definition createEv (config : Config) (foundNamespace : string) (localPort : Z)
    (r : PortForward * option error) : Event :=
  EvCall (NewPortForward config foundNamespace dashboardSvc defaultHost
            localPort remotePort false) r.

Definition initEv (pf : PortForward) (r : option error) : Event :=
  EvCall (Init pf) r.

Definition createFailedEv (err : error) : Event :=
  EvCall (FailureStatusEvent ("%s" ++ NL)%string [AErr err]) tt.

Definition initFailedEv (err : error) : Event :=
  EvCall (FailureStatusEvent
    ("Error in port forwarding: %s" ++ NL ++
     "Check for `dapr dashboard` running in other terminal sessions, or use the `--port` flag to use a different port." ++ NL)%string
    [AErr err]) tt.

(** The "found in namespace" and "available at" messages. *)
Definition foundEv (foundNamespace : string) : Event :=
  EvCall (InfoStatusEvent (foundMsg foundNamespace) []) tt.

Definition availableEv (url : string) : Event :=
  EvCall (InfoStatusEvent (availableMsg url) []) tt.

(** The browser launch, with the two messages that follow a failure. *)
Definition browserFailedEv : Event :=
  EvCall (FailureStatusEvent "Failed to start Dapr dashboard in browser automatically" []) tt.

Definition visitEv (url : string) : Event :=
  EvCall (FailureStatusEvent (visitMsg url) []) tt.

Definition browserEvs (url : string) (r : option error) : Trace :=
  EvCall (OpenURL url) r ::
  match r with
  | Some _ => [browserFailedEv; visitEv url]
  | None => []
  end.

(** Everything the main flow does from the signal subscription up to and
    including the start of the wait on the stop channel, when the tunnel
    was created and initialised without error. *)
Definition servedEvs (config : Config) (foundNamespace : string) (localPort : Z)
    (pf : PortForward) (browser : option error) : Trace :=
  [notifyEv; createEv config foundNamespace localPort (pf, None); initEv pf None;
   EvGo; foundEv foundNamespace; availableEv (webURL localPort)]
  ++ browserEvs (webURL localPort) browser
  ++ [EvWait (GetStop pf)].

(** ** What the environment answers to a sequence of probes *)

(** A probe that found the service. *)
Definition isHit (ev : Event) : bool :=
  match ev with
  | EvCall (CheckPodExists _ _ _) r => fst r
  | _ => false
  end.

(** The events of probing every namespace of [l] in turn, whatever the
    answers, starting after [tr]. *)
Fixpoint probes (e : Env) (client : Client) (l : list string) (tr : Trace) : Trace :=
  match l with
  | [] => []
  | namespace :: rest =>
      let ev := probeEv client namespace
                  (respond e tr (CheckPodExists client namespace dashboardSvc)) in
      ev :: probes e client rest (tr ++ [ev])
  end.

(** ** Named events of the dispatcher *)

Definition clientEv (r : Config * Client * option error) : Event :=
  EvCall GetKubeConfigClient r.

Definition clientFailedEv (err : error) : Event :=
  EvCall (FailureStatusEvent "Failed to initialize kubernetes client: %s"
            [AStr (Error err)]) tt.

Definition invalidPortEv (port : Z) : Event :=
  EvCall (FailureStatusEvent "Invalid port: %v" [AInt port]) tt.

Definition notInstalledEv : Event :=
  EvCall (FailureStatusEvent "Dapr dashboard not found. Is Dapr installed?" []) tt.

(** Rank of a namespace in the search order of a user namespace. *)
Definition priority (user x : string) : nat :=
  if (x =? user)%string then 0
  else if (x =? daprSystemNamespace)%string then 1
  else 2.

(** ** All the ways an invocation can run *)

Definition onlyProbes (tr : Trace) : Prop := forallb isProbe tr = true.

(** The possible traces and outcomes of an invocation with flags [f].  In
    the cluster-mode cases [search] stands for the probes of the search
    loop and [found] for the namespace the tunnel is opened in. *)
Inductive Ends (f : Flags) : Trace -> Outcome unit -> Prop :=
| EndsVersion v :
    dashboardVersion f = true ->
    Ends f [EvCall GetDashboardVersion v; EvCall (Println v) tt] (Exited 0)
| EndsInvalidPort :
    dashboardVersion f = false -> dashboardLocalPort f <= 0 ->
    Ends f [invalidPortEv (dashboardLocalPort f)] (Exited 1)
| EndsStandalone r :
    dashboardVersion f = false -> 0 < dashboardLocalPort f ->
    kubernetesMode f = false ->
    Ends f (EvCall (StandaloneRun (dashboardLocalPort f)) r ::
            match r with Some _ => [notInstalledEv] | None => [] end)
         (Returned tt)
| EndsNoClient config client err :
    dashboardVersion f = false -> 0 < dashboardLocalPort f ->
    kubernetesMode f = true ->
    Ends f [clientEv (config, client, Some err); clientFailedEv err] (Exited 1)
| EndsNotFound config client search r :
    dashboardVersion f = false -> 0 < dashboardLocalPort f ->
    kubernetesMode f = true -> onlyProbes search ->
    Ends f (clientEv (config, client, None) :: search
              ++ [probeEv client "" r; fallbackEv r])
         (Exited 1)
| EndsCreateFailed config client search found pf err :
    dashboardVersion f = false -> 0 < dashboardLocalPort f ->
    kubernetesMode f = true -> onlyProbes search ->
    Ends f (clientEv (config, client, None) :: search
              ++ [notifyEv; createEv config found (dashboardLocalPort f) (pf, Some err);
                  createFailedEv err])
         (Exited 1)
| EndsInitFailed config client search found pf err :
    dashboardVersion f = false -> 0 < dashboardLocalPort f ->
    kubernetesMode f = true -> onlyProbes search ->
    Ends f (clientEv (config, client, None) :: search
              ++ [notifyEv; createEv config found (dashboardLocalPort f) (pf, None);
                  initEv pf (Some err); initFailedEv err])
         (Exited 1)
| EndsWaiting config client search found pf browser :
    dashboardVersion f = false -> 0 < dashboardLocalPort f ->
    kubernetesMode f = true -> onlyProbes search ->
    Ends f (clientEv (config, client, None) :: search
              ++ servedEvs config found (dashboardLocalPort f) pf browser)
         (Blocked (GetStop pf))
| EndsStopped config client search found pf browser :
    dashboardVersion f = false -> 0 < dashboardLocalPort f ->
    kubernetesMode f = true -> onlyProbes search ->
    Ends f (clientEv (config, client, None) :: search
              ++ servedEvs config found (dashboardLocalPort f) pf browser
              ++ [EvRecv (GetStop pf); EvCall SignalStop tt])
         (Returned tt).

(** ** More observations *)

(** The standalone launcher returned an error. *)
Definition isLauncherFailure (ev : Event) : bool :=
  match ev with
  | EvCall (StandaloneRun _) (Some _) => true
  | _ => false
  end.

(** Anything printed. *)
Definition isMessage (ev : Event) : bool :=
  match ev with
  | EvCall (Println _) _ => true
  | EvCall (FailureStatusEvent _ _) _ => true
  | EvCall (InfoStatusEvent _ _) _ => true
  | _ => false
  end.

(** The "dashboard available" message. *)
Definition isAvailable (ev : Event) : bool :=
  match ev with
  | EvCall (InfoStatusEvent format _) _ =>
      String.prefix "Dapr dashboard available at:" format
  | _ => false
  end.

(** The beginning of a blocking receive. *)
Definition isWait (ev : Event) : bool :=
  match ev with
  | EvWait _ => true
  | _ => false
  end.

(** The beginning of a receive on a tunnel's stop channel. *)
Definition isStopWait (ev : Event) : bool :=
  match ev with
  | EvWait (GetStop _) => true
  | _ => false
  end.

(** The browser could not be opened. *)
Definition isBrowserFailure (ev : Event) : bool :=
  match ev with
  | EvCall (OpenURL _) (Some _) => true
  | _ => false
  end.

(** What a failed browser launch was asked to open, and its error. *)
Definition browserFailure (ev : Event) : option (string * error) :=
  match ev with
  | EvCall (OpenURL url) (Some err) => Some (url, err)
  | _ => None
  end.

(** The result of the standalone launcher. *)
Definition launcherResult (ev : Event) : option (option error) :=
  match ev with
  | EvCall (StandaloneRun _) r => Some r
  | _ => None
  end.

(** The tunnel an event initialised without error. *)
Definition initialised (ev : Event) : option PortForward :=
  match ev with
  | EvCall (Init pf) None => Some pf
  | _ => None
  end.

(** A tunnel was initialised without error. *)
Definition isInitOk (ev : Event) : bool :=
  match initialised ev with
  | Some _ => true
  | None => false
  end.

(** ** The tunnel *)

(** Modelled from the spec: the tunnel behind [portForward]
    (kubernetes.PortForward with [Init], [Stop] and [GetStop]), whose
    code is not among the sources.  Section 4.3: states
    Created, Initialized, Running, Stopped; an initialize call takes
    Created to Initialized, from where Running is entered without a
    further call; a stop request takes the tunnel to Stopped and fires
    the StopSignal; Stopped is terminal and further stop requests are
    no-ops.  [fired] counts the firings of the StopSignal. *)
Inductive TunnelState : Type := Created | Initialized | Running | Stopped.

Record Tunnel : Type := mkTunnel {
  state : TunnelState;
  fired : nat
}.

Definition newTunnel : Tunnel := mkTunnel Created 0.

(** Modelled from the spec: a successful initialize call, followed by
    the implicit step from Initialized to Running. *)
Definition tunnelInit (t : Tunnel) : Tunnel :=
  match state t with
  | Created => mkTunnel Running (fired t)
  | _ => t
  end.

(** Modelled from the spec: a stop request. *)
Definition tunnelStop (t : Tunnel) : Tunnel :=
  match state t with
  | Stopped => t
  | _ => mkTunnel Stopped (S (fired t))
  end.

(** Modelled from the spec: the stop channel delivers once the
    StopSignal has fired. *)
Definition stopSignalled (t : Tunnel) : bool :=
  match state t with
  | Stopped => true
  | _ => false
  end.

(** ** The main flow together with its goroutine *)

Definition pf_eqb (a b : PortForward) : bool :=
  match a, b with
  | PortForwardHandle i, PortForwardHandle j => Nat.eqb i j
  end.

Fixpoint lookup (pf : PortForward) (l : list (PortForward * Tunnel)) : option Tunnel :=
  match l with
  | [] => None
  | (pf', t) :: l => if pf_eqb pf pf' then Some t else lookup pf l
  end.

Fixpoint update (pf : PortForward) (g : Tunnel -> Tunnel)
    (l : list (PortForward * Tunnel)) : list (PortForward * Tunnel) :=
  match l with
  | [] => []
  | (pf', t) :: l => if pf_eqb pf pf' then (pf', g t) :: l else (pf', t) :: update pf g l
  end.

(** How the process stands: running, ended by the main flow (return or
    [os.Exit]), or ended by an interrupt nobody had subscribed to. *)
Inductive Status : Type :=
| Live
| Done (o : Outcome unit)
| Killed.

Record World : Type := mkWorld {
  wMain : Prog unit;                        (* what the main flow still has to do *)
  wGoroutines : list (Prog unit);           (* the same for every goroutine started *)
  wHistory : Trace;                         (* the calls and receives completed so far *)
  wSubscribed : bool;                       (* between signal.Notify and signal.Stop *)
  wPending : nat;                           (* signals buffered in [signals], capacity 1 *)
  wTunnels : list (PortForward * Tunnel);   (* the tunnels created *)
  wStatus : Status
}.

Definition start (f : Flags) : World :=
  mkWorld (Run f) [] [] false 0 [] Live.

Definition log (ev : Event) (w : World) : World :=
  mkWorld (wMain w) (wGoroutines w) (wHistory w ++ [ev]) (wSubscribed w)
          (wPending w) (wTunnels w) (wStatus w).

Definition setTunnels (l : list (PortForward * Tunnel)) (w : World) : World :=
  mkWorld (wMain w) (wGoroutines w) (wHistory w) (wSubscribed w)
          (wPending w) l (wStatus w).

Definition setSubscribed (b : bool) (w : World) : World :=
  mkWorld (wMain w) (wGoroutines w) (wHistory w) b
          (wPending w) (wTunnels w) (wStatus w).

Definition setPending (n : nat) (w : World) : World :=
  mkWorld (wMain w) (wGoroutines w) (wHistory w) (wSubscribed w)
          n (wTunnels w) (wStatus w).

Definition setMain (p : Prog unit) (w : World) : World :=
  mkWorld p (wGoroutines w) (wHistory w) (wSubscribed w)
          (wPending w) (wTunnels w) (wStatus w).

Definition setGoroutines (l : list (Prog unit)) (w : World) : World :=
  mkWorld (wMain w) l (wHistory w) (wSubscribed w)
          (wPending w) (wTunnels w) (wStatus w).

Definition setStatus (s : Status) (w : World) : World :=
  mkWorld (wMain w) (wGoroutines w) (wHistory w) (wSubscribed w)
          (wPending w) (wTunnels w) s.

(** What a call changes besides producing its result. *)
Definition effect (c : Call) : Resp c -> World -> World :=
  match c return Resp c -> World -> World with
  | SignalNotify => fun _ w => setSubscribed true w
  | SignalStop => fun _ w => setSubscribed false w
  | NewPortForward _ _ _ _ _ _ _ => fun r w =>
      match snd r with
      | None => setTunnels ((fst r, newTunnel) :: wTunnels w) w
      | Some _ => w
      end
  | Init pf => fun r w =>
      match r with
      | None => setTunnels (update pf tunnelInit (wTunnels w)) w
      | Some _ => w
      end
  | Stop pf => fun _ w => setTunnels (update pf tunnelStop (wTunnels w)) w
  | _ => fun _ w => w
  end.

(** One step of a flow. *)
Inductive Progress : Type :=
| Continues (p : Prog unit)
| Finished
| Exits (code : Z)
| Waits.

Definition advance (e : Env) (p : Prog unit) (w : World) : Progress * World :=
  match p with
  | Ret _ => (Finished, w)
  | Exit code => (Exits code, w)
  | Vis c k =>
      let r := respond e (wHistory w) c in
      (Continues (k r), effect c r (log (EvCall c r) w))
  | Go body k =>
      (Continues k, setGoroutines (wGoroutines w ++ [body]) (log EvGo w))
  | Recv Signals k =>
      match wPending w with
      | O => (Waits, w)
      | S n => (Continues k, setPending n (log (EvRecv Signals) w))
      end
  | Recv (GetStop pf) k =>
      match lookup pf (wTunnels w) with
      | Some t =>
          if stopSignalled t then (Continues k, log (EvRecv (GetStop pf)) w)
          else (Waits, w)
      | None => (Waits, w)
      end
  end.

Fixpoint replace {X : Type} (i : nat) (x : X) (l : list X) : list X :=
  match l, i with
  | [], _ => []
  | _ :: l, O => x :: l
  | y :: l, S i => y :: replace i x l
  end.

(** What can happen next: the main flow moves, a goroutine moves, or the
    process receives an interrupt. *)
Inductive Tick : Type :=
| RunMain
| RunGoroutine (i : nat)
| Interrupt.

Definition step (e : Env) (t : Tick) (w : World) : World :=
  match wStatus w with
  | Live =>
      match t with
      | RunMain =>
          match advance e (wMain w) w with
          | (Continues p, w') => setMain p w'
          | (Finished, w') => setStatus (Done (Returned tt)) w'
          | (Exits code, w') => setStatus (Done (Exited code)) w'
          | (Waits, _) => w
          end
      | RunGoroutine i =>
          match nth_error (wGoroutines w) i with
          | None => w
          | Some p =>
              match advance e p w with
              | (Continues p', w') => setGoroutines (replace i p' (wGoroutines w')) w'
              | (Finished, _) => w
              | (Exits code, w') => setStatus (Done (Exited code)) w'
              | (Waits, _) => w
              end
          end
      | Interrupt =>
          if wSubscribed w then
            match wPending w with
            | O => setPending 1 w
            | S _ => w
            end
          else setStatus Killed w
      end
  | _ => w
  end.

(** A schedule is run from left to right. *)
Definition run (e : Env) (sched : list Tick) (w : World) : World :=
  fold_left (fun w t => step e t w) sched w.

(** ** Properties of programs that bound what their runs can do *)

Definition isCreation (c : Call) : bool :=
  match c with
  | NewPortForward _ _ _ _ _ _ _ => true
  | _ => false
  end.

(** Along every path of [p], at most [n] tunnels are created. *)
Fixpoint creates (A : Type) (n : nat) (p : Prog A) {struct p} : Prop :=
  match p with
  | Ret _ => True
  | Exit _ => True
  | Vis c k =>
      if isCreation c then
        match n with
        | O => False
        | S m => forall r, creates A m (k r)
        end
      else forall r, creates A n (k r)
  | Go body k => creates unit 0 body /\ creates A n k
  | Recv _ k => creates A n k
  end.

Arguments creates {A} n p.

(** Every path of [p] that returns has first received from the stop
    channel of a tunnel. *)
Fixpoint waitsFirst (A : Type) (p : Prog A) {struct p} : Prop :=
  match p with
  | Ret _ => False
  | Exit _ => True
  | Vis c k => forall r, waitsFirst A (k r)
  | Go _ k => waitsFirst A k
  | Recv Signals k => waitsFirst A k
  | Recv (GetStop _) _ => True
  end.

Arguments waitsFirst {A} p.

(** A tunnel is either stopped, having fired its StopSignal once, or
    not stopped, having fired nothing. *)
Definition sound (t : Tunnel) : Prop :=
  (state t = Stopped /\ fired t = 1%nat) \/ (state t <> Stopped /\ fired t = 0%nat).

(** Every tunnel is. *)
Definition consistent (l : list (PortForward * Tunnel)) : Prop :=
  Forall (fun b => sound (snd b)) l.

Definition anyStopped (l : list (PortForward * Tunnel)) : Prop :=
  exists pf t, In (pf, t) l /\ state t = Stopped.

(** A property of the tunnels that survives creation, initialisation and
    stop requests. *)
Definition closed (Q : list (PortForward * Tunnel) -> Prop) : Prop :=
  (forall pf l, Q l -> Q ((pf, newTunnel) :: l))
  /\ (forall pf l, Q l -> Q (update pf tunnelInit l))
  /\ (forall pf l, Q l -> Q (update pf tunnelStop l)).

(** The bound on tunnel creation, on a world: what was created so far
    plus what the main flow can still create is at most one, goroutines
    create nothing, and every tunnel stems from a creation call. *)
Definition bounded (w : World) : Prop :=
  exists n,
    creates n (wMain w)
    /\ Forall (creates 0) (wGoroutines w)
    /\ (count isTunnelCreation (wHistory w) + n <= 1)%nat
    /\ (List.length (wTunnels w) <= count isTunnelCreation (wHistory w))%nat.

(** The main flow cannot have returned, and cannot return, without a
    stopped tunnel. *)
Definition guarded (w : World) : Prop :=
  match wStatus w with
  | Live => waitsFirst (wMain w) \/ anyStopped (wTunnels w)
  | Done (Returned _) => anyStopped (wTunnels w)
  | _ => True
  end.

(** ** The flags as [init] registers them (lines 154-161) *)

(** The values the flag variables hold when the command line sets none
    of them. *)
Definition defaultFlags : Flags :=
  mkFlags daprSystemNamespace defaultLocalPort false false.

(** ** Observations for the remaining paths *)

(** The error a tunnel creation returned, if the event is one that
    failed. *)
Definition creationError (ev : Event) : option error :=
  match ev with
  | EvCall (NewPortForward _ _ _ _ _ _ _) r => snd r
  | _ => None
  end.

Definition isCreationFailure (ev : Event) : bool :=
  match creationError ev with
  | Some _ => true
  | None => false
  end.

(** The error an initialisation returned, if the event is one that
    failed. *)
Definition initError (ev : Event) : option error :=
  match ev with
  | EvCall (Init _) r => r
  | _ => None
  end.

Definition isInitFailure (ev : Event) : bool :=
  match initError ev with
  | Some _ => true
  | None => false
  end.

Definition isInit (ev : Event) : bool :=
  match ev with
  | EvCall (Init _) _ => true
  | _ => false
  end.

Definition isGo (ev : Event) : bool :=
  match ev with
  | EvGo => true
  | _ => false
  end.

Definition isBrowser (ev : Event) : bool :=
  match ev with
  | EvCall (OpenURL _) _ => true
  | _ => false
  end.

Definition isSignalStop (ev : Event) : bool :=
  match ev with
  | EvCall SignalStop _ => true
  | _ => false
  end.

Definition isLauncher (ev : Event) : bool :=
  match ev with
  | EvCall (StandaloneRun _) _ => true
  | _ => false
  end.

Definition isFailureMessage (ev : Event) : bool :=
  match ev with
  | EvCall (FailureStatusEvent _ _) _ => true
  | _ => false
  end.

(** Everything the cluster branch does once it has a client: probes,
    the signal subscription, the tunnel, the goroutine, the info
    messages, the browser, the receives. *)
Definition isClusterWork (ev : Event) : bool :=
  match ev with
  | EvCall (CheckPodExists _ _ _) _ => true
  | EvCall SignalNotify _ => true
  | EvCall SignalStop _ => true
  | EvCall (NewPortForward _ _ _ _ _ _ _) _ => true
  | EvCall (Init _) _ => true
  | EvCall (Stop _) _ => true
  | EvCall (OpenURL _) _ => true
  | EvCall (InfoStatusEvent _ _) _ => true
  | EvGo => true
  | EvWait _ => true
  | EvRecv _ => true
  | _ => false
  end.

(** ** The cluster branch in detail *)

(** What the search loop leaves in the trace, and what it returns: a hit
    on [ns] after misses on the candidates before it, or misses on all
    the candidates. *)
Inductive Searched (client : Client) (l : list string) : Trace -> string -> Prop :=
| SearchedHit l1 ns l2 misses nspace :
    l = l1 ++ ns :: l2 ->
    Forall2 (Miss client) l1 misses ->
    Searched client l (misses ++ [probeEv client ns (true, nspace)]) ns
| SearchedMiss misses :
    Forall2 (Miss client) l misses ->
    Searched client l misses "".

(** What the tunnel phase leaves in the trace, and how it ends. *)
Inductive Serves (config : Config) (found : string) (port : Z) :
    Trace -> Outcome unit -> Prop :=
| ServesCreateFailed pf err :
    Serves config found port
      [notifyEv; createEv config found port (pf, Some err); createFailedEv err]
      (Exited 1)
| ServesInitFailed pf err :
    Serves config found port
      [notifyEv; createEv config found port (pf, None); initEv pf (Some err);
       initFailedEv err]
      (Exited 1)
| ServesWaiting pf browser :
    Serves config found port (servedEvs config found port pf browser)
      (Blocked (GetStop pf))
| ServesStopped pf browser :
    Serves config found port
      (servedEvs config found port pf browser
         ++ [EvRecv (GetStop pf); EvCall SignalStop tt])
      (Returned tt).

(** The cluster branch with a client: the search, then the cluster-wide
    search when the loop returned the empty string, the tunnel phase in
    the namespace returned otherwise. *)
Inductive Cluster (f : Flags) (config : Config) (client : Client) :
    Trace -> Outcome unit -> Prop :=
| ClusterNotFound evs r :
    Searched client (namespaces (dashboardNamespace f)) evs "" ->
    Cluster f config client
      (clientEv (config, client, None) :: evs ++ [probeEv client "" r; fallbackEv r])
      (Exited 1)
| ClusterServes evs found rest out :
    Searched client (namespaces (dashboardNamespace f)) evs found ->
    found <> "" ->
    Serves config found (dashboardLocalPort f) rest out ->
    Cluster f config client (clientEv (config, client, None) :: evs ++ rest) out.

(** What the browser was asked to open, and what it returned. *)
Definition browserCall (ev : Event) : option (string * option error) :=
  match ev with
  | EvCall (OpenURL url) r => Some (url, r)
  | _ => None
  end.

(** ** Stop requests *)

Definition isStop (c : Call) : bool :=
  match c with
  | Stop _ => true
  | _ => false
  end.

(** A stop request made on a tunnel. *)
Definition isStopCall (ev : Event) : bool :=
  match ev with
  | EvCall c _ => isStop c
  | _ => false
  end.

(** [p], and every goroutine it starts, makes no stop request before it
    has received from [signals]. *)
Fixpoint quiet (A : Type) (p : Prog A) {struct p} : Prop :=
  match p with
  | Ret _ => True
  | Exit _ => True
  | Vis c k => isStop c = false /\ forall r, quiet A (k r)
  | Go body k => quiet unit body /\ quiet A k
  | Recv Signals _ => True
  | Recv (GetStop _) k => quiet A k
  end.

Arguments quiet {A} p.

(** Along every path, [p] and the goroutines it starts make at most [n]
    stop requests between them; after starting a goroutine, [p] itself
    makes none and starts no goroutine that does. *)
Fixpoint stops (A : Type) (n : nat) (p : Prog A) {struct p} : Prop :=
  match p with
  | Ret _ => True
  | Exit _ => True
  | Vis c k =>
      if isStop c then
        match n with
        | O => False
        | S m => forall r, stops A m (k r)
        end
      else forall r, stops A n (k r)
  | Go body k => stops unit n body /\ stops A 0 k
  | Recv _ k => stops A n k
  end.

Arguments stops {A} n p.

(** No signal is buffered, no flow can make a stop request before it
    receives one, no tunnel is stopped, no stop request was made, and
    the process was not killed. *)
Definition calm (w : World) : Prop :=
  wPending w = 0%nat
  /\ quiet (wMain w)
  /\ Forall (fun p => quiet p) (wGoroutines w)
  /\ Forall (fun b => state (snd b) <> Stopped) (wTunnels w)
  /\ never isStopCall (wHistory w)
  /\ wStatus w <> Killed.

(** The stop requests made so far and those the flows can still make
    are at most one in all: [bm] bounds the main flow, [bg] the
    goroutines, one by one. *)
Definition budgeted (w : World) : Prop :=
  exists (bm : nat) (bg : list nat),
    stops bm (wMain w)
    /\ Forall2 (fun b p => stops b p) bg (wGoroutines w)
    /\ (count isStopCall (wHistory w) + bm + list_sum bg <= 1)%nat.

(** * Proofs *)

(** ** The command on concrete inputs *)

(** [dapr dashboard -k -p 9090], dashboard running in "dapr-system",
    interrupted in the end. *)
Example invoke_cluster_found :
  invoke (simEnv (healthy ["dapr-system"])) (mkFlags "dapr-system" 9090 false true) =
    ([EvCall GetKubeConfigClient (ConfigHandle 0, ClientHandle 0, None);
      EvCall (CheckPodExists (ClientHandle 0) "dapr-system" "dapr-dashboard")
             (true, "dapr-system");
      EvCall SignalNotify tt;
      EvCall (NewPortForward (ConfigHandle 0) "dapr-system" "dapr-dashboard"
                "localhost" 9090 8080 false) (PortForwardHandle 0, None);
      EvCall (Init (PortForwardHandle 0)) None;
      EvGo;
      EvCall (InfoStatusEvent (foundMsg "dapr-system") []) tt;
      EvCall (InfoStatusEvent (availableMsg "http://localhost:9090") []) tt;
      EvCall (OpenURL "http://localhost:9090") None;
      EvWait (GetStop (PortForwardHandle 0));
      EvRecv (GetStop (PortForwardHandle 0));
      EvCall SignalStop tt],
     Returned tt).
Proof. reflexivity. Qed.

(** [dapr dashboard -k -n ""], dashboard running in "other-ns": the
    first candidate is probed without namespace restriction, answers
    [ok], and the empty [foundNamespace] sends the flow to the
    cluster-wide search. *)
Example invoke_cluster_empty_namespace :
  invoke (simEnv (healthy ["other-ns"])) (mkFlags "" 8080 false true) =
    ([EvCall GetKubeConfigClient (ConfigHandle 0, ClientHandle 0, None);
      EvCall (CheckPodExists (ClientHandle 0) "" "dapr-dashboard") (true, "other-ns");
      EvCall (CheckPodExists (ClientHandle 0) "" "dapr-dashboard") (true, "other-ns");
      EvCall (InfoStatusEvent
        "Dapr dashboard found in namespace: %s. Run dapr dashboard -k -n %s to use this namespace."
        [AStr "other-ns"; AStr "other-ns"]) tt],
     Exited 1).
Proof. reflexivity. Qed.

(** The same command as in the first example, with its goroutine: nine
    steps of the main flow, an interrupt, two steps of the goroutine
    (receive the signal, stop the tunnel), three steps of the main flow
    (receive from the stop channel, the deferred [signal.Stop], return). *)
Example run_cluster_interrupted :
  let w := run (simEnv (healthy ["dapr-system"]))
               (repeat RunMain 9
                  ++ [Interrupt; RunGoroutine 0; RunGoroutine 0;
                      RunMain; RunMain; RunMain])
               (start (mkFlags "dapr-system" 9090 false true)) in
  wStatus w = Done (Returned tt)
  /\ wTunnels w = [(PortForwardHandle 0, mkTunnel Stopped 1)]
  /\ wSubscribed w = false.
Proof. repeat split. Qed.

(** Without an interrupt the main flow stays in its wait. *)
Example run_cluster_waiting :
  let w := run (simEnv (healthy ["dapr-system"]))
               (repeat RunMain 20 ++ [RunGoroutine 0; RunGoroutine 0; RunMain])
               (start (mkFlags "dapr-system" 9090 false true)) in
  wStatus w = Live
  /\ wTunnels w = [(PortForwardHandle 0, mkTunnel Running 0)].
Proof. repeat split. Qed.

(** ** General facts about running programs *)

(** Running [bind p f]: run [p], and continue with [f] if [p] returns. *)
Lemma exec_bind {A B : Type} (e : Env) (p : Prog A) (f : A -> Prog B) (tr : Trace) :
  exec e (bind p f) tr =
  match exec e p tr with
  | (tr', Returned a) => exec e (f a) tr'
  | (tr', Exited code) => (tr', Exited code)
  | (tr', Blocked ch) => (tr', Blocked ch)
  end.
Proof.
  revert tr.
  induction p as [A a | A code | A c k IH | A body _ k IH | A ch k IH];
    intros tr; simpl.
  - reflexivity.
  - reflexivity.
  - apply IH.
  - apply IH.
  - destruct (arrives e (tr ++ [EvWait ch]) ch); [apply IH | reflexivity].
Qed.

(** A run only ever extends the history. *)
Lemma exec_extends {A : Type} (e : Env) (p : Prog A) (tr : Trace) :
  exists evs, fst (exec e p tr) = tr ++ evs.
Proof.
  revert tr.
  induction p as [A a | A code | A c k IH | A body _ k IH | A ch k IH];
    intros tr; simpl.
  - exists []. now rewrite app_nil_r.
  - exists []. now rewrite app_nil_r.
  - destruct (IH (respond e tr c) (tr ++ [EvCall c (respond e tr c)])) as [evs H].
    exists (EvCall c (respond e tr c) :: evs). now rewrite H, <- app_assoc.
  - destruct (IH (tr ++ [EvGo])) as [evs H].
    exists (EvGo :: evs). now rewrite H, <- app_assoc.
  - destruct (arrives e (tr ++ [EvWait ch]) ch).
    + destruct (IH ((tr ++ [EvWait ch]) ++ [EvRecv ch])) as [evs H].
      exists (EvWait ch :: EvRecv ch :: evs). now rewrite H, <- !app_assoc.
    + now exists [EvWait ch].
Qed.

(** ** The search loop *)

(** The two ways the loop can run: a first hit after misses on all the
    earlier candidates, or misses on every candidate.  In both the loop
    returns; it never exits and never blocks. *)
Lemma searchLoop_run (e : Env) (client : Client) (l : list string) (tr : Trace) :
  (exists l1 ns l2 evs nspace,
      l = l1 ++ ns :: l2 /\
      Forall2 (Miss client) l1 evs /\
      exec e (searchLoop client l "") tr =
        (tr ++ evs ++ [probeEv client ns (true, nspace)], Returned ns))
  \/
  (exists evs,
      Forall2 (Miss client) l evs /\
      exec e (searchLoop client l "") tr = (tr ++ evs, Returned "")).
Proof.
  revert tr. induction l as [| ns rest IH]; intros tr.
  - right. exists []. split; [constructor |]. simpl. now rewrite app_nil_r.
  - simpl.
    destruct (respond e tr (CheckPodExists client ns dashboardSvc)) as [ok nspace] eqn:R.
    destruct ok.
    + left. exists [], ns, rest, [], nspace.
      split; [reflexivity | split; [constructor | reflexivity]].
    + destruct (IH (tr ++ [EvCall (CheckPodExists client ns dashboardSvc) (false, nspace)]))
        as [(l1 & n & l2 & evs & x & -> & HF & HE) | (evs & HF & HE)].
      * left. exists (ns :: l1), n, l2, (probeEv client ns (false, nspace) :: evs), x.
        split; [reflexivity | split].
        -- constructor; [now exists nspace | exact HF].
        -- rewrite HE. now rewrite <- app_assoc.
      * right. exists (probeEv client ns (false, nspace) :: evs).
        split.
        -- constructor; [now exists nspace | exact HF].
        -- rewrite HE. now rewrite <- app_assoc.
Qed.

(** Misses are probes of exactly the given namespaces, in order. *)
Lemma misses_probed (client : Client) (l : list string) (evs : Trace) :
  Forall2 (Miss client) l evs -> probed evs = l.
Proof.
  induction 1 as [| ns ev l evs [nspace ->] _ IH]; simpl; [reflexivity | now rewrite IH].
Qed.

Lemma probed_app (tr1 tr2 : Trace) : probed (tr1 ++ tr2) = probed tr1 ++ probed tr2.
Proof.
  induction tr1 as [| ev tr1 IH]; simpl; [reflexivity |].
  destruct ev as [c r | | ch | ch]; try exact IH.
  destruct c; try exact IH. simpl. now rewrite IH.
Qed.

(** ** The candidate list *)

Lemma namespaces_cases (ns : string) :
  namespaces ns =
    ns :: (if (ns =? daprSystemNamespace)%string then [] else [daprSystemNamespace])
       ++ (if (ns =? defaultNamespace)%string then [] else [defaultNamespace]).
Proof.
  unfold namespaces.
  destruct (ns =? daprSystemNamespace)%string, (ns =? defaultNamespace)%string;
    reflexivity.
Qed.

Lemma system_not_default : daprSystemNamespace <> defaultNamespace.
Proof. discriminate. Qed.

(** ** Dispatch *)

(** The version flag is looked at first. *)
Lemma invoke_version (e : Env) (f : Flags) :
  dashboardVersion f = true ->
  invoke e f =
    ([EvCall GetDashboardVersion (respond e [] GetDashboardVersion);
      EvCall (Println (respond e [] GetDashboardVersion)) tt],
     Exited 0).
Proof.
  intros Hv. unfold invoke, Run. rewrite Hv. simpl.
  now destruct (respond e _ (Println _)).
Qed.

(** Then the port. *)
Lemma invoke_invalid_port (e : Env) (f : Flags) :
  dashboardVersion f = false ->
  dashboardLocalPort f <= 0 ->
  invoke e f =
    ([EvCall (FailureStatusEvent "Invalid port: %v" [AInt (dashboardLocalPort f)]) tt],
     Exited 1).
Proof.
  intros Hv Hp. unfold invoke, Run. rewrite Hv.
  apply Z.leb_le in Hp. rewrite Hp. simpl.
  now destruct (respond e _ (FailureStatusEvent _ _)).
Qed.

(** Then the mode. *)
Lemma invoke_standalone (e : Env) (f : Flags) :
  dashboardVersion f = false ->
  0 < dashboardLocalPort f ->
  kubernetesMode f = false ->
  invoke e f = exec e (runStandalone f) [].
Proof.
  intros Hv Hp Hk. unfold invoke, Run. rewrite Hv, Hk.
  apply Z.leb_gt in Hp. now rewrite Hp.
Qed.

Lemma invoke_kubernetes (e : Env) (f : Flags) :
  dashboardVersion f = false ->
  0 < dashboardLocalPort f ->
  kubernetesMode f = true ->
  invoke e f = exec e (runKubernetes f) [].
Proof.
  intros Hv Hp Hk. unfold invoke, Run. rewrite Hv, Hk.
  apply Z.leb_gt in Hp. now rewrite Hp.
Qed.

(** Cluster mode, client construction failed. *)
Lemma runKubernetes_client_error (e : Env) (f : Flags) config client err :
  respond e [] GetKubeConfigClient = (config, client, Some err) ->
  exec e (runKubernetes f) [] =
    ([EvCall GetKubeConfigClient (config, client, Some err);
      EvCall (FailureStatusEvent "Failed to initialize kubernetes client: %s"
                [AStr (Error err)]) tt],
     Exited 1).
Proof.
  intros R. unfold runKubernetes. simpl. rewrite R. simpl.
  now destruct (respond e _ (FailureStatusEvent _ _)).
Qed.

(** Cluster mode, client available: the search runs, and its result
    selects between the cluster-wide search and the tunnel. *)
Lemma runKubernetes_client_ok (e : Env) (f : Flags) config client :
  respond e [] GetKubeConfigClient = (config, client, None) ->
  exec e (runKubernetes f) [] =
    match exec e (searchLoop client (namespaces (dashboardNamespace f)) "")
               [EvCall GetKubeConfigClient (config, client, None)] with
    | (tr, Returned foundNamespace) =>
        if (foundNamespace =? "")%string then exec e (searchAllPods client) tr
        else exec e (forwardAndServe config foundNamespace (dashboardLocalPort f)) tr
    | (tr, Exited code) => (tr, Exited code)
    | (tr, Blocked ch) => (tr, Blocked ch)
    end.
Proof.
  intros R. unfold runKubernetes. simpl. rewrite R. simpl.
  rewrite exec_bind.
  destruct (exec e (searchLoop _ _ _) _) as [tr [found | code | ch]]; try reflexivity.
  now destruct (found =? "")%string.
Qed.

(** The cluster-wide search: one probe, one message, exit status 1. *)
Lemma searchAllPods_run (e : Env) (client : Client) (tr : Trace) :
  exec e (searchAllPods client) tr =
    (tr ++ [probeEv client "" (respond e tr (CheckPodExists client "" dashboardSvc));
            fallbackEv (respond e tr (CheckPodExists client "" dashboardSvc))],
     Exited 1).
Proof.
  unfold searchAllPods, fallbackEv. simpl.
  destruct (respond e tr (CheckPodExists client "" dashboardSvc)) as [ok nspace] eqn:R.
  destruct ok; simpl.
  - destruct (respond e _ (InfoStatusEvent _ _)). now rewrite <- app_assoc.
  - destruct (respond e _ (FailureStatusEvent _ _)). now rewrite <- app_assoc.
Qed.

(** ** The tunnel phase *)

(** The four ways the tunnel phase can run. *)
Lemma forwardAndServe_run (e : Env) config foundNamespace localPort (tr : Trace) :
  (exists pf err,
      exec e (forwardAndServe config foundNamespace localPort) tr =
        (tr ++ [notifyEv; createEv config foundNamespace localPort (pf, Some err);
                createFailedEv err],
         Exited 1))
  \/
  (exists pf err,
      exec e (forwardAndServe config foundNamespace localPort) tr =
        (tr ++ [notifyEv; createEv config foundNamespace localPort (pf, None);
                initEv pf (Some err); initFailedEv err],
         Exited 1))
  \/
  (exists pf browser,
      arrives e (tr ++ servedEvs config foundNamespace localPort pf browser)
                (GetStop pf) = false /\
      exec e (forwardAndServe config foundNamespace localPort) tr =
        (tr ++ servedEvs config foundNamespace localPort pf browser,
         Blocked (GetStop pf)))
  \/
  (exists pf browser,
      arrives e (tr ++ servedEvs config foundNamespace localPort pf browser)
                (GetStop pf) = true /\
      exec e (forwardAndServe config foundNamespace localPort) tr =
        (tr ++ servedEvs config foundNamespace localPort pf browser
            ++ [EvRecv (GetStop pf); EvCall SignalStop tt],
         Returned tt)).
Proof.
  unfold forwardAndServe. cbn [bind call recv go exec].
  destruct (respond e tr SignalNotify).
  destruct (respond e (tr ++ [EvCall SignalNotify tt]) (NewPortForward _ _ _ _ _ _ _))
    as [pf [err |]] eqn:RN.
  - left. exists pf, err. cbn [bind call exec].
    destruct (respond e _ (FailureStatusEvent _ _)).
    unfold notifyEv, createEv, createFailedEv. now rewrite <- !app_assoc.
  - cbn [bind call recv go exec].
    destruct (respond e _ (Init pf)) as [err |] eqn:RI.
    + right; left. exists pf, err. cbn [bind call exec].
      destruct (respond e _ (FailureStatusEvent _ _)).
      unfold notifyEv, createEv, initEv, initFailedEv. now rewrite <- !app_assoc.
    + right; right. cbn [bind call recv go exec].
      destruct (respond e _ (InfoStatusEvent (foundMsg _) _)).
      destruct (respond e _ (InfoStatusEvent (availableMsg _) _)).
      destruct (respond e _ (OpenURL _)) as [berr |] eqn:RO.
      * cbn [bind call recv go exec].
        destruct (respond e _ (FailureStatusEvent "Failed to start Dapr dashboard in browser automatically" _)).
        destruct (respond e _ (FailureStatusEvent (visitMsg _) _)).
        match goal with
        | |- context [arrives e ?t ?c] =>
            replace t with (tr ++ servedEvs config foundNamespace localPort pf (Some berr))
              by (unfold servedEvs, browserEvs; now rewrite <- !app_assoc);
            destruct (arrives e (tr ++ servedEvs config foundNamespace localPort pf (Some berr)) c) eqn:AR
        end.
        -- right. exists pf, (Some berr). split; [exact AR |].
           cbn [bind call exec]. destruct (respond e _ SignalStop).
           now rewrite <- !app_assoc.
        -- left. exists pf, (Some berr). split; [exact AR | reflexivity].
      * cbn [bind call recv go exec].
        match goal with
        | |- context [arrives e ?t ?c] =>
            replace t with (tr ++ servedEvs config foundNamespace localPort pf None)
              by (unfold servedEvs, browserEvs; now rewrite <- !app_assoc);
            destruct (arrives e (tr ++ servedEvs config foundNamespace localPort pf None) c) eqn:AR
        end.
        -- right. exists pf, None. split; [exact AR |].
           cbn [bind call exec]. destruct (respond e _ SignalStop).
           now rewrite <- !app_assoc.
        -- left. exists pf, None. split; [exact AR | reflexivity].
Qed.

(** ** Facts about [never] and [count] *)

Lemma app_snoc {X : Type} (l1 : list X) (x : X) (l2 : list X) :
  l1 ++ x :: l2 = (l1 ++ [x]) ++ l2.
Proof. now rewrite <- app_assoc. Qed.

Lemma never_nil (p : Event -> bool) : never p [].
Proof. reflexivity. Qed.

Lemma never_cons (p : Event -> bool) (ev : Event) (tr : Trace) :
  never p (ev :: tr) <-> p ev = false /\ never p tr.
Proof.
  unfold never. simpl. rewrite andb_true_iff, negb_true_iff. tauto.
Qed.

Lemma never_app (p : Event -> bool) (tr1 tr2 : Trace) :
  never p (tr1 ++ tr2) <-> never p tr1 /\ never p tr2.
Proof.
  unfold never. rewrite forallb_app, andb_true_iff. tauto.
Qed.

Lemma never_In (p : Event -> bool) (tr : Trace) (ev : Event) :
  never p tr -> In ev tr -> p ev = false.
Proof.
  unfold never. rewrite forallb_forall. intros H Hin.
  apply negb_true_iff. now apply H.
Qed.

Lemma never_count (p : Event -> bool) (tr : Trace) :
  never p tr -> count p tr = 0%nat.
Proof.
  unfold count. induction tr as [| ev tr IH]; [reflexivity |].
  rewrite never_cons. intros [Hev Htr]. simpl. rewrite Hev. now apply IH.
Qed.

Lemma count_app (p : Event -> bool) (tr1 tr2 : Trace) :
  count p (tr1 ++ tr2) = (count p tr1 + count p tr2)%nat.
Proof. unfold count. now rewrite filter_app, length_app. Qed.

(** ** Sequences of probes *)

Lemma probes_app (e : Env) (client : Client) (l1 l2 : list string) (tr : Trace) :
  probes e client (l1 ++ l2) tr =
  probes e client l1 tr ++ probes e client l2 (tr ++ probes e client l1 tr).
Proof.
  revert tr. induction l1 as [| ns l1 IH]; intros tr; simpl.
  - now rewrite app_nil_r.
  - f_equal. rewrite IH. now rewrite <- app_assoc.
Qed.

Lemma probed_probes (e : Env) (client : Client) (l : list string) (tr : Trace) :
  probed (probes e client l tr) = l.
Proof.
  revert tr. induction l as [| ns l IH]; intros tr; simpl; [reflexivity | now rewrite IH].
Qed.

(** A property that no probe has holds nowhere in a sequence of probes. *)
Lemma never_probes (p : Event -> bool) (e : Env) (client : Client)
    (l : list string) (tr : Trace) :
  (forall c ns r, p (probeEv c ns r) = false) ->
  never p (probes e client l tr).
Proof.
  intros Hp. revert tr. induction l as [| ns l IH]; intros tr; simpl.
  - apply never_nil.
  - apply never_cons. split; [apply Hp | apply IH].
Qed.

(** All candidates miss: the loop probes each of them once and returns
    the empty string. *)
Lemma searchLoop_miss (e : Env) (client : Client) (l : list string) (tr : Trace) :
  never isHit (probes e client l tr) ->
  exec e (searchLoop client l "") tr = (tr ++ probes e client l tr, Returned "").
Proof.
  revert tr. induction l as [| ns l IH]; intros tr; simpl.
  - intros _. now rewrite app_nil_r.
  - rewrite never_cons. simpl.
    destruct (respond e tr (CheckPodExists client ns dashboardSvc)) as [ok nspace].
    simpl. intros [-> Hrest]. unfold probeEv in *.
    rewrite (IH _ Hrest). now rewrite <- app_assoc.
Qed.

(** The candidates of [l1] miss and the next one hits: the loop stops
    there and returns it. *)
Lemma searchLoop_hit (e : Env) (client : Client) (l1 : list string) (ns : string)
    (l2 : list string) (tr : Trace) :
  never isHit (probes e client l1 tr) ->
  fst (respond e (tr ++ probes e client l1 tr)
         (CheckPodExists client ns dashboardSvc)) = true ->
  exec e (searchLoop client (l1 ++ ns :: l2) "") tr =
    (tr ++ probes e client (l1 ++ [ns]) tr, Returned ns).
Proof.
  revert tr. induction l1 as [| n l1 IH]; intros tr; simpl.
  - intros _. rewrite app_nil_r.
    destruct (respond e tr (CheckPodExists client ns dashboardSvc)) as [ok nspace].
    simpl. now intros ->.
  - rewrite never_cons. simpl.
    destruct (respond e tr (CheckPodExists client n dashboardSvc)) as [ok nspace].
    simpl. intros [-> Hrest] Hhit. unfold probeEv in *.
    rewrite app_snoc in Hhit.
    rewrite (IH _ Hrest Hhit). now rewrite <- app_assoc.
Qed.

(** ** The candidate list (C2) *)

(** C2.  For every user-supplied namespace the candidate list is the user
    namespace, then "dapr-system" if it differs from the user namespace,
    then "default" if it differs from the user namespace; the list has no
    duplicates, and its entries come in strictly increasing priority
    (user, then system, then default). *)
Theorem namespaces_ordered_nodup (ns : string) :
  namespaces ns =
    [ns] ++ (if string_dec ns daprSystemNamespace then [] else [daprSystemNamespace])
         ++ (if string_dec ns defaultNamespace then [] else [defaultNamespace])
  /\ NoDup (namespaces ns)
  /\ StronglySorted (fun a b => (priority ns a < priority ns b)%nat) (namespaces ns).
Proof.
  rewrite namespaces_cases. unfold priority.
  destruct (string_dec ns daprSystemNamespace) as [Hs | Hs];
    destruct (string_dec ns defaultNamespace) as [Hd | Hd].
  - exfalso. apply system_not_default. congruence.
  - subst ns. simpl. repeat split.
    + repeat constructor; simpl; intuition discriminate.
    + repeat constructor; simpl; lia.
  - subst ns. simpl. repeat split.
    + repeat constructor; simpl; intuition discriminate.
    + repeat constructor; simpl; lia.
  - assert (Es : (ns =? daprSystemNamespace)%string = false) by now apply String.eqb_neq.
    assert (Ed : (ns =? defaultNamespace)%string = false) by now apply String.eqb_neq.
    assert (Es' : (daprSystemNamespace =? ns)%string = false)
      by (apply String.eqb_neq; congruence).
    assert (Ed' : (defaultNamespace =? ns)%string = false)
      by (apply String.eqb_neq; congruence).
    rewrite Es, Ed. split; [reflexivity | split].
    + repeat constructor; simpl; try tauto.
      * intros [H | [H | []]]; congruence.
      * intros [H | []]. now apply system_not_default.
    + repeat constructor; rewrite ?String.eqb_refl, ?Es', ?Ed'; simpl; lia.
Qed.

(** ** The version flag and the port (C10, C4) *)

(** C10.  When the version flag is set the command prints the dashboard
    version and exits with status 0, and does nothing else: the port is
    not validated and no mode is entered, so every invocation with the
    version flag behaves the same, whatever the port, the namespace and
    the kubernetes flag. *)
Theorem version_flag_first (e : Env) (f : Flags) :
  dashboardVersion f = true ->
  invoke e f =
    ([EvCall GetDashboardVersion (respond e [] GetDashboardVersion);
      EvCall (Println (respond e [] GetDashboardVersion)) tt],
     Exited 0)
  /\ forall f', dashboardVersion f' = true -> invoke e f' = invoke e f.
Proof.
  intros Hv. split.
  - now apply invoke_version.
  - intros f' Hv'. now rewrite !invoke_version.
Qed.

Lemma version_flag_first_witness :
  invoke (simEnv (healthy [])) (mkFlags "dapr-system" (-1) true true) =
    ([EvCall GetDashboardVersion "0.6.0"; EvCall (Println "0.6.0") tt], Exited 0).
Proof.
  refine (proj1 (version_flag_first (simEnv (healthy []))
                   (mkFlags "dapr-system" (-1) true true) _)).
  reflexivity.
Defined.

(** C4, as stated, fails when the version flag is set: with [-v -p 0] the
    port is not rejected and the exit status is 0. *)
Lemma invalid_port_not_rejected_with_version_flag :
  dashboardLocalPort (mkFlags "dapr-system" 0 true false) <= 0
  /\ invoke (simEnv (healthy [])) (mkFlags "dapr-system" 0 true false) =
       ([EvCall GetDashboardVersion "0.6.0"; EvCall (Println "0.6.0") tt], Exited 0)
  /\ snd (invoke (simEnv (healthy [])) (mkFlags "dapr-system" 0 true false)) <> Exited 1
  /\ ~ In (invalidPortEv 0)
          (fst (invoke (simEnv (healthy [])) (mkFlags "dapr-system" 0 true false))).
Proof.
  split; [simpl; lia | split; [reflexivity | split]].
  - discriminate.
  - simpl. intros [H | [H | []]]; discriminate.
Qed.

(** C4, amended.  For every port value that is zero or negative, no
    cluster client is constructed and no existence query is made; and
    when the version flag is not set, the command rejects the port and
    exits with status 1, the rejection message being its only action. *)
Theorem invalid_port_rejected_before_search (e : Env) (f : Flags) :
  dashboardLocalPort f <= 0 ->
  never isClientConstruction (fst (invoke e f))
  /\ never isProbe (fst (invoke e f))
  /\ (dashboardVersion f = false ->
      invoke e f = ([invalidPortEv (dashboardLocalPort f)], Exited 1)).
Proof.
  intros Hp. destruct (dashboardVersion f) eqn:Hv.
  - rewrite (invoke_version e f Hv). repeat split. discriminate.
  - rewrite (invoke_invalid_port e f Hv Hp). repeat split.
Qed.

Lemma invalid_port_rejected_before_search_witness :
  invoke (simEnv (healthy ["dapr-system"])) (mkFlags "dapr-system" 0 false true) =
    ([invalidPortEv 0], Exited 1).
Proof.
  refine (proj2 (proj2 (invalid_port_rejected_before_search
           (simEnv (healthy ["dapr-system"])) (mkFlags "dapr-system" 0 false true) _)) _).
  - simpl. lia.
  - reflexivity.
Defined.

(** ** The namespace search (C1, C9, C3) *)



(** The same at the level of the invocation: in cluster mode, when the
    first hit is in a namespace [ns] other than the empty string, the
    namespaces probed by the whole invocation are the earlier candidates
    and [ns], and the tunnel is created in [ns]. *)
Lemma found_namespace_gets_tunnel (e : Env) (f : Flags) config client
    (l1 : list string) (ns : string) (l2 : list string) :
  dashboardVersion f = false -> 0 < dashboardLocalPort f ->
  kubernetesMode f = true ->
  respond e [] GetKubeConfigClient = (config, client, None) ->
  namespaces (dashboardNamespace f) = l1 ++ ns :: l2 ->
  never isHit (probes e client l1 [clientEv (config, client, None)]) ->
  fst (respond e ([clientEv (config, client, None)]
                    ++ probes e client l1 [clientEv (config, client, None)])
         (CheckPodExists client ns dashboardSvc)) = true ->
  ns <> "" ->
  probed (fst (invoke e f)) = l1 ++ [ns]
  /\ exists r, In (createEv config ns (dashboardLocalPort f) r) (fst (invoke e f)).
Proof.
  intros Hv Hp Hk R Hl Hmiss Hhit Hns.
  rewrite (invoke_kubernetes e f Hv Hp Hk), (runKubernetes_client_ok e f _ _ R), Hl.
  fold (clientEv (config, client, None)).
  rewrite (searchLoop_hit e client l1 ns l2 _ Hmiss Hhit).
  apply String.eqb_neq in Hns. rewrite Hns.
  set (tr := [clientEv (config, client, None)]
               ++ probes e client (l1 ++ [ns]) [clientEv (config, client, None)]).
  assert (Htr : probed tr = l1 ++ [ns])
    by (unfold tr; rewrite probed_app, probed_probes; reflexivity).
  destruct (forwardAndServe_run e config ns (dashboardLocalPort f) tr)
    as [(pf & err & ->) | [(pf & err & ->) | [(pf & b & _ & ->) | (pf & b & _ & ->)]]];
    cbn [fst]; rewrite ?probed_app, Htr.
  - split; [simpl; apply app_nil_r |].
    exists (pf, Some err). apply in_or_app. right. simpl. tauto.
  - split; [simpl; apply app_nil_r |].
    exists (pf, None). apply in_or_app. right. simpl. tauto.
  - split; [destruct b; simpl; apply app_nil_r |].
    exists (pf, None). apply in_or_app. right. simpl. tauto.
  - split; [destruct b; simpl; apply app_nil_r |].
    exists (pf, None). apply in_or_app. right. apply in_or_app. left. simpl. tauto.
Qed.

(** No candidate of a non-empty user namespace is the empty namespace. *)
Lemma namespaces_nonempty (ns : string) :
  ns <> "" -> forall x, In x (namespaces ns) -> x <> "".
Proof.
  intros Hns x. rewrite namespaces_cases.
  destruct (ns =? daprSystemNamespace)%string, (ns =? defaultNamespace)%string;
    simpl; intuition (subst; try discriminate; auto).
Qed.

Lemma never_clusterWide_probes (e : Env) (client : Client) (l : list string) (tr : Trace) :
  (forall x, In x l -> x <> "") ->
  never isClusterWideProbe (probes e client l tr).
Proof.
  revert tr. induction l as [| ns l IH]; intros tr Hl; simpl.
  - apply never_nil.
  - apply never_cons. split.
    + simpl. apply String.eqb_neq. apply Hl. now left.
    + apply IH. intros x Hx. apply Hl. now right.
Qed.

Lemma count_probes (e : Env) (client : Client) (l : list string) (tr : Trace) :
  count isProbe (probes e client l tr) = List.length l.
Proof.
  revert tr. induction l as [| n l IH]; intros tr; [reflexivity |].
  unfold count in *. simpl. f_equal. apply IH.
Qed.

(** C9.  The search loop looks only at the [ok] result of a probe and
    drops whatever else the query reports: after a probe that is not
    [ok], the loop goes on with the remaining candidates; it returns for
    every environment (it never exits and never blocks), and it probes
    the candidates from the front of the list, each at most once.  A
    failure to construct the cluster client, in contrast, ends the
    process with status 1 before any probe; when the client is
    available the search always runs to its end. *)
Theorem probe_failure_is_miss (e : Env) :
  (forall client ns rest tr nspace,
      respond e tr (CheckPodExists client ns dashboardSvc) = (false, nspace) ->
      exec e (searchLoop client (ns :: rest) "") tr =
      exec e (searchLoop client rest "") (tr ++ [probeEv client ns (false, nspace)]))
  /\ (forall client l tr,
      exists evs found later,
        exec e (searchLoop client l "") tr = (tr ++ evs, Returned found)
        /\ l = probed evs ++ later
        /\ count isProbe evs = List.length evs)
  /\ (forall f config client err,
      dashboardVersion f = false -> 0 < dashboardLocalPort f ->
      kubernetesMode f = true ->
      respond e [] GetKubeConfigClient = (config, client, Some err) ->
      invoke e f = ([clientEv (config, client, Some err); clientFailedEv err], Exited 1)
      /\ never isProbe (fst (invoke e f)))
  /\ (forall f config client,
      dashboardVersion f = false -> 0 < dashboardLocalPort f ->
      kubernetesMode f = true ->
      respond e [] GetKubeConfigClient = (config, client, None) ->
      exists rest,
        fst (invoke e f) =
        fst (exec e (searchLoop client (namespaces (dashboardNamespace f)) "")
               [clientEv (config, client, None)]) ++ rest).
Proof.
  split; [| split; [| split]].
  - intros client ns rest tr nspace R. simpl. now rewrite R.
  - intros client l tr.
    destruct (searchLoop_run e client l tr)
      as [(l1 & ns & l2 & evs & x & -> & HF & HE) | (evs & HF & HE)].
    + exists (evs ++ [probeEv client ns (true, x)]), ns, l2.
      split; [exact HE | split].
      * rewrite probed_app, (misses_probed _ _ _ HF). simpl. now rewrite <- app_assoc.
      * rewrite count_app, length_app. f_equal.
        clear HE. induction HF as [| n ev l evs [y ->] _ IH]; [reflexivity |].
        unfold count in *. simpl. now f_equal.
    + exists evs, "", []. split; [exact HE | split].
      * now rewrite (misses_probed _ _ _ HF), app_nil_r.
      * clear HE. induction HF as [| n ev l evs [y ->] _ IH]; [reflexivity |].
        unfold count in *. simpl. now f_equal.
  - intros f config client err Hv Hp Hk R.
    rewrite (invoke_kubernetes e f Hv Hp Hk).
    rewrite (runKubernetes_client_error e f _ _ _ R). now split.
  - intros f config client Hv Hp Hk R.
    rewrite (invoke_kubernetes e f Hv Hp Hk).
    rewrite (runKubernetes_client_ok e f _ _ R). unfold clientEv.
    destruct (exec e (searchLoop _ _ _) _) as [tr [found | code | ch]]; cbn [fst];
      try (exists []; now rewrite app_nil_r).
    destruct (found =? "")%string.
    + destruct (exec_extends e (searchAllPods client) tr) as [evs ->]. now exists evs.
    + destruct (exec_extends e (forwardAndServe config found (dashboardLocalPort f)) tr)
        as [evs ->]. now exists evs.
Qed.

Lemma probe_failure_is_miss_witness :
  exec (simEnv (healthy ["default"]))
       (searchLoop (ClientHandle 0) ("dapr-system" :: ["default"]) "") [] =
  exec (simEnv (healthy ["default"]))
       (searchLoop (ClientHandle 0) ["default"] "")
       ([] ++ [probeEv (ClientHandle 0) "dapr-system" (false, "")])
  /\ invoke (simEnv (mkSim "0.6.0" (Some (mkError "no kubeconfig")) ["default"]
                      None None None None true))
            (mkFlags "dapr-system" 8080 false true) =
       ([clientEv (ConfigHandle 0, ClientHandle 0, Some (mkError "no kubeconfig"));
         clientFailedEv (mkError "no kubeconfig")],
        Exited 1).
Proof.
  split.
  - refine (proj1 (probe_failure_is_miss (simEnv (healthy ["default"])))
              (ClientHandle 0) "dapr-system" ["default"] [] "" _).
    reflexivity.
  - refine (proj1 (proj1 (proj2 (proj2 (probe_failure_is_miss
              (simEnv (mkSim "0.6.0" (Some (mkError "no kubeconfig")) ["default"]
                         None None None None true)))))
              (mkFlags "dapr-system" 8080 false true)
              (ConfigHandle 0) (ClientHandle 0) (mkError "no kubeconfig") _ _ _ _)).
    + reflexivity.
    + simpl. lia.
    + reflexivity.
    + reflexivity.
Defined.

(** C3.  When no candidate namespace has the service, the search is
    followed by exactly one more existence probe, made without namespace
    restriction, then by one message (an advice to use the namespace
    found, or a failure report), and the process exits with status 1 in
    both cases; the tunnel is never created, initialised or waited for.
    The probes of the invocation are the one per candidate and that one;
    for a non-empty user namespace it is the only probe of the whole
    invocation without namespace restriction. *)
Theorem fallback_after_failed_search (e : Env) (f : Flags) config client :
  dashboardVersion f = false -> 0 < dashboardLocalPort f ->
  kubernetesMode f = true ->
  respond e [] GetKubeConfigClient = (config, client, None) ->
  let tr0 := [clientEv (config, client, None)] in
  let search := probes e client (namespaces (dashboardNamespace f)) tr0 in
  let r := respond e (tr0 ++ search) (CheckPodExists client "" dashboardSvc) in
  let fallback := [probeEv client "" r; fallbackEv r] in
  never isHit search ->
  invoke e f = (tr0 ++ search ++ fallback, Exited 1)
  /\ count isProbe fallback = 1%nat
  /\ count isClusterWideProbe fallback = 1%nat
  /\ (fallbackEv r = if fst r then advisoryEv (snd r) else notFoundEv)
  /\ never isTunnelUse (fst (invoke e f))
  /\ count isProbe (fst (invoke e f)) =
       (List.length (namespaces (dashboardNamespace f)) + 1)%nat
  /\ (dashboardNamespace f <> "" ->
      count isClusterWideProbe (fst (invoke e f)) = 1%nat).
Proof.
  intros Hv Hp Hk R tr0 search r fallback Hmiss.
  assert (E : invoke e f = (tr0 ++ search ++ fallback, Exited 1)).
  { rewrite (invoke_kubernetes e f Hv Hp Hk).
    rewrite (runKubernetes_client_ok e f _ _ R).
    fold (clientEv (config, client, None)). fold tr0.
    rewrite (searchLoop_miss e client _ tr0 Hmiss). simpl String.eqb. cbv iota.
    rewrite searchAllPods_run. fold search. fold r. now rewrite <- app_assoc. }
  assert (P1 : count isProbe fallback = 1%nat)
    by (unfold fallback, fallbackEv; destruct r as [[] nspace]; reflexivity).
  assert (P2 : count isClusterWideProbe fallback = 1%nat)
    by (unfold fallback, fallbackEv; destruct r as [[] nspace]; reflexivity).
  rewrite E. cbn [fst].
  split; [reflexivity | split; [exact P1 | split; [exact P2 |]]].
  split; [reflexivity | split; [| split]].
  - apply never_app. split; [reflexivity |].
    apply never_app. split.
    + apply never_probes. reflexivity.
    + unfold fallback, fallbackEv. destruct r as [[] nspace]; reflexivity.
  - rewrite !count_app, P1. unfold search. rewrite count_probes.
    change (count isProbe tr0) with 0%nat. lia.
  - intros Hns. rewrite !count_app, P2.
    rewrite (never_count isClusterWideProbe search)
      by (apply never_clusterWide_probes; now apply namespaces_nonempty).
    reflexivity.
Qed.

Lemma fallback_after_failed_search_witness :
  invoke (simEnv (healthy ["other-ns"])) (mkFlags "custom" 8080 false true) =
    ([clientEv (ConfigHandle 0, ClientHandle 0, None);
      probeEv (ClientHandle 0) "custom" (false, "");
      probeEv (ClientHandle 0) "dapr-system" (false, "");
      probeEv (ClientHandle 0) "default" (false, "");
      probeEv (ClientHandle 0) "" (true, "other-ns");
      advisoryEv "other-ns"],
     Exited 1).
Proof.
  refine (proj1 (fallback_after_failed_search (simEnv (healthy ["other-ns"]))
                   (mkFlags "custom" 8080 false true)
                   (ConfigHandle 0) (ClientHandle 0) _ _ _ _ _)).
  - reflexivity.
  - simpl. lia.
  - reflexivity.
  - reflexivity.
  - reflexivity.
Defined.

(** ** Every invocation ends in one of the listed ways *)

Lemma misses_onlyProbes (client : Client) (l : list string) (evs : Trace) :
  Forall2 (Miss client) l evs -> onlyProbes evs.
Proof.
  unfold onlyProbes. induction 1 as [| ns ev l evs [nspace ->] _ IH]; [reflexivity | exact IH].
Qed.

(** The search loop returns after a sequence of probes. *)
Lemma searchLoop_onlyProbes (e : Env) (client : Client) (l : list string) (tr : Trace) :
  exists evs found,
    exec e (searchLoop client l "") tr = (tr ++ evs, Returned found) /\ onlyProbes evs.
Proof.
  destruct (searchLoop_run e client l tr)
    as [(l1 & ns & l2 & evs & x & -> & HF & HE) | (evs & HF & HE)].
  - exists (evs ++ [probeEv client ns (true, x)]), ns. split; [exact HE |].
    unfold onlyProbes. rewrite forallb_app, (misses_onlyProbes _ _ _ HF). reflexivity.
  - exists evs, "". split; [exact HE | exact (misses_onlyProbes _ _ _ HF)].
Qed.

Lemma standalone_run (e : Env) (f : Flags) :
  exec e (runStandalone f) [] =
    (EvCall (StandaloneRun (dashboardLocalPort f))
            (respond e [] (StandaloneRun (dashboardLocalPort f))) ::
     match respond e [] (StandaloneRun (dashboardLocalPort f)) with
     | Some _ => [notInstalledEv]
     | None => []
     end,
     Returned tt).
Proof.
  unfold runStandalone. simpl.
  destruct (respond e [] (StandaloneRun (dashboardLocalPort f))) as [err |]; simpl.
  - now destruct (respond e _ (FailureStatusEvent _ _)).
  - reflexivity.
Qed.

(** Every invocation runs in one of these ways. *)
Lemma invoke_ends (e : Env) (f : Flags) :
  Ends f (fst (invoke e f)) (snd (invoke e f)).
Proof.
  destruct (dashboardVersion f) eqn:Hv.
  { rewrite (invoke_version e f Hv). now constructor. }
  destruct (Z_le_gt_dec (dashboardLocalPort f) 0) as [Hp | Hp].
  { rewrite (invoke_invalid_port e f Hv Hp). now constructor. }
  apply Z.gt_lt in Hp.
  destruct (kubernetesMode f) eqn:Hk.
  2: { rewrite (invoke_standalone e f Hv Hp Hk), standalone_run. now constructor. }
  rewrite (invoke_kubernetes e f Hv Hp Hk).
  destruct (respond e [] GetKubeConfigClient) as [[config client] [err |]] eqn:R.
  { rewrite (runKubernetes_client_error e f _ _ _ R). now constructor. }
  rewrite (runKubernetes_client_ok e f _ _ R).
  destruct (searchLoop_onlyProbes e client (namespaces (dashboardNamespace f))
              [EvCall GetKubeConfigClient (config, client, None)])
    as (search & found & -> & Hs).
  destruct (found =? "")%string.
  { rewrite searchAllPods_run. cbn [fst snd]. rewrite <- app_assoc.
    now apply EndsNotFound. }
  destruct (forwardAndServe_run e config found (dashboardLocalPort f)
              ([EvCall GetKubeConfigClient (config, client, None)] ++ search))
    as [(pf & err & ->) | [(pf & err & ->) | [(pf & b & _ & ->) | (pf & b & _ & ->)]]];
    cbn [fst snd]; rewrite <- app_assoc.
  - now apply EndsCreateFailed.
  - now apply EndsInitFailed.
  - now apply EndsWaiting.
  - now apply EndsStopped.
Qed.

(** A property that no probe has holds nowhere in the search part. *)
Lemma never_onlyProbes (p : Event -> bool) (search : Trace) :
  (forall ev, isProbe ev = true -> p ev = false) ->
  onlyProbes search -> never p search.
Proof.
  intros Hp. unfold onlyProbes, never.
  induction search as [| ev search IH]; [reflexivity |].
  simpl. rewrite !andb_true_iff. intros [Hev Hs].
  split; [now rewrite (Hp ev Hev) | now apply IH].
Qed.

(** ** Tactics for traces *)

(** No probe has property [p]. *)
Ltac not_a_probe :=
  let ev := fresh "ev" in
  intros ev; destruct ev as [[] ? | | |]; try discriminate; intros _; reflexivity.

(** [never p tr] for a trace made of named events and a search part. *)
Ltac never_holds :=
  repeat first
    [ apply never_nil
    | reflexivity
    | apply never_onlyProbes; [not_a_probe | assumption]
    | apply never_cons; split; [reflexivity |]
    | apply never_app; split ].

(** An event with property [p] cannot be in a trace where [p] never holds. *)
Ltac absurd_In H p :=
  exfalso;
  match type of H with
  | In ?ev ?tr =>
      let N := fresh in
      assert (N : never p tr) by never_holds;
      apply (never_In _ _ _ N) in H;
      first [congruence | cbv in H; congruence]
  end.

Lemma split_unique (p : Event -> bool) (L : Trace) (x : Event) (R : Trace)
    (before : Trace) (ev : Event) (after : Trace) :
  never p L -> never p R -> p ev = true ->
  L ++ x :: R = before ++ ev :: after ->
  before = L /\ ev = x /\ after = R.
Proof.
  intros HL HR Hev. revert before.
  induction L as [| a L IH]; intros before H.
  - destruct before as [| b before]; simpl in H.
    + injection H as -> ->. now repeat split.
    + injection H as -> ->.
      assert (Hin : In ev (before ++ ev :: after)) by (apply in_or_app; right; now left).
      rewrite (never_In _ _ _ HR Hin) in Hev. discriminate.
  - apply never_cons in HL. destruct HL as [Ha HL].
    destruct before as [| b before]; simpl in H.
    + injection H as -> _. rewrite Ha in Hev. discriminate.
    + injection H as -> H. destruct (IH HL before H) as (-> & -> & ->). now repeat split.
Qed.

Lemma browserEvs_never_available (url : string) (r : option error) :
  never isAvailable (browserEvs url r).
Proof. destruct r; reflexivity. Qed.

(** The served part of a trace, cut at the "available" message. *)
Lemma servedEvs_cut config found port pf browser :
  servedEvs config found port pf browser =
    [notifyEv; createEv config found port (pf, None); initEv pf None; EvGo;
     foundEv found]
    ++ availableEv (webURL port)
    :: (browserEvs (webURL port) browser ++ [EvWait (GetStop pf)]).
Proof. reflexivity. Qed.

(** ** Standalone mode (C8) *)

(** C8.  In standalone mode, when the standalone launcher returns an
    error, the whole invocation consists of the launcher call followed
    by the one "not installed" message: exactly one message is printed,
    no cluster client is constructed and no existence query is made. *)
Theorem standalone_failure_one_message (e : Env) (f : Flags) (port : Z) (err : error) :
  kubernetesMode f = false ->
  In (EvCall (StandaloneRun port) (Some err)) (fst (invoke e f)) ->
  invoke e f =
    ([EvCall (StandaloneRun (dashboardLocalPort f)) (Some err); notInstalledEv],
     Returned tt)
  /\ port = dashboardLocalPort f
  /\ count isMessage (fst (invoke e f)) = 1%nat
  /\ never isClientConstruction (fst (invoke e f))
  /\ never isProbe (fst (invoke e f)).
Proof.
  intros Hk Hin.
  rewrite (surjective_pairing (invoke e f)) in *. cbn [fst] in *.
  destruct (invoke_ends e f)
    as [v Hv | Hv Hp | r Hv Hp _ | | | | | |]; try congruence.
  - absurd_In Hin isLauncherFailure.
  - absurd_In Hin isLauncherFailure.
  - destruct r as [err' |].
    + destruct Hin as [H | [H | []]]; [| discriminate H].
      pose proof (f_equal launcherResult H) as H'. simpl in H'.
      injection H' as ->. injection H as ->.
      repeat split.
    + destruct Hin as [H | []].
      pose proof (f_equal launcherResult H) as H'. discriminate H'.
Qed.

Lemma standalone_failure_one_message_witness :
  invoke (simEnv (mkSim "0.6.0" None [] None None None (Some (mkError "not found")) true))
         (mkFlags "dapr-system" 8080 false false) =
    ([EvCall (StandaloneRun 8080) (Some (mkError "not found")); notInstalledEv],
     Returned tt).
Proof.
  refine (proj1 (standalone_failure_one_message
            (simEnv (mkSim "0.6.0" None [] None None None (Some (mkError "not found")) true))
            (mkFlags "dapr-system" 8080 false false) 8080 (mkError "not found") _ _)).
  - reflexivity.
  - simpl. left. reflexivity.
Defined.

(** ** The order of the "available" message (C5) *)

(** Cutting a cluster-mode trace with a served part at the "available"
    message. *)
Lemma served_split (r : Config * Client * option error) (search : Trace)
    config found port pf browser (rest before : Trace) (ev : Event) (after : Trace) :
  onlyProbes search ->
  never isAvailable rest ->
  clientEv r :: search ++ servedEvs config found port pf browser ++ rest
    = before ++ ev :: after ->
  isAvailable ev = true ->
  before = clientEv r :: search
             ++ [notifyEv; createEv config found port (pf, None); initEv pf None;
                 EvGo; foundEv found]
  /\ ev = availableEv (webURL port)
  /\ after = browserEvs (webURL port) browser ++ [EvWait (GetStop pf)] ++ rest.
Proof.
  intros Hs Hrest H Hev.
  assert (E : clientEv r :: search ++ servedEvs config found port pf browser ++ rest =
              (clientEv r :: search
                 ++ [notifyEv; createEv config found port (pf, None); initEv pf None;
                     EvGo; foundEv found])
              ++ availableEv (webURL port)
              :: (browserEvs (webURL port) browser ++ [EvWait (GetStop pf)] ++ rest)).
  { rewrite servedEvs_cut. simpl. f_equal. rewrite <- !app_assoc. reflexivity. }
  rewrite E in H.
  apply (split_unique isAvailable) in H; [| | | exact Hev].
  - destruct H as (-> & -> & ->). repeat split.
  - never_holds.
  - apply never_app. split; [apply browserEvs_never_available |].
    apply never_cons. split; [reflexivity | exact Hrest].
Qed.

Lemma In_middle {X : Type} (before : list X) (x : X) (after : list X) :
  In x (before ++ x :: after).
Proof. apply in_or_app. right. now left. Qed.

(** C5.  The "dashboard available" message is printed only after the
    tunnel's initialize call has returned without error and before the
    wait on the stop channel begins: wherever the message stands in the
    trace of an invocation, a successful [Init] of some tunnel stands
    before it, the beginning of the wait on that tunnel's stop channel
    stands after it, no wait has begun before it, and it is not printed
    again after it.  On the success path (some [Init] returned without
    error) the message is printed. *)
Theorem available_after_init_before_wait (e : Env) (f : Flags) :
  (forall before ev after,
      fst (invoke e f) = before ++ ev :: after ->
      isAvailable ev = true ->
      ev = availableEv (webURL (dashboardLocalPort f))
      /\ (exists pf, In (initEv pf None) before /\ In (EvWait (GetStop pf)) after)
      /\ never isWait before
      /\ never isAvailable after)
  /\ (forall pf,
      In (initEv pf None) (fst (invoke e f)) ->
      In (availableEv (webURL (dashboardLocalPort f))) (fst (invoke e f))).
Proof.
  split.
  - intros before ev after H Hev.
    assert (Hin : In ev (fst (invoke e f))) by (rewrite H; apply In_middle).
    destruct (invoke_ends e f)
      as [v Hv | Hv Hp | r Hv Hp Hk | config client err Hv Hp Hk
          | config client search r Hv Hp Hk Hs
          | config client search found pf err Hv Hp Hk Hs
          | config client search found pf err Hv Hp Hk Hs
          | config client search found pf browser Hv Hp Hk Hs
          | config client search found pf browser Hv Hp Hk Hs].
    + absurd_In Hin isAvailable.
    + absurd_In Hin isAvailable.
    + destruct r; absurd_In Hin isAvailable.
    + absurd_In Hin isAvailable.
    + destruct r as [[] nspace]; absurd_In Hin isAvailable.
    + absurd_In Hin isAvailable.
    + absurd_In Hin isAvailable.
    + rewrite <- (app_nil_r (servedEvs _ _ _ _ _)) in H.
      apply served_split in H; [| exact Hs | apply never_nil | exact Hev].
      destruct H as (-> & -> & ->).
      split; [reflexivity | split; [| split]].
      * exists pf. split.
        -- right. apply in_or_app. right. simpl. tauto.
        -- apply in_or_app. right. now left.
      * never_holds.
      * apply never_app. split; [apply browserEvs_never_available | reflexivity].
    + apply served_split in H; [| exact Hs | reflexivity | exact Hev].
      destruct H as (-> & -> & ->).
      split; [reflexivity | split; [| split]].
      * exists pf. split.
        -- right. apply in_or_app. right. simpl. tauto.
        -- apply in_or_app. right. now left.
      * never_holds.
      * apply never_app. split; [apply browserEvs_never_available | reflexivity].
  - intros pf0 Hin.
    destruct (invoke_ends e f)
      as [v Hv | Hv Hp | r Hv Hp Hk | config client err Hv Hp Hk
          | config client search r Hv Hp Hk Hs
          | config client search found pf err Hv Hp Hk Hs
          | config client search found pf err Hv Hp Hk Hs
          | config client search found pf browser Hv Hp Hk Hs
          | config client search found pf browser Hv Hp Hk Hs].
    + absurd_In Hin isInitOk.
    + absurd_In Hin isInitOk.
    + destruct r; absurd_In Hin isInitOk.
    + absurd_In Hin isInitOk.
    + destruct r as [[] nspace]; absurd_In Hin isInitOk.
    + absurd_In Hin isInitOk.
    + absurd_In Hin isInitOk.
    + right. apply in_or_app. right. rewrite servedEvs_cut. apply In_middle.
    + right. apply in_or_app. right. apply in_or_app. left.
      rewrite servedEvs_cut. apply In_middle.
Qed.

Lemma available_after_init_before_wait_witness :
  availableEv "http://localhost:9090" = availableEv (webURL 9090)
  /\ (exists pf,
        In (initEv pf None)
           [clientEv (ConfigHandle 0, ClientHandle 0, None);
            probeEv (ClientHandle 0) "dapr-system" (true, "dapr-system");
            notifyEv;
            createEv (ConfigHandle 0) "dapr-system" 9090 (PortForwardHandle 0, None);
            initEv (PortForwardHandle 0) None; EvGo; foundEv "dapr-system"]
        /\ In (EvWait (GetStop pf))
              [EvCall (OpenURL "http://localhost:9090") None;
               EvWait (GetStop (PortForwardHandle 0));
               EvRecv (GetStop (PortForwardHandle 0)); EvCall SignalStop tt])
  /\ never isWait
       [clientEv (ConfigHandle 0, ClientHandle 0, None);
        probeEv (ClientHandle 0) "dapr-system" (true, "dapr-system");
        notifyEv;
        createEv (ConfigHandle 0) "dapr-system" 9090 (PortForwardHandle 0, None);
        initEv (PortForwardHandle 0) None; EvGo; foundEv "dapr-system"]
  /\ never isAvailable
       [EvCall (OpenURL "http://localhost:9090") None;
        EvWait (GetStop (PortForwardHandle 0));
        EvRecv (GetStop (PortForwardHandle 0)); EvCall SignalStop tt].
Proof.
  refine (proj1 (available_after_init_before_wait
                   (simEnv (healthy ["dapr-system"]))
                   (mkFlags "dapr-system" 9090 false true)) _ _ _ _ _);
    reflexivity.
Defined.

(** ** The browser (C7) *)

Lemma In_served_browser_failure config found port pf browser url err :
  In (EvCall (OpenURL url) (Some err)) (servedEvs config found port pf browser) ->
  url = webURL port /\ browser = Some err.
Proof.
  unfold servedEvs, browserEvs. simpl.
  intros [H | [H | [H | [H | [H | [H | [H | H]]]]]]]; try discriminate H.
  - pose proof (f_equal browserFailure H) as H'. simpl in H'.
    destruct browser as [berr |]; [| discriminate H'].
    now injection H' as -> ->.
  - destruct browser as [berr |]; simpl in H.
    + destruct H as [H | [H | [H | []]]]; discriminate H.
    + destruct H as [H | []]; discriminate H.
Qed.

(** The verb [%d] writes the port so that it reads back: the digits of
    the URL, read as a decimal number, are the port. *)
Lemma fmt_d_reads_back (z : Z) :
  option_map Z.of_int (NilZero.int_of_string (fmt_d z)) = Some z.
Proof.
  unfold fmt_d. rewrite NilZero.isi.
  - simpl. f_equal. apply DecimalZ.of_to.
  - destruct z as [| p | p]; simpl; try discriminate.
    intros H. injection H as H. revert H. apply DecimalPos.Unsigned.to_uint_nonnil.
  - destruct z as [| p | p]; simpl; try discriminate.
    intros H. injection H as H. revert H. apply DecimalPos.Unsigned.to_uint_nonnil.
Qed.

(** C7.  The local URL is "http://localhost:" followed by the local port
    in decimal (digits that read back as the port),
    http://localhost:9090 for port 9090.  When the browser launch fails,
    the URL it was given is that local URL, the tunnel had been
    initialised without error, and the trace goes on with: the message
    "Failed to start Dapr dashboard in browser automatically", the
    message "Visit <the same URL> in your browser to view the
    dashboard", and the wait on the stop channel.  The call was made
    right after the message "Dapr dashboard available at:<tab><the same
    URL><newline>".  The invocation ends blocked in that wait, or
    returns once the stop channel has delivered; it does not exit. *)
Theorem browser_failure_not_fatal (e : Env) (f : Flags) (url : string) (err : error) :
  In (EvCall (OpenURL url) (Some err)) (fst (invoke e f)) ->
  url = webURL (dashboardLocalPort f)
  /\ (exists digits,
        url = ("http://localhost:" ++ digits)%string
        /\ digits = NilZero.string_of_int (Z.to_int (dashboardLocalPort f))
        /\ option_map Z.of_int (NilZero.int_of_string digits)
             = Some (dashboardLocalPort f))
  /\ webURL 9090 = "http://localhost:9090"
  /\ exists pre pf,
       In (EvCall (Init pf) None) pre
       /\ let served :=
            pre ++ [EvCall (InfoStatusEvent
                              ("Dapr dashboard available at:"
                                 ++ String "009"%char url ++ String "010"%char "")%string
                              []) tt;
                    EvCall (OpenURL url) (Some err);
                    EvCall (FailureStatusEvent
                              "Failed to start Dapr dashboard in browser automatically"
                              []) tt;
                    EvCall (FailureStatusEvent
                              ("Visit " ++ url ++ " in your browser to view the dashboard")%string
                              []) tt;
                    EvWait (GetStop pf)] in
          invoke e f = (served, Blocked (GetStop pf))
          \/ invoke e f =
               (served ++ [EvRecv (GetStop pf); EvCall SignalStop tt], Returned tt).
Proof.
  intros Hin.
  rewrite (surjective_pairing (invoke e f)) in *. cbn [fst] in Hin.
  destruct (invoke_ends e f)
    as [v Hv | Hv Hp | r Hv Hp Hk | config client err' Hv Hp Hk
        | config client search r Hv Hp Hk Hs
        | config client search found pf err' Hv Hp Hk Hs
        | config client search found pf err' Hv Hp Hk Hs
        | config client search found pf browser Hv Hp Hk Hs
        | config client search found pf browser Hv Hp Hk Hs].
  - absurd_In Hin isBrowserFailure.
  - absurd_In Hin isBrowserFailure.
  - destruct r; absurd_In Hin isBrowserFailure.
  - absurd_In Hin isBrowserFailure.
  - destruct r as [[] nspace]; absurd_In Hin isBrowserFailure.
  - absurd_In Hin isBrowserFailure.
  - absurd_In Hin isBrowserFailure.
  - assert (Hserved : In (EvCall (OpenURL url) (Some err))
                         (servedEvs config found (dashboardLocalPort f) pf browser)).
    { destruct Hin as [H | Hin]; [discriminate H |].
      apply in_app_or in Hin. destruct Hin as [Hin | Hin]; [| exact Hin].
      absurd_In Hin isBrowserFailure. }
    apply In_served_browser_failure in Hserved. destruct Hserved as [-> ->].
    split; [reflexivity | split; [| split; [reflexivity |]]].
    { exists (fmt_d (dashboardLocalPort f)).
      split; [reflexivity | split; [reflexivity | apply fmt_d_reads_back]]. }
    exists (clientEv (config, client, None) :: search
              ++ [notifyEv; createEv config found (dashboardLocalPort f) (pf, None);
                  initEv pf None; EvGo; foundEv found]), pf.
    split.
    + right. apply in_or_app. right. simpl. tauto.
    + left. f_equal. simpl. f_equal. now rewrite <- app_assoc.
  - assert (Hserved : In (EvCall (OpenURL url) (Some err))
                         (servedEvs config found (dashboardLocalPort f) pf browser)).
    { destruct Hin as [H | Hin]; [discriminate H |].
      apply in_app_or in Hin. destruct Hin as [Hin | Hin];
        [absurd_In Hin isBrowserFailure |].
      apply in_app_or in Hin. destruct Hin as [Hin | Hin]; [exact Hin |].
      absurd_In Hin isBrowserFailure. }
    apply In_served_browser_failure in Hserved. destruct Hserved as [-> ->].
    split; [reflexivity | split; [| split; [reflexivity |]]].
    { exists (fmt_d (dashboardLocalPort f)).
      split; [reflexivity | split; [reflexivity | apply fmt_d_reads_back]]. }
    exists (clientEv (config, client, None) :: search
              ++ [notifyEv; createEv config found (dashboardLocalPort f) (pf, None);
                  initEv pf None; EvGo; foundEv found]), pf.
    split.
    + right. apply in_or_app. right. simpl. tauto.
    + right. f_equal. simpl. f_equal. now rewrite <- !app_assoc.
Qed.

Lemma browser_failure_not_fatal_witness :
  exists pre pf,
    In (EvCall (Init pf) None) pre
    /\ (invoke (simEnv (mkSim "0.6.0" None ["dapr-system"] None None
                          (Some (mkError "no browser")) None false))
               (mkFlags "dapr-system" 9090 false true)
         = (pre ++ [EvCall (InfoStatusEvent
                              ("Dapr dashboard available at:"
                                 ++ String "009"%char "http://localhost:9090"
                                 ++ String "010"%char "")%string []) tt;
                    EvCall (OpenURL "http://localhost:9090")
                           (Some (mkError "no browser"));
                    EvCall (FailureStatusEvent
                              "Failed to start Dapr dashboard in browser automatically"
                              []) tt;
                    EvCall (FailureStatusEvent
                              "Visit http://localhost:9090 in your browser to view the dashboard"
                              []) tt;
                    EvWait (GetStop pf)],
            Blocked (GetStop pf))
         \/ invoke (simEnv (mkSim "0.6.0" None ["dapr-system"] None None
                              (Some (mkError "no browser")) None false))
                   (mkFlags "dapr-system" 9090 false true)
            = ((pre ++ [EvCall (InfoStatusEvent
                                  ("Dapr dashboard available at:"
                                     ++ String "009"%char "http://localhost:9090"
                                     ++ String "010"%char "")%string []) tt;
                        EvCall (OpenURL "http://localhost:9090")
                               (Some (mkError "no browser"));
                        EvCall (FailureStatusEvent
                                  "Failed to start Dapr dashboard in browser automatically"
                                  []) tt;
                        EvCall (FailureStatusEvent
                                  "Visit http://localhost:9090 in your browser to view the dashboard"
                                  []) tt;
                        EvWait (GetStop pf)])
                 ++ [EvRecv (GetStop pf); EvCall SignalStop tt],
               Returned tt)).
Proof.
  refine (proj2 (proj2 (proj2 (browser_failure_not_fatal
            (simEnv (mkSim "0.6.0" None ["dapr-system"] None None
                       (Some (mkError "no browser")) None false))
            (mkFlags "dapr-system" 9090 false true)
            "http://localhost:9090" (mkError "no browser") _)))).
  simpl. tauto.
Defined.

(** ** The program creates one tunnel and waits before it returns *)

Lemma creates_searchLoop (n : nat) (client : Client) (l : list string)
    (found : string) (f : string -> Prog unit) :
  (forall a, creates n (f a)) ->
  creates n (bind (searchLoop client l found) f).
Proof.
  intros Hf. induction l as [| ns l IH]; simpl.
  - apply Hf.
  - intros [[] nspace]; simpl; [apply Hf | apply IH].
Qed.

Lemma waitsFirst_searchLoop (client : Client) (l : list string)
    (found : string) (f : string -> Prog unit) :
  (forall a, waitsFirst (f a)) ->
  waitsFirst (bind (searchLoop client l found) f).
Proof.
  intros Hf. induction l as [| ns l IH]; simpl.
  - apply Hf.
  - intros [[] nspace]; simpl; [apply Hf | apply IH].
Qed.

Lemma creates_searchAllPods (client : Client) : creates 1 (searchAllPods client).
Proof. unfold searchAllPods. simpl. intros [[] nspace]; simpl; auto. Qed.

Lemma waitsFirst_searchAllPods (client : Client) : waitsFirst (searchAllPods client).
Proof. unfold searchAllPods. simpl. intros [[] nspace]; simpl; auto. Qed.

Lemma creates_forwardAndServe config found port :
  creates 1 (forwardAndServe config found port).
Proof.
  unfold forwardAndServe. simpl. intros _ [pf [err |]]; simpl; [auto |].
  intros [err |]; simpl; [auto |].
  repeat split. intros _ _ [err |]; simpl; auto.
Qed.

Lemma waitsFirst_forwardAndServe config found port :
  waitsFirst (forwardAndServe config found port).
Proof.
  unfold forwardAndServe. simpl. intros _ [pf [err |]]; simpl; [auto |].
  intros [err |]; simpl; [auto |].
  intros _ _ [err |]; simpl; auto.
Qed.

Lemma creates_runStandalone (f : Flags) : creates 1 (runStandalone f).
Proof. unfold runStandalone. simpl. intros [err |]; simpl; auto. Qed.

Lemma creates_runKubernetes (f : Flags) : creates 1 (runKubernetes f).
Proof.
  unfold runKubernetes. cbn [bind call creates isCreation].
  intros [[config client] [err |]]; cbn [bind call creates isCreation]; [auto |].
  apply creates_searchLoop. intros found.
  destruct (found =? "")%string;
    [apply creates_searchAllPods | apply creates_forwardAndServe].
Qed.

Lemma waitsFirst_runKubernetes (f : Flags) : waitsFirst (runKubernetes f).
Proof.
  unfold runKubernetes. cbn [bind call waitsFirst].
  intros [[config client] [err |]]; cbn [bind call waitsFirst]; [auto |].
  apply waitsFirst_searchLoop. intros found.
  destruct (found =? "")%string;
    [apply waitsFirst_searchAllPods | apply waitsFirst_forwardAndServe].
Qed.

Lemma creates_Run (f : Flags) : creates 1 (Run f).
Proof.
  unfold Run.
  destruct (dashboardVersion f); [simpl; auto |].
  destruct (dashboardLocalPort f <=? 0); [simpl; auto |].
  destruct (kubernetesMode f);
    [apply creates_runKubernetes | apply creates_runStandalone].
Qed.

(** In cluster mode every return of [Run] comes after a receive from the
    stop channel. *)
Lemma waitsFirst_Run (f : Flags) : kubernetesMode f = true -> waitsFirst (Run f).
Proof.
  intros Hk. unfold Run. rewrite Hk.
  destruct (dashboardVersion f); [simpl; auto |].
  destruct (dashboardLocalPort f <=? 0); [simpl; auto |].
  apply waitsFirst_runKubernetes.
Qed.

(** ** Invariants of the steps *)

Lemma tunnelStop_stopped (t : Tunnel) : state (tunnelStop t) = Stopped.
Proof. unfold tunnelStop. now destruct (state t) eqn:E. Qed.

Lemma tunnelInit_stopped (t : Tunnel) : state t = Stopped -> tunnelInit t = t.
Proof. unfold tunnelInit. now intros ->. Qed.

Lemma tunnelInit_sound (t : Tunnel) : sound t -> sound (tunnelInit t).
Proof.
  destruct t as [s n]. unfold sound, tunnelInit. simpl.
  destruct s; simpl; intuition (try discriminate; auto).
Qed.

Lemma tunnelStop_sound (t : Tunnel) : sound t -> sound (tunnelStop t).
Proof.
  destruct t as [s n]. unfold sound, tunnelStop. simpl.
  destruct s; simpl; intuition (try discriminate; subst; auto).
Qed.

Lemma update_Forall (P : Tunnel -> Prop) (pf : PortForward) (g : Tunnel -> Tunnel)
    (l : list (PortForward * Tunnel)) :
  (forall t, P t -> P (g t)) ->
  Forall (fun b => P (snd b)) l -> Forall (fun b => P (snd b)) (update pf g l).
Proof.
  intros Hg H. induction H as [| [pf' t] l Ht Hl IH]; simpl; [constructor |].
  destruct (pf_eqb pf pf'); constructor; simpl in *; auto.
Qed.

Lemma consistent_closed : closed consistent.
Proof.
  unfold closed, consistent. repeat split.
  - intros pf l H. constructor; [right; simpl; split; [discriminate | reflexivity] | exact H].
  - intros pf l H. apply (update_Forall sound); [apply tunnelInit_sound | exact H].
  - intros pf l H. apply (update_Forall sound); [apply tunnelStop_sound | exact H].
Qed.

Lemma update_In_stopped (pf : PortForward) (g : Tunnel -> Tunnel)
    (l : list (PortForward * Tunnel)) :
  (forall t, state t = Stopped -> state (g t) = Stopped) ->
  anyStopped l -> anyStopped (update pf g l).
Proof.
  intros Hg (pf0 & t0 & Hin & Hs).
  induction l as [| [pf' t] l IH]; [contradiction |].
  simpl. destruct Hin as [Heq | Hin].
  - injection Heq as -> ->.
    destruct (pf_eqb pf pf0).
    + exists pf0, (g t0). split; [now left | now apply Hg].
    + exists pf0, t0. split; [now left | exact Hs].
  - destruct (pf_eqb pf pf').
    + exists pf0, t0. split; [now right | exact Hs].
    + destruct (IH Hin) as (pf1 & t1 & Hin1 & Hs1).
      exists pf1, t1. split; [now right | exact Hs1].
Qed.

Lemma anyStopped_closed : closed anyStopped.
Proof.
  repeat split.
  - intros pf l (pf0 & t0 & Hin & Hs). exists pf0, t0. split; [now right | exact Hs].
  - intros pf l H. apply update_In_stopped; [| exact H].
    intros t Ht. now rewrite tunnelInit_stopped.
  - intros pf l H. apply update_In_stopped; [| exact H].
    intros t _. apply tunnelStop_stopped.
Qed.

Lemma update_length (pf : PortForward) (g : Tunnel -> Tunnel)
    (l : list (PortForward * Tunnel)) :
  List.length (update pf g l) = List.length l.
Proof.
  induction l as [| [pf' t] l IH]; [reflexivity |].
  simpl. destruct (pf_eqb pf pf'); simpl; congruence.
Qed.

Lemma lookup_In (pf : PortForward) (l : list (PortForward * Tunnel)) (t : Tunnel) :
  lookup pf l = Some t -> exists pf', In (pf', t) l.
Proof.
  induction l as [| [pf' t'] l IH]; [discriminate |].
  simpl. destruct (pf_eqb pf pf').
  - intros [= ->]. exists pf'. now left.
  - intros H. destruct (IH H) as [pf0 Hin]. exists pf0. now right.
Qed.

(** A call leaves the flows, the status and the buffered signals alone. *)
Lemma effect_frame (c : Call) (r : Resp c) (w : World) :
  wMain (effect c r w) = wMain w
  /\ wGoroutines (effect c r w) = wGoroutines w
  /\ wHistory (effect c r w) = wHistory w
  /\ wPending (effect c r w) = wPending w
  /\ wStatus (effect c r w) = wStatus w.
Proof.
  destruct c; simpl in *; try (now repeat split).
  - destruct r as [pf [err |]]; now repeat split.
  - destruct r as [err |]; now repeat split.
Qed.

Lemma effect_tunnels (Q : list (PortForward * Tunnel) -> Prop)
    (c : Call) (r : Resp c) (w : World) :
  closed Q -> Q (wTunnels w) -> Q (wTunnels (effect c r w)).
Proof.
  intros (Hnew & Hinit & Hstop) H.
  destruct c; simpl in *; try exact H.
  - destruct r as [pf [err |]]; simpl; [exact H | now apply Hnew].
  - destruct r as [err |]; simpl; [exact H | now apply Hinit].
  - now apply Hstop.
Qed.

(** A step of a flow: what it leaves alone. *)
Lemma advance_frame (e : Env) (p : Prog unit) (w : World) :
  wMain (snd (advance e p w)) = wMain w
  /\ wStatus (snd (advance e p w)) = wStatus w.
Proof.
  destruct p as [a | code | c k | body k | [| pf] k]; simpl; try (now split).
  - destruct (effect_frame c (respond e (wHistory w) c) (log (EvCall c (respond e (wHistory w) c)) w))
      as (Hm & _ & _ & _ & Hs).
    now rewrite Hm, Hs.
  - destruct (wPending w); now split.
  - destruct (lookup pf (wTunnels w)) as [t |]; [destruct (stopSignalled t) |]; now split.
Qed.

Lemma advance_tunnels (Q : list (PortForward * Tunnel) -> Prop)
    (e : Env) (p : Prog unit) (w : World) :
  closed Q -> Q (wTunnels w) -> Q (wTunnels (snd (advance e p w))).
Proof.
  intros HQ H.
  destruct p as [a | code | c k | body k | [| pf] k]; simpl; try exact H.
  - now apply effect_tunnels.
  - now destruct (wPending w).
  - destruct (lookup pf (wTunnels w)) as [t |]; [destruct (stopSignalled t) |]; exact H.
Qed.

Lemma step_tunnels (Q : list (PortForward * Tunnel) -> Prop)
    (e : Env) (t : Tick) (w : World) :
  closed Q -> Q (wTunnels w) -> Q (wTunnels (step e t w)).
Proof.
  intros HQ H. unfold step.
  destruct (wStatus w); [| exact H | exact H].
  destruct t as [| i |].
  - pose proof (advance_tunnels Q e (wMain w) w HQ H) as H'.
    destruct (advance e (wMain w) w) as [[p | | code |] w']; simpl in *; assumption.
  - destruct (nth_error (wGoroutines w) i) as [p |]; [| exact H].
    pose proof (advance_tunnels Q e p w HQ H) as H'.
    destruct (advance e p w) as [[p' | | code |] w']; simpl in *; assumption.
  - destruct (wSubscribed w); [destruct (wPending w) |]; exact H.
Qed.

(** A step of a flow that must wait first: it still must, or a tunnel
    has stopped; and it can only finish when a tunnel has stopped. *)
Lemma advance_guard (e : Env) (p : Prog unit) (w : World) :
  waitsFirst p \/ anyStopped (wTunnels w) ->
  match fst (advance e p w) with
  | Continues p' => waitsFirst p' \/ anyStopped (wTunnels (snd (advance e p w)))
  | Finished => anyStopped (wTunnels w)
  | _ => True
  end.
Proof.
  intros H.
  destruct p as [a | code | c k | body k | [| pf] k]; simpl.
  - destruct H as [[] | H]; exact H.
  - exact I.
  - destruct H as [H | H]; [left; apply H |].
    right. now apply effect_tunnels; [apply anyStopped_closed |].
  - exact H.
  - destruct (wPending w); simpl; [exact I | exact H].
  - destruct (lookup pf (wTunnels w)) as [t |] eqn:L; simpl; [| exact I].
    unfold stopSignalled. destruct (state t) eqn:St; simpl; try exact I.
    right. destruct (lookup_In _ _ _ L) as [pf' Hin]. now exists pf', t.
Qed.

Lemma step_guarded (e : Env) (t : Tick) (w : World) :
  guarded w -> guarded (step e t w).
Proof.
  intros G. unfold step.
  destruct (wStatus w) eqn:S; [| exact G | exact G].
  unfold guarded in G. rewrite S in G.
  destruct t as [| i |].
  - pose proof (advance_guard e (wMain w) w G) as H.
    pose proof (advance_frame e (wMain w) w) as [_ Hs]. rewrite S in Hs.
    pose proof (advance_tunnels anyStopped e (wMain w) w anyStopped_closed) as HT.
    destruct (advance e (wMain w) w) as [[p | | code |] w']; simpl in *.
    + unfold guarded. simpl. now rewrite Hs.
    + unfold guarded. simpl. now apply HT.
    + exact I.
    + unfold guarded. now rewrite S.
  - destruct (nth_error (wGoroutines w) i) as [p |];
      [| unfold guarded; now rewrite S].
    pose proof (advance_frame e p w) as [Hm Hs]. rewrite S in Hs.
    assert (HT : anyStopped (wTunnels w) ->
                 anyStopped (wTunnels (snd (advance e p w))))
      by (apply advance_tunnels, anyStopped_closed).
    destruct (advance e p w) as [[p' | | code |] w']; simpl in *.
    + unfold guarded. simpl. rewrite Hs, Hm. tauto.
    + unfold guarded. now rewrite S.
    + exact I.
    + unfold guarded. now rewrite S.
  - destruct (wSubscribed w); [destruct (wPending w) |];
      unfold guarded; simpl; try rewrite S; auto.
Qed.

Lemma count_snoc (p : Event -> bool) (tr : Trace) (ev : Event) :
  count p (tr ++ [ev]) = (count p tr + if p ev then 1 else 0)%nat.
Proof. rewrite count_app. unfold count. simpl. now destruct (p ev). Qed.

Lemma effect_length (c : Call) (r : Resp c) (w : World) :
  (List.length (wTunnels (effect c r w)) <=
   List.length (wTunnels w) + if isCreation c then 1 else 0)%nat.
Proof.
  destruct c; simpl in *; try lia.
  - destruct r as [pf [err |]]; simpl; lia.
  - destruct r as [err |]; simpl; [lia | rewrite update_length; lia].
  - rewrite update_length. lia.
Qed.

Lemma replace_Forall {X : Type} (P : X -> Prop) (i : nat) (x : X) (l : list X) :
  P x -> Forall P l -> Forall P (replace i x l).
Proof.
  intros Hx H. revert i. induction H as [| y l Hy Hl IH]; intros i; simpl.
  - destruct i; constructor.
  - destruct i; constructor; auto.
Qed.

(** A step of a flow that can create at most [n] tunnels: it creates
    [d] of them and can then create at most [m], where [n = m + d]. *)
Lemma advance_creates (e : Env) (p : Prog unit) (w : World) (n : nat) :
  creates n p ->
  exists d m,
    n = (m + d)%nat
    /\ count isTunnelCreation (wHistory (snd (advance e p w))) =
         (count isTunnelCreation (wHistory w) + d)%nat
    /\ (List.length (wTunnels (snd (advance e p w))) <=
        List.length (wTunnels w) + d)%nat
    /\ match fst (advance e p w) with
       | Continues p' => creates m p'
       | _ => d = 0%nat
       end
    /\ (Forall (creates 0) (wGoroutines w) ->
        Forall (creates 0) (wGoroutines (snd (advance e p w)))).
Proof.
  intros H.
  destruct p as [a | code | c k | body k | [| pf] k]; simpl in *.
  - exists 0%nat, n. repeat split; auto; lia.
  - exists 0%nat, n. repeat split; auto; lia.
  - set (r := respond e (wHistory w) c) in *.
    destruct (effect_frame c r (log (EvCall c r) w)) as (_ & Hg & Hh & _ & _).
    pose proof (effect_length c r (log (EvCall c r) w)) as Hl.
    rewrite Hg, Hh. simpl in *.
    rewrite count_snoc.
    assert (Hc : isTunnelCreation (EvCall c r) = isCreation c) by now destruct c.
    rewrite Hc.
    destruct (isCreation c).
    + destruct n as [| m]; [contradiction |].
      exists 1%nat, m. repeat split; auto; lia.
    + exists 0%nat, n. repeat split; auto; lia.
  - destruct H as [Hb Hk].
    exists 0%nat, n. rewrite count_snoc. simpl. repeat split; auto; try lia.
    intros HF. apply Forall_app. split; [exact HF | now constructor].
  - destruct (wPending w); simpl; exists 0%nat, n;
      rewrite ?count_snoc; simpl; repeat split; auto; lia.
  - destruct (lookup pf (wTunnels w)) as [t |];
      [destruct (stopSignalled t) |]; simpl; exists 0%nat, n;
      rewrite ?count_snoc; simpl; repeat split; auto; lia.
Qed.

Lemma step_bounded (e : Env) (t : Tick) (w : World) :
  bounded w -> bounded (step e t w).
Proof.
  intros B. unfold step.
  destruct (wStatus w) eqn:S; [| exact B | exact B].
  destruct B as (n & Hmain & Hgo & Hcount & Hlen).
  destruct t as [| i |].
  - destruct (advance_creates e (wMain w) w n Hmain) as (d & m & -> & Hc & Hl & Hp & Hg).
    pose proof (advance_frame e (wMain w) w) as [Hm _].
    destruct (advance e (wMain w) w) as [[p | | code |] w']; simpl in *.
    + exists m. simpl. repeat split; auto; lia.
    + subst d. exists m. simpl. rewrite Hm.
      replace (m + 0)%nat with m in Hmain by lia. repeat split; auto; lia.
    + subst d. exists m. simpl. rewrite Hm.
      replace (m + 0)%nat with m in Hmain by lia. repeat split; auto; lia.
    + exists (m + d)%nat. repeat split; auto.
  - destruct (nth_error (wGoroutines w) i) as [p |] eqn:N;
      [| exists n; repeat split; auto].
    assert (Hp0 : creates 0 p).
    { rewrite Forall_forall in Hgo. apply Hgo. eapply nth_error_In, N. }
    destruct (advance_creates e p w 0 Hp0) as (d & m & Hdm & Hc & Hl & Hp & Hg).
    assert (d = 0%nat) by lia. assert (m = 0%nat) by lia. subst d m.
    pose proof (advance_frame e p w) as [Hm _].
    destruct (advance e p w) as [[p' | | code |] w']; simpl in *.
    + exists n. simpl. rewrite Hm. repeat split; auto; try lia.
      apply replace_Forall; auto.
    + exists n. repeat split; auto.
    + exists n. simpl. rewrite Hm. repeat split; auto; lia.
    + exists n. repeat split; auto.
  - destruct (wSubscribed w); [destruct (wPending w) |];
      exists n; simpl; repeat split; auto.
Qed.

(** ** Invariants of the schedules *)

(** An invariant of the steps is an invariant of the schedules. *)
Lemma run_invariant (P : World -> Prop) (e : Env) :
  (forall t w, P w -> P (step e t w)) ->
  forall sched w, P w -> P (run e sched w).
Proof.
  intros Hstep sched. unfold run.
  induction sched as [| t sched IH]; intros w Hw; simpl; [exact Hw |].
  apply IH, Hstep, Hw.
Qed.

Lemma start_bounded (f : Flags) : bounded (start f).
Proof.
  exists 1%nat. simpl. repeat split; auto. apply creates_Run.
Qed.

Lemma start_guarded (f : Flags) : kubernetesMode f = true -> guarded (start f).
Proof. intros Hk. left. now apply waitsFirst_Run. Qed.

(** ** One tunnel, waited for (C6) *)

Lemma invoke_creates_once (e : Env) (f : Flags) :
  (count isTunnelCreation (fst (invoke e f)) <= 1)%nat.
Proof.
  destruct (invoke_ends e f)
    as [v Hv | Hv Hp | r Hv Hp Hk | config client err Hv Hp Hk
        | config client search r Hv Hp Hk Hs
        | config client search found pf err Hv Hp Hk Hs
        | config client search found pf err Hv Hp Hk Hs
        | config client search found pf browser Hv Hp Hk Hs
        | config client search found pf browser Hv Hp Hk Hs];
    try (assert (Hn : never isTunnelCreation search)
           by (apply never_onlyProbes; [not_a_probe | assumption]));
    try change (clientEv ?x :: ?l) with ([clientEv x] ++ l);
    unfold servedEvs;
    rewrite ?count_app, ?(never_count _ _ Hn);
    try destruct r as [[] nspace]; try destruct r; try destruct browser;
    unfold count; simpl; lia.
Qed.

Lemma In_served_init config found port pf browser pf0 :
  In (initEv pf0 None) (servedEvs config found port pf browser) -> pf0 = pf.
Proof.
  unfold servedEvs, browserEvs. simpl.
  intros [H | [H | [H | [H | [H | [H | [H | H]]]]]]]; try discriminate H.
  - pose proof (f_equal initialised H) as H'. simpl in H'. now injection H' as ->.
  - destruct browser; simpl in H.
    + destruct H as [H | [H | [H | []]]]; discriminate H.
    + destruct H as [H | []]; discriminate H.
Qed.

Lemma invoke_waits_after_init (e : Env) (f : Flags) (pf : PortForward) :
  In (initEv pf None) (fst (invoke e f)) ->
  count isStopWait (fst (invoke e f)) = 1%nat
  /\ In (EvWait (GetStop pf)) (fst (invoke e f))
  /\ (snd (invoke e f) = Blocked (GetStop pf)
      \/ (snd (invoke e f) = Returned tt
          /\ In (EvRecv (GetStop pf)) (fst (invoke e f)))).
Proof.
  intros Hin.
  destruct (invoke_ends e f)
    as [v Hv | Hv Hp | r Hv Hp Hk | config client err Hv Hp Hk
        | config client search r Hv Hp Hk Hs
        | config client search found pf' err Hv Hp Hk Hs
        | config client search found pf' err Hv Hp Hk Hs
        | config client search found pf' browser Hv Hp Hk Hs
        | config client search found pf' browser Hv Hp Hk Hs].
  - absurd_In Hin isInitOk.
  - absurd_In Hin isInitOk.
  - destruct r; absurd_In Hin isInitOk.
  - absurd_In Hin isInitOk.
  - destruct r as [[] nspace]; absurd_In Hin isInitOk.
  - absurd_In Hin isInitOk.
  - absurd_In Hin isInitOk.
  - assert (pf = pf').
    { destruct Hin as [H | Hin]; [discriminate H |].
      apply in_app_or in Hin. destruct Hin as [Hin | Hin];
        [absurd_In Hin isInitOk | now apply In_served_init in Hin]. }
    subst pf'.
    assert (Hn : never isStopWait search)
      by (apply never_onlyProbes; [not_a_probe | assumption]).
    split; [| split].
    + change (clientEv ?x :: ?l) with ([clientEv x] ++ l).
      unfold servedEvs. rewrite !count_app, (never_count _ _ Hn).
      destruct browser; reflexivity.
    + right. apply in_or_app. right. unfold servedEvs.
      apply in_or_app. right. apply in_or_app. right. now left.
    + now left.
  - assert (pf = pf').
    { destruct Hin as [H | Hin]; [discriminate H |].
      apply in_app_or in Hin. destruct Hin as [Hin | Hin];
        [absurd_In Hin isInitOk |].
      apply in_app_or in Hin. destruct Hin as [Hin | Hin];
        [now apply In_served_init in Hin | absurd_In Hin isInitOk]. }
    subst pf'.
    assert (Hn : never isStopWait search)
      by (apply never_onlyProbes; [not_a_probe | assumption]).
    split; [| split].
    + change (clientEv ?x :: ?l) with ([clientEv x] ++ l).
      unfold servedEvs. rewrite !count_app, (never_count _ _ Hn).
      destruct browser; reflexivity.
    + right. apply in_or_app. right. apply in_or_app. left. unfold servedEvs.
      apply in_or_app. right. apply in_or_app. right. now left.
    + right. split; [reflexivity |].
      right. apply in_or_app. right. apply in_or_app. right. now left.
Qed.

(** C6.  At most one tunnel is created per invocation.  After a
    successful initialisation the main flow begins exactly one wait, on
    that tunnel's stop channel, and its only ways on are to stay blocked
    there or to return after the stop channel has delivered.  With the
    goroutine, the interrupts and the tunnel put together, under every
    schedule: at most one tunnel exists, no tunnel fires its StopSignal
    more than once, and once the main flow has returned from the
    cluster-mode branch the one tunnel is stopped and has fired its
    StopSignal exactly once.  A stop request on a stopped tunnel changes
    nothing: two stop requests on a tunnel that was not stopped fire the
    StopSignal once. *)
Theorem one_tunnel_waited_for (e : Env) (f : Flags) :
  (count isTunnelCreation (fst (invoke e f)) <= 1)%nat
  /\ (forall pf,
      In (initEv pf None) (fst (invoke e f)) ->
      count isStopWait (fst (invoke e f)) = 1%nat
      /\ In (EvWait (GetStop pf)) (fst (invoke e f))
      /\ (snd (invoke e f) = Blocked (GetStop pf)
          \/ (snd (invoke e f) = Returned tt
              /\ In (EvRecv (GetStop pf)) (fst (invoke e f)))))
  /\ (forall sched,
      let w := run e sched (start f) in
      (count isTunnelCreation (wHistory w) <= 1)%nat
      /\ (List.length (wTunnels w) <= 1)%nat
      /\ (forall pf t, In (pf, t) (wTunnels w) ->
            (fired t <= 1)%nat /\ (state t = Stopped <-> fired t = 1%nat))
      /\ (kubernetesMode f = true ->
          wStatus w = Done (Returned tt) ->
          exists pf t,
            wTunnels w = [(pf, t)] /\ state t = Stopped /\ fired t = 1%nat))
  /\ (forall t, tunnelStop (tunnelStop t) = tunnelStop t)
  /\ (forall t, state t <> Stopped ->
        fired (tunnelStop t) = S (fired t)
        /\ fired (tunnelStop (tunnelStop t)) = S (fired t)).
Proof.
  split; [apply invoke_creates_once | split; [apply invoke_waits_after_init | split]].
  - intros sched w.
    pose proof (run_invariant bounded e (step_bounded e) sched (start f)
                  (start_bounded f)) as (n & _ & _ & Hcount & Hlen).
    pose proof (run_invariant (fun w => consistent (wTunnels w)) e
                  (fun t w => step_tunnels consistent e t w consistent_closed)
                  sched (start f) (Forall_nil _)) as Hcons.
    fold w in Hcount, Hlen, Hcons.
    assert (Hsound : forall pf t, In (pf, t) (wTunnels w) ->
              (fired t <= 1)%nat /\ (state t = Stopped <-> fired t = 1%nat)).
    { intros pf t Hin. unfold consistent in Hcons. rewrite Forall_forall in Hcons.
      destruct (Hcons _ Hin) as [[Hs Hf] | [Hs Hf]]; simpl in *.
      - split; [lia | tauto].
      - split; [lia |]. split; [tauto | lia]. }
    split; [lia | split; [lia | split; [exact Hsound |]]].
    intros Hk Hret.
    pose proof (run_invariant guarded e (step_guarded e) sched (start f)
                  (start_guarded f Hk)) as G.
    fold w in G. unfold guarded in G. rewrite Hret in G.
    destruct G as (pf & t & Hin & Hs).
    destruct (wTunnels w) as [| b [| b' l]] eqn:Hw; simpl in *.
    + contradiction.
    + destruct Hin as [-> | []]. exists pf, t.
      split; [reflexivity | split; [exact Hs |]].
      apply (Hsound pf t); [now left | exact Hs].
    + lia.
  - split.
    + intros t. unfold tunnelStop at 1. now rewrite tunnelStop_stopped.
    + intros [s n] Hs. unfold tunnelStop. simpl in *.
      destruct s; simpl; try congruence; now split.
Qed.

Lemma one_tunnel_waited_for_witness :
  (count isStopWait
     (fst (invoke (simEnv (healthy ["dapr-system"]))
                  (mkFlags "dapr-system" 8080 false true))) = 1%nat
   /\ In (EvWait (GetStop (PortForwardHandle 0)))
         (fst (invoke (simEnv (healthy ["dapr-system"]))
                      (mkFlags "dapr-system" 8080 false true))))
  /\ (exists pf t,
        wTunnels (run (simEnv (healthy ["dapr-system"]))
                      (repeat RunMain 9
                         ++ [Interrupt; Interrupt; RunGoroutine 0; RunGoroutine 0;
                             RunMain; RunMain; RunMain])
                      (start (mkFlags "dapr-system" 8080 false true)))
          = [(pf, t)]
        /\ state t = Stopped /\ fired t = 1%nat)
  /\ (fired (tunnelStop (mkTunnel Running 0)) = 1%nat
      /\ fired (tunnelStop (tunnelStop (mkTunnel Running 0))) = 1%nat).
Proof.
  destruct (one_tunnel_waited_for (simEnv (healthy ["dapr-system"]))
              (mkFlags "dapr-system" 8080 false true))
    as (_ & Hwait & Hsched & _ & Hstop).
  split; [| split].
  - destruct (Hwait (PortForwardHandle 0)) as (H1 & H2 & _).
    + simpl. tauto.
    + now split.
  - apply (Hsched (repeat RunMain 9
                     ++ [Interrupt; Interrupt; RunGoroutine 0; RunGoroutine 0;
                         RunMain; RunMain; RunMain])); reflexivity.
  - apply (Hstop (mkTunnel Running 0)). discriminate.
Defined.

(** * Further properties of the command *)

(** ** The cluster branch in detail *)

Lemma searchLoop_searched (e : Env) (client : Client) (l : list string) (tr : Trace) :
  exists evs found,
    exec e (searchLoop client l "") tr = (tr ++ evs, Returned found)
    /\ Searched client l evs found.
Proof.
  destruct (searchLoop_run e client l tr)
    as [(l1 & ns & l2 & evs & x & Hl & HF & HE) | (evs & HF & HE)].
  - exists (evs ++ [probeEv client ns (true, x)]), ns. split; [exact HE |].
    now apply (SearchedHit client l l1 ns l2).
  - exists evs, "". split; [exact HE | now constructor].
Qed.

Lemma forwardAndServe_serves (e : Env) config found port (tr : Trace) :
  exists evs out,
    exec e (forwardAndServe config found port) tr = (tr ++ evs, out)
    /\ Serves config found port evs out.
Proof.
  destruct (forwardAndServe_run e config found port tr)
    as [(pf & err & ->) | [(pf & err & ->) | [(pf & b & _ & ->) | (pf & b & _ & ->)]]].
  - eexists _, _. split; [reflexivity | constructor].
  - eexists _, _. split; [reflexivity | constructor].
  - eexists _, _. split; [reflexivity | constructor].
  - eexists _, _. split; [reflexivity | constructor].
Qed.

Lemma searched_onlyProbes (client : Client) (l : list string) (evs : Trace)
    (found : string) :
  Searched client l evs found -> onlyProbes evs.
Proof.
  intros [l1 ns l2 misses x _ HF | misses HF].
  - unfold onlyProbes. rewrite forallb_app, (misses_onlyProbes _ _ _ HF). reflexivity.
  - exact (misses_onlyProbes _ _ _ HF).
Qed.

(** Every invocation either does no cluster work at all, or is in
    cluster mode with a valid port and a client, and runs as [Cluster]
    says. *)
Lemma invoke_refined (e : Env) (f : Flags) :
  never isClusterWork (fst (invoke e f))
  \/ (dashboardVersion f = false /\ 0 < dashboardLocalPort f
      /\ kubernetesMode f = true
      /\ exists config client,
           Cluster f config client (fst (invoke e f)) (snd (invoke e f))).
Proof.
  destruct (dashboardVersion f) eqn:Hv.
  { left. now rewrite (invoke_version e f Hv). }
  destruct (Z_le_gt_dec (dashboardLocalPort f) 0) as [Hp | Hp].
  { left. now rewrite (invoke_invalid_port e f Hv Hp). }
  apply Z.gt_lt in Hp.
  destruct (kubernetesMode f) eqn:Hk.
  2: { left. rewrite (invoke_standalone e f Hv Hp Hk), standalone_run. cbn [fst].
       now destruct (respond e [] (StandaloneRun (dashboardLocalPort f))). }
  rewrite (invoke_kubernetes e f Hv Hp Hk).
  destruct (respond e [] GetKubeConfigClient) as [[config client] [err |]] eqn:R.
  { left. now rewrite (runKubernetes_client_error e f _ _ _ R). }
  right. repeat split; try assumption. exists config, client.
  rewrite (runKubernetes_client_ok e f _ _ R).
  destruct (searchLoop_searched e client (namespaces (dashboardNamespace f))
              [EvCall GetKubeConfigClient (config, client, None)])
    as (evs & found & -> & Hs).
  destruct (found =? "")%string eqn:Hf.
  - apply String.eqb_eq in Hf. subst found.
    rewrite searchAllPods_run. cbn [fst snd]. rewrite <- app_assoc.
    now apply ClusterNotFound.
  - apply String.eqb_neq in Hf.
    destruct (forwardAndServe_serves e config found (dashboardLocalPort f)
                ([EvCall GetKubeConfigClient (config, client, None)] ++ evs))
      as (rest & out & -> & Hserves).
    cbn [fst snd]. rewrite <- app_assoc.
    now apply (ClusterServes f config client evs found rest out).
Qed.

(** ** Tactics for membership in a trace *)

(** Split a membership in a trace built with [::] and [++] into its
    positions; a membership in an unknown part is left as it is. *)
Ltac in_cases H :=
  lazymatch type of H with
  | In _ [] => destruct H
  | In _ (_ :: _) => destruct H as [H | H]; [| in_cases H]
  | In _ (_ ++ _) =>
      apply in_app_or in H; destruct H as [H | H]; [in_cases H | in_cases H]
  | _ => idtac
  end.

(** An event of the search part has none of the properties that no
    probe has. *)
Ltac not_in_search H Hs :=
  exfalso;
  match type of H with
  | In ?ev ?search =>
      match goal with
      | Hp : ?p ev = true |- _ =>
          let N := fresh in
          assert (N : never p search)
            by (apply never_onlyProbes; [not_a_probe | exact Hs]);
          apply (never_In _ _ _ N) in H; congruence
      end
  end.

Lemma creationError_work (ev : Event) (err : error) :
  creationError ev = Some err ->
  isCreationFailure ev = true /\ isClusterWork ev = true.
Proof.
  unfold isCreationFailure. intros H. rewrite H. split; [reflexivity |].
  destruct ev as [[] r | | |]; simpl in *; try discriminate; reflexivity.
Qed.

(** ** Failure to create the tunnel (lines 105-117) *)

(** X1.  When [NewPortForward] returns an error, the error is reported
    with the format "%s\n" and the process exits with status 1 right
    after; the tunnel is not initialised, no goroutine is started, the
    browser is not opened and nothing is waited for. *)
Theorem tunnel_creation_failure (e : Env) (f : Flags) (ev : Event) (err : error) :
  In ev (fst (invoke e f)) ->
  creationError ev = Some err ->
  exists pre config found pf,
    invoke e f =
      (pre ++ [notifyEv;
               createEv config found (dashboardLocalPort f) (pf, Some err);
               createFailedEv err],
       Exited 1)
    /\ ev = createEv config found (dashboardLocalPort f) (pf, Some err)
    /\ never isInit (fst (invoke e f))
    /\ never isGo (fst (invoke e f))
    /\ never isBrowser (fst (invoke e f))
    /\ never isWait (fst (invoke e f)).
Proof.
  intros Hin Herr.
  destruct (creationError_work ev err Herr) as [Hfail Hwork].
  rewrite (surjective_pairing (invoke e f)).
  destruct (invoke_refined e f) as [N | (Hv & Hp & Hk & config & client & C)].
  { apply (never_In _ _ _ N) in Hin. congruence. }
  destruct C as [evs r S | evs found rest out S Hfound Sv];
    pose proof (searched_onlyProbes _ _ _ _ S) as Hs.
  - exfalso. destruct r as [[] nspace]; in_cases Hin;
      try (subst ev; discriminate Herr); not_in_search Hin Hs.
  - destruct Sv as [pf err' | pf err' | pf browser | pf browser].
    + in_cases Hin; try (subst ev; discriminate Herr); try not_in_search Hin Hs.
      subst ev. simpl in Herr. injection Herr as ->.
      exists (clientEv (config, client, None) :: evs), config, found, pf.
      split; [reflexivity | split; [reflexivity |]].
      cbn [fst]. repeat split; never_holds.
    + exfalso. in_cases Hin; try (subst ev; discriminate Herr); not_in_search Hin Hs.
    + exfalso. unfold servedEvs, browserEvs in Hin.
      destruct browser; in_cases Hin;
        try (subst ev; discriminate Herr); not_in_search Hin Hs.
    + exfalso. unfold servedEvs, browserEvs in Hin.
      destruct browser; in_cases Hin;
        try (subst ev; discriminate Herr); not_in_search Hin Hs.
Qed.

Lemma tunnel_creation_failure_witness :
  exists pre config found pf,
    invoke (simEnv (mkSim "0.6.0" None ["default"] (Some (mkError "no pod")) None
                      None None true))
           (mkFlags "dapr-system" 8080 false true) =
      (pre ++ [notifyEv;
               createEv config found 8080 (pf, Some (mkError "no pod"));
               createFailedEv (mkError "no pod")],
       Exited 1)
    /\ createEv (ConfigHandle 0) "default" 8080
         (PortForwardHandle 0, Some (mkError "no pod")) =
       createEv config found 8080 (pf, Some (mkError "no pod")).
Proof.
  destruct (tunnel_creation_failure
              (simEnv (mkSim "0.6.0" None ["default"] (Some (mkError "no pod")) None
                         None None true))
              (mkFlags "dapr-system" 8080 false true)
              (createEv (ConfigHandle 0) "default" 8080
                 (PortForwardHandle 0, Some (mkError "no pod")))
              (mkError "no pod"))
    as (pre & config & found & pf & H1 & H2 & _).
  - simpl. tauto.
  - reflexivity.
  - exists pre, config, found, pf. now split.
Defined.

Lemma initError_work (ev : Event) (err : error) :
  initError ev = Some err ->
  isInitFailure ev = true /\ isClusterWork ev = true.
Proof.
  unfold isInitFailure. intros H. rewrite H. split; [reflexivity |].
  destruct ev as [[] r | | |]; simpl in *; try discriminate; reflexivity.
Qed.

(** ** Failure to initialise the tunnel (lines 120-123) *)

(** X2.  When [Init] returns an error, the error is reported together
    with the hint about other sessions and the [--port] flag, and the
    process exits with status 1 right after: the tunnel had been created
    without error, no goroutine is started, neither the "found" nor the
    "available" message is printed, the browser is not opened and
    nothing is waited for. *)
Theorem tunnel_init_failure (e : Env) (f : Flags) (ev : Event) (err : error) :
  In ev (fst (invoke e f)) ->
  initError ev = Some err ->
  exists pre config found pf,
    invoke e f =
      (pre ++ [notifyEv;
               createEv config found (dashboardLocalPort f) (pf, None);
               initEv pf (Some err);
               initFailedEv err],
       Exited 1)
    /\ ev = initEv pf (Some err)
    /\ never isGo (fst (invoke e f))
    /\ count isMessage (fst (invoke e f)) = 1%nat
    /\ never isBrowser (fst (invoke e f))
    /\ never isWait (fst (invoke e f)).
Proof.
  intros Hin Herr.
  destruct (initError_work ev err Herr) as [Hfail Hwork].
  rewrite (surjective_pairing (invoke e f)).
  destruct (invoke_refined e f) as [N | (Hv & Hp & Hk & config & client & C)].
  { apply (never_In _ _ _ N) in Hin. congruence. }
  destruct C as [evs r S | evs found rest out S Hfound Sv];
    pose proof (searched_onlyProbes _ _ _ _ S) as Hs.
  - exfalso. destruct r as [[] nspace]; in_cases Hin;
      try (subst ev; discriminate Herr); not_in_search Hin Hs.
  - destruct Sv as [pf err' | pf err' | pf browser | pf browser].
    + exfalso. in_cases Hin; try (subst ev; discriminate Herr); not_in_search Hin Hs.
    + in_cases Hin; try (subst ev; discriminate Herr); try not_in_search Hin Hs.
      subst ev. simpl in Herr. injection Herr as ->.
      exists (clientEv (config, client, None) :: evs), config, found, pf.
      split; [reflexivity | split; [reflexivity |]].
      cbn [fst]. split; [never_holds | split; [| split; never_holds]].
      assert (Hn : never isMessage evs)
        by (apply never_onlyProbes; [not_a_probe | exact Hs]).
      change (clientEv ?x :: ?l) with ([clientEv x] ++ l).
      rewrite !count_app, (never_count _ _ Hn). reflexivity.
    + exfalso. unfold servedEvs, browserEvs in Hin.
      destruct browser; in_cases Hin;
        try (subst ev; discriminate Herr); not_in_search Hin Hs.
    + exfalso. unfold servedEvs, browserEvs in Hin.
      destruct browser; in_cases Hin;
        try (subst ev; discriminate Herr); not_in_search Hin Hs.
Qed.

Lemma tunnel_init_failure_witness :
  exists pre config found pf,
    invoke (simEnv (mkSim "0.6.0" None ["default"] None (Some (mkError "port in use"))
                      None None true))
           (mkFlags "dapr-system" 8080 false true) =
      (pre ++ [notifyEv;
               createEv config found 8080 (pf, None);
               initEv pf (Some (mkError "port in use"));
               initFailedEv (mkError "port in use")],
       Exited 1)
    /\ initEv (PortForwardHandle 0) (Some (mkError "port in use")) =
       initEv pf (Some (mkError "port in use")).
Proof.
  destruct (tunnel_init_failure
              (simEnv (mkSim "0.6.0" None ["default"] None (Some (mkError "port in use"))
                         None None true))
              (mkFlags "dapr-system" 8080 false true)
              (initEv (PortForwardHandle 0) (Some (mkError "port in use")))
              (mkError "port in use"))
    as (pre & config & found & pf & H1 & H2 & _).
  - simpl. tauto.
  - reflexivity.
  - exists pre, config, found, pf. now split.
Defined.

Lemma searched_found (client : Client) (l : list string) (evs : Trace) (found : string) :
  Searched client l evs found ->
  found <> "" ->
  exists l1 l2 misses nspace,
    l = l1 ++ found :: l2
    /\ Forall2 (Miss client) l1 misses
    /\ evs = misses ++ [probeEv client found (true, nspace)].
Proof.
  intros [l1 ns l2 misses x Hl HF | misses HF] Hfound; [| contradiction].
  now exists l1, l2, misses, x.
Qed.

(** ** Where and how the tunnel is created (lines 105-113) *)

(** X3.  A tunnel is only ever created for the service "dapr-dashboard"
    on host "localhost", from the local port of the [--port] flag (which
    is positive) to remote port 8080, in a namespace that is not the
    empty string, that is one of the candidate namespaces, and that the
    probe made just before the signal subscription and the creation
    answered [ok] for. *)
Theorem tunnel_created_where_found (e : Env) (f : Flags) (ev : Event) :
  In ev (fst (invoke e f)) ->
  isTunnelCreation ev = true ->
  exists config client found r nspace before after,
    ev = EvCall (NewPortForward config found "dapr-dashboard" "localhost"
                   (dashboardLocalPort f) 8080 false) r
    /\ 0 < dashboardLocalPort f
    /\ found <> ""
    /\ In found (namespaces (dashboardNamespace f))
    /\ fst (invoke e f) =
         before ++ probeEv client found (true, nspace) :: notifyEv :: ev :: after.
Proof.
  intros Hin Hc.
  destruct (invoke_refined e f) as [N | (Hv & Hp & Hk & config & client & C)].
  { apply (never_In _ _ _ N) in Hin.
    destruct ev as [[] r | | |]; simpl in *; congruence. }
  destruct C as [evs r S | evs found rest out S Hfound Sv].
  - exfalso. pose proof (searched_onlyProbes _ _ _ _ S) as Hs.
    destruct r as [[] nspace]; in_cases Hin;
      try (subst ev; discriminate Hc); not_in_search Hin Hs.
  - destruct (searched_found _ _ _ _ S Hfound) as (l1 & l2 & misses & x & Hl & HF & ->).
    pose proof (misses_onlyProbes _ _ _ HF) as Hs.
    assert (Hcand : In found (namespaces (dashboardNamespace f)))
      by (rewrite Hl; apply In_middle).
    destruct Sv as [pf err | pf err | pf browser | pf browser];
      try unfold servedEvs, browserEvs in *.
    + in_cases Hin; try (subst ev; discriminate Hc); try not_in_search Hin Hs.
      subst ev.
      exists config, client, found, (pf, Some err), x,
        (clientEv (config, client, None) :: misses), [createFailedEv err].
      repeat split; auto. simpl. now rewrite <- app_assoc.
    + in_cases Hin; try (subst ev; discriminate Hc); try not_in_search Hin Hs.
      subst ev.
      exists config, client, found, (pf, None), x,
        (clientEv (config, client, None) :: misses),
        [initEv pf (Some err); initFailedEv err].
      repeat split; auto. simpl. now rewrite <- app_assoc.
    + destruct browser; in_cases Hin;
        try (subst ev; discriminate Hc); try not_in_search Hin Hs;
        subst ev;
        eexists config, client, found, (pf, None), x,
          (clientEv (config, client, None) :: misses), _;
        (repeat split; auto; simpl; rewrite <- app_assoc; reflexivity).
    + destruct browser; in_cases Hin;
        try (subst ev; discriminate Hc); try not_in_search Hin Hs;
        subst ev;
        eexists config, client, found, (pf, None), x,
          (clientEv (config, client, None) :: misses), _;
        (repeat split; auto; simpl; rewrite <- app_assoc; reflexivity).
Qed.

Lemma tunnel_created_where_found_witness :
  exists config client found r nspace before after,
    createEv (ConfigHandle 0) "default" 9090 (PortForwardHandle 0, None) =
      EvCall (NewPortForward config found "dapr-dashboard" "localhost"
                (dashboardLocalPort (mkFlags "custom" 9090 false true)) 8080 false) r
    /\ 0 < dashboardLocalPort (mkFlags "custom" 9090 false true)
    /\ found <> ""
    /\ In found (namespaces (dashboardNamespace (mkFlags "custom" 9090 false true)))
    /\ fst (invoke (simEnv (healthy ["default"])) (mkFlags "custom" 9090 false true)) =
         before ++ probeEv client found (true, nspace) :: notifyEv
                :: createEv (ConfigHandle 0) "default" 9090 (PortForwardHandle 0, None)
                :: after.
Proof.
  apply (tunnel_created_where_found (simEnv (healthy ["default"]))
           (mkFlags "custom" 9090 false true)
           (createEv (ConfigHandle 0) "default" 9090 (PortForwardHandle 0, None))).
  - simpl. tauto.
  - reflexivity.
Defined.

(** ** Exit statuses (lines 52, 57, 64, 97, 116, 122) *)

(** X4.  The process is ended by [os.Exit] with status 0 exactly when
    the version flag is set; every other [os.Exit] has status 1. *)
Theorem exit_status_zero_iff_version (e : Env) (f : Flags) :
  (snd (invoke e f) = Exited 0 <-> dashboardVersion f = true)
  /\ (forall code, snd (invoke e f) = Exited code -> code = 0 \/ code = 1).
Proof.
  destruct (invoke_ends e f)
    as [v Hv | Hv Hp | r Hv Hp Hk | config client err Hv Hp Hk
        | config client search r Hv Hp Hk Hs
        | config client search found pf err Hv Hp Hk Hs
        | config client search found pf err Hv Hp Hk Hs
        | config client search found pf browser Hv Hp Hk Hs
        | config client search found pf browser Hv Hp Hk Hs];
    (split; [split; [intros H; try discriminate H; try exact Hv
                    | intros H; try reflexivity; congruence]
            | intros code H; try discriminate H; injection H as <-; auto]).
Qed.

(** X5.  The process never exits with status 1 silently: the last thing
    it did before is to print a message, a failure message in every case
    but one, the advice to use the namespace the cluster-wide search
    found. *)
Theorem exit_one_explained (e : Env) (f : Flags) :
  snd (invoke e f) = Exited 1 ->
  exists pre msg,
    fst (invoke e f) = pre ++ [msg]
    /\ isMessage msg = true
    /\ (isFailureMessage msg = true \/ exists nspace, msg = advisoryEv nspace).
Proof.
  destruct (invoke_ends e f)
    as [v Hv | Hv Hp | r Hv Hp Hk | config client err Hv Hp Hk
        | config client search r Hv Hp Hk Hs
        | config client search found pf err Hv Hp Hk Hs
        | config client search found pf err Hv Hp Hk Hs
        | config client search found pf browser Hv Hp Hk Hs
        | config client search found pf browser Hv Hp Hk Hs];
    intros H; try discriminate H.
  - exists [], (invalidPortEv (dashboardLocalPort f)). repeat split. now left.
  - exists [clientEv (config, client, Some err)], (clientFailedEv err).
    repeat split. now left.
  - exists (clientEv (config, client, None) :: search ++ [probeEv client "" r]),
      (fallbackEv r).
    split; [simpl; now rewrite <- app_assoc |].
    destruct r as [[] nspace]; split; try reflexivity.
    + right. now exists nspace.
    + now left.
  - exists (clientEv (config, client, None) :: search
              ++ [notifyEv; createEv config found (dashboardLocalPort f) (pf, Some err)]),
      (createFailedEv err).
    split; [simpl; now rewrite <- app_assoc |]. split; [reflexivity | now left].
  - exists (clientEv (config, client, None) :: search
              ++ [notifyEv; createEv config found (dashboardLocalPort f) (pf, None);
                  initEv pf (Some err)]),
      (initFailedEv err).
    split; [simpl; now rewrite <- app_assoc |]. split; [reflexivity | now left].
Qed.

Lemma exit_one_explained_witness :
  exists pre msg,
    fst (invoke (simEnv (healthy ["other-ns"])) (mkFlags "custom" 8080 false true)) =
      pre ++ [msg]
    /\ isMessage msg = true
    /\ (isFailureMessage msg = true \/ exists nspace, msg = advisoryEv nspace).
Proof.
  apply (exit_one_explained (simEnv (healthy ["other-ns"]))
           (mkFlags "custom" 8080 false true)).
  reflexivity.
Defined.

(** ** The two modes (lines 60 and 144-150) *)

(** X6.  The modes exclude each other: in cluster mode the standalone
    launcher is never run, whatever fails; in standalone mode no cluster
    client is constructed and nothing of the cluster branch happens (no
    probe, no signal subscription, no tunnel, no goroutine, no browser,
    no receive). *)
Theorem modes_exclude_each_other (e : Env) (f : Flags) :
  (kubernetesMode f = true -> never isLauncher (fst (invoke e f)))
  /\ (kubernetesMode f = false ->
      never isClientConstruction (fst (invoke e f))
      /\ never isClusterWork (fst (invoke e f))).
Proof.
  destruct (invoke_ends e f)
    as [v Hv | Hv Hp | r Hv Hp Hk | config client err Hv Hp Hk
        | config client search r Hv Hp Hk Hs
        | config client search found pf err Hv Hp Hk Hs
        | config client search found pf err Hv Hp Hk Hs
        | config client search found pf browser Hv Hp Hk Hs
        | config client search found pf browser Hv Hp Hk Hs];
    (split; [intros Hk' | intros Hk'; split]); try congruence;
    try (destruct r as [[] nspace]); try destruct r; try destruct browser;
    never_holds.
Qed.

Lemma modes_exclude_each_other_witness :
  never isLauncher
    (fst (invoke (simEnv (mkSim "0.6.0" (Some (mkError "no kubeconfig")) [] None None
                            None None true))
                 (mkFlags "dapr-system" 8080 false true))).
Proof.
  apply (proj1 (modes_exclude_each_other
                  (simEnv (mkSim "0.6.0" (Some (mkError "no kubeconfig")) [] None None
                             None None true))
                  (mkFlags "dapr-system" 8080 false true))).
  reflexivity.
Defined.

(** X7.  Whenever the standalone launcher is run, it is run on the value
    of the [--port] flag, as the first and only call of a collaborator
    other than the printer, and [Run] returns whatever the launcher
    returned: a launcher error does not end the process through
    [os.Exit].  When the launcher returns no error nothing is printed. *)
Theorem standalone_launcher_run (e : Env) (f : Flags) (port : Z) (r : option error) :
  In (EvCall (StandaloneRun port) r) (fst (invoke e f)) ->
  port = dashboardLocalPort f
  /\ 0 < port
  /\ kubernetesMode f = false
  /\ snd (invoke e f) = Returned tt
  /\ (exists rest, fst (invoke e f) = EvCall (StandaloneRun port) r :: rest
                   /\ never isLauncher rest)
  /\ (r = None -> fst (invoke e f) = [EvCall (StandaloneRun port) None]).
Proof.
  intros Hin.
  destruct (invoke_ends e f)
    as [v Hv | Hv Hp | r0 Hv Hp Hk | config client err Hv Hp Hk
        | config client search r0 Hv Hp Hk Hs
        | config client search found pf err Hv Hp Hk Hs
        | config client search found pf err Hv Hp Hk Hs
        | config client search found pf browser Hv Hp Hk Hs
        | config client search found pf browser Hv Hp Hk Hs].
  - absurd_In Hin isLauncher.
  - absurd_In Hin isLauncher.
  - assert (Hhead : EvCall (StandaloneRun (dashboardLocalPort f)) r0 =
                    EvCall (StandaloneRun port) r).
    { destruct Hin as [H | Hin]; [exact H |].
      destruct r0; [destruct Hin as [H | []]; discriminate H | destruct Hin]. }
    pose proof (f_equal launcherResult Hhead) as Hr. simpl in Hr.
    injection Hr as ->. injection Hhead as <-.
    split; [reflexivity | split; [exact Hp | split; [exact Hk | split; [reflexivity |]]]].
    split.
    + eexists. split; [reflexivity | destruct r; reflexivity].
    + now intros ->.
  - absurd_In Hin isLauncher.
  - destruct r0 as [[] nspace]; absurd_In Hin isLauncher.
  - absurd_In Hin isLauncher.
  - absurd_In Hin isLauncher.
  - destruct browser; absurd_In Hin isLauncher.
  - destruct browser; absurd_In Hin isLauncher.
Qed.

Lemma standalone_launcher_run_witness :
  8080 = dashboardLocalPort defaultFlags
  /\ kubernetesMode defaultFlags = false
  /\ snd (invoke (simEnv (healthy [])) defaultFlags) = Returned tt
  /\ fst (invoke (simEnv (healthy [])) defaultFlags) =
       [EvCall (StandaloneRun 8080) None].
Proof.
  destruct (standalone_launcher_run (simEnv (healthy [])) defaultFlags 8080 None)
    as (H1 & _ & H3 & H4 & _ & H6).
  - simpl. tauto.
  - split; [exact H1 | split; [exact H3 | split; [exact H4 | exact (H6 eq_refl)]]].
Defined.

(** ** The existence queries of an invocation (lines 61-98) *)

Lemma count_isProbe_probed (tr : Trace) :
  count isProbe tr = List.length (probed tr).
Proof.
  unfold count. induction tr as [| ev tr IH]; [reflexivity |].
  destruct ev as [[] r | | |]; simpl; auto.
Qed.

Lemma never_weaken (p q : Event -> bool) (tr : Trace) :
  (forall ev, p ev = true -> q ev = true) ->
  never q tr -> never p tr.
Proof.
  intros Hpq. induction tr as [| ev tr IH]; [reflexivity |].
  rewrite !never_cons. intros [Hq Htr]. split; [| now apply IH].
  destruct (p ev) eqn:Hp; [| reflexivity]. rewrite (Hpq ev Hp) in Hq. discriminate.
Qed.

Lemma never_probe_probed (tr : Trace) : never isProbe tr -> probed tr = [].
Proof.
  intros H. apply never_count in H. rewrite count_isProbe_probed in H.
  now apply length_zero_iff_nil.
Qed.

Lemma namespaces_length (ns : string) :
  (2 <= List.length (namespaces ns) <= 3)%nat.
Proof.
  rewrite namespaces_cases.
  destruct (ns =? daprSystemNamespace)%string eqn:Es;
    destruct (ns =? defaultNamespace)%string eqn:Ed; simpl; try lia.
  apply String.eqb_eq in Es, Ed. exfalso. apply system_not_default. congruence.
Qed.

Lemma searched_probed (client : Client) (l : list string) (evs : Trace) (found : string) :
  Searched client l evs found -> exists later, l = probed evs ++ later.
Proof.
  intros [l1 ns l2 misses x Hl HF | misses HF].
  - exists l2. rewrite probed_app, (misses_probed _ _ _ HF). simpl.
    now rewrite <- app_assoc.
  - exists []. now rewrite (misses_probed _ _ _ HF), app_nil_r.
Qed.

Lemma misses_by_client (client : Client) (l : list string) (evs : Trace) :
  Forall2 (Miss client) l evs ->
  Forall (fun ev => exists ns r, ev = probeEv client ns r) evs.
Proof.
  induction 1 as [| ns ev l evs [x ->] _ IH]; constructor; [| exact IH].
  now exists ns, (false, x).
Qed.

Lemma searched_by_client (client : Client) (l : list string) (evs : Trace)
    (found : string) :
  Searched client l evs found ->
  Forall (fun ev => exists ns r, ev = probeEv client ns r) evs.
Proof.
  intros [l1 ns l2 misses x Hl HF | misses HF].
  - apply Forall_app. split; [now apply (misses_by_client client l1) |].
    constructor; [| constructor]. now exists ns, (true, x).
  - now apply (misses_by_client client l).
Qed.

Lemma serves_no_probes config found port (rest : Trace) (out : Outcome unit) :
  Serves config found port rest out -> never isProbe rest.
Proof.
  intros [pf err | pf err | pf browser | pf browser];
    try unfold servedEvs, browserEvs; try destruct browser; reflexivity.
Qed.

(** X8.  An invocation makes at most four existence queries.  Each of
    them asks for the service "dapr-dashboard" with the client that
    [GetKubeConfigClient] returned without error as the very first call
    of the invocation.  The namespaces queried are an initial part of
    the candidate list, in its order, followed at most by the one
    cluster-wide query. *)
Theorem existence_queries_of_invocation (e : Env) (f : Flags) :
  (count isProbe (fst (invoke e f)) <= 4)%nat
  /\ (forall ev,
      In ev (fst (invoke e f)) -> isProbe ev = true ->
      exists config client ns r,
        ev = EvCall (CheckPodExists client ns "dapr-dashboard") r
        /\ hd_error (fst (invoke e f)) = Some (clientEv (config, client, None)))
  /\ (exists pre later,
      namespaces (dashboardNamespace f) = pre ++ later
      /\ (probed (fst (invoke e f)) = pre \/ probed (fst (invoke e f)) = pre ++ [""])).
Proof.
  destruct (invoke_refined e f) as [N | (Hv & Hp & Hk & config & client & C)].
  { assert (Np : never isProbe (fst (invoke e f))).
    { apply (never_weaken _ isClusterWork); [| exact N].
      intros [[] r | | |]; simpl; congruence. }
    split; [rewrite (never_count _ _ Np); lia | split].
    - intros ev Hin Hev. apply (never_In _ _ _ Np) in Hin. congruence.
    - exists [], (namespaces (dashboardNamespace f)).
      split; [reflexivity | left; now apply never_probe_probed]. }
  assert (Hshape : exists evs rest found,
             fst (invoke e f) = clientEv (config, client, None) :: evs ++ rest
             /\ Searched client (namespaces (dashboardNamespace f)) evs found
             /\ (probed rest = [] \/ probed rest = [""])
             /\ Forall (fun ev => isProbe ev = true ->
                                  exists ns r, ev = probeEv client ns r) rest).
  { destruct C as [evs r S | evs found rest out S Hfound Sv].
    - exists evs, [probeEv client "" r; fallbackEv r], "". repeat split; auto.
      + right. unfold fallbackEv. now destruct r as [[] nspace].
      + constructor; [intros _; now exists "", r |].
        constructor; [| constructor].
        unfold fallbackEv. destruct r as [[] nspace]; discriminate.
    - exists evs, rest, found. repeat split; auto.
      + left. apply never_probe_probed. eapply serves_no_probes, Sv.
      + pose proof (serves_no_probes _ _ _ _ _ Sv) as Nr.
        apply Forall_forall. intros ev Hin Hev.
        apply (never_In _ _ _ Nr) in Hin. congruence. }
  destruct Hshape as (evs & rest & found & -> & S & Hrest & Hby).
  destruct (searched_probed _ _ _ _ S) as [later Hl].
  assert (Hprobed : probed (clientEv (config, client, None) :: evs ++ rest)
                    = probed evs ++ probed rest)
    by (change (clientEv ?x :: ?l) with ([clientEv x] ++ l);
        now rewrite !probed_app).
  split; [| split].
  - rewrite count_isProbe_probed, Hprobed, length_app.
    pose proof (namespaces_length (dashboardNamespace f)) as Hlen.
    rewrite Hl, length_app in Hlen.
    destruct Hrest as [-> | ->]; simpl; lia.
  - intros ev Hin Hev. exists config, client.
    destruct Hin as [<- | Hin]; [discriminate Hev |].
    apply in_app_or in Hin. destruct Hin as [Hin | Hin].
    + pose proof (searched_by_client _ _ _ _ S) as Hc.
      rewrite Forall_forall in Hc. destruct (Hc ev Hin) as (ns & r & ->).
      now exists ns, r.
    + rewrite Forall_forall in Hby. destruct (Hby ev Hin Hev) as (ns & r & ->).
      now exists ns, r.
  - exists (probed evs), later. split; [exact Hl |].
    rewrite Hprobed. destruct Hrest as [-> | ->]; [left; apply app_nil_r | now right].
Qed.

(** ** What is announced and what is opened (lines 132-137) *)

Lemma In_served_browser config found port pf browser url r :
  In (EvCall (OpenURL url) r) (servedEvs config found port pf browser) ->
  url = webURL port /\ browser = r.
Proof.
  unfold servedEvs, browserEvs. simpl.
  intros [H | [H | [H | [H | [H | [H | [H | H]]]]]]]; try discriminate H.
  - pose proof (f_equal browserCall H) as H'. simpl in H'. now injection H' as -> ->.
  - destruct browser as [berr |]; simpl in H.
    + destruct H as [H | [H | [H | []]]]; discriminate H.
    + destruct H as [H | []]; discriminate H.
Qed.

(** X9.  The browser is opened at most once, and on exactly the URL that
    was announced just before it: the trace has, one after the other,
    the creation of the tunnel for "dapr-dashboard" on "localhost" in
    the namespace found, from the [--port] value to port 8080, its
    successful initialisation, the start of the goroutine, the message
    "Dapr dashboard found in namespace:<tab><that namespace>", the
    message "Dapr dashboard available at:<tab><URL><newline>", and the
    browser call with the same URL, which is "http://localhost:"
    followed by the [--port] value in decimal (digits that read back as
    that value). *)
Theorem browser_opens_announced_url (e : Env) (f : Flags) (url : string)
    (r : option error) :
  In (EvCall (OpenURL url) r) (fst (invoke e f)) ->
  url = webURL (dashboardLocalPort f)
  /\ (exists digits,
        url = ("http://localhost:" ++ digits)%string
        /\ digits = NilZero.string_of_int (Z.to_int (dashboardLocalPort f))
        /\ option_map Z.of_int (NilZero.int_of_string digits)
             = Some (dashboardLocalPort f))
  /\ count isBrowser (fst (invoke e f)) = 1%nat
  /\ exists before after config found pf,
       fst (invoke e f) =
         before
         ++ [EvCall (NewPortForward config found "dapr-dashboard" "localhost"
                       (dashboardLocalPort f) 8080 false) (pf, None);
             EvCall (Init pf) None;
             EvGo;
             EvCall (InfoStatusEvent
                       ("Dapr dashboard found in namespace:"
                          ++ String "009"%char found)%string []) tt;
             EvCall (InfoStatusEvent
                       ("Dapr dashboard available at:"
                          ++ String "009"%char url ++ String "010"%char "")%string
                       []) tt;
             EvCall (OpenURL url) r]
         ++ after.
Proof.
  intros Hin.
  destruct (invoke_ends e f)
    as [v Hv | Hv Hp | r0 Hv Hp Hk | config client err Hv Hp Hk
        | config client search r0 Hv Hp Hk Hs
        | config client search found pf err Hv Hp Hk Hs
        | config client search found pf err Hv Hp Hk Hs
        | config client search found pf browser Hv Hp Hk Hs
        | config client search found pf browser Hv Hp Hk Hs].
  - absurd_In Hin isBrowser.
  - absurd_In Hin isBrowser.
  - destruct r0; absurd_In Hin isBrowser.
  - absurd_In Hin isBrowser.
  - destruct r0 as [[] nspace]; absurd_In Hin isBrowser.
  - absurd_In Hin isBrowser.
  - absurd_In Hin isBrowser.
  - assert (Hserved : In (EvCall (OpenURL url) r)
                         (servedEvs config found (dashboardLocalPort f) pf browser)).
    { destruct Hin as [H | Hin]; [discriminate H |].
      apply in_app_or in Hin. destruct Hin as [Hin | Hin]; [| exact Hin].
      absurd_In Hin isBrowser. }
    apply In_served_browser in Hserved. destruct Hserved as [-> ->].
    assert (Hn : never isBrowser search)
      by (apply never_onlyProbes; [not_a_probe | assumption]).
    split; [reflexivity | split; [| split]].
    + exists (fmt_d (dashboardLocalPort f)).
      split; [reflexivity | split; [reflexivity | apply fmt_d_reads_back]].
    + change (clientEv ?x :: ?l) with ([clientEv x] ++ l).
      unfold servedEvs. rewrite !count_app, (never_count _ _ Hn).
      destruct r; reflexivity.
    + exists (clientEv (config, client, None) :: search ++ [notifyEv]),
        (match r with Some _ => [browserFailedEv; visitEv (webURL (dashboardLocalPort f))]
                    | None => [] end ++ [EvWait (GetStop pf)]),
        config, found, pf.
      unfold servedEvs, browserEvs. simpl. f_equal. now rewrite <- app_assoc.
  - assert (Hserved : In (EvCall (OpenURL url) r)
                         (servedEvs config found (dashboardLocalPort f) pf browser)).
    { destruct Hin as [H | Hin]; [discriminate H |].
      apply in_app_or in Hin. destruct Hin as [Hin | Hin];
        [absurd_In Hin isBrowser |].
      apply in_app_or in Hin. destruct Hin as [Hin | Hin]; [exact Hin |].
      absurd_In Hin isBrowser. }
    apply In_served_browser in Hserved. destruct Hserved as [-> ->].
    assert (Hn : never isBrowser search)
      by (apply never_onlyProbes; [not_a_probe | assumption]).
    split; [reflexivity | split; [| split]].
    + exists (fmt_d (dashboardLocalPort f)).
      split; [reflexivity | split; [reflexivity | apply fmt_d_reads_back]].
    + change (clientEv ?x :: ?l) with ([clientEv x] ++ l).
      unfold servedEvs. rewrite !count_app, (never_count _ _ Hn).
      destruct r; reflexivity.
    + exists (clientEv (config, client, None) :: search ++ [notifyEv]),
        ((match r with Some _ => [browserFailedEv; visitEv (webURL (dashboardLocalPort f))]
                     | None => [] end ++ [EvWait (GetStop pf)])
         ++ [EvRecv (GetStop pf); EvCall SignalStop tt]),
        config, found, pf.
      unfold servedEvs, browserEvs. simpl. f_equal. now rewrite <- !app_assoc.
Qed.

Lemma browser_opens_announced_url_witness :
  count isBrowser
    (fst (invoke (simEnv (healthy ["dapr-system"]))
                 (mkFlags "dapr-system" 9090 false true))) = 1%nat
  /\ exists before after config found pf,
       fst (invoke (simEnv (healthy ["dapr-system"]))
                   (mkFlags "dapr-system" 9090 false true)) =
         before
         ++ [EvCall (NewPortForward config found "dapr-dashboard" "localhost"
                       9090 8080 false) (pf, None);
             EvCall (Init pf) None;
             EvGo;
             EvCall (InfoStatusEvent
                       ("Dapr dashboard found in namespace:"
                          ++ String "009"%char found)%string []) tt;
             EvCall (InfoStatusEvent
                       ("Dapr dashboard available at:"
                          ++ String "009"%char "http://localhost:9090"
                          ++ String "010"%char "")%string []) tt;
             EvCall (OpenURL "http://localhost:9090") None]
         ++ after.
Proof.
  refine (proj2 (proj2 (browser_opens_announced_url (simEnv (healthy ["dapr-system"]))
           (mkFlags "dapr-system" 9090 false true) "http://localhost:9090" None _))).
  simpl. tauto.
Defined.

(** ** The signal subscription (lines 100-103) *)

(** X10.  The deferred [signal.Stop] runs exactly when the cluster
    branch returns, as the last thing of the invocation, right after the
    receive from the stop channel and some time after [signal.Notify].
    An invocation that ends in [os.Exit] never calls [signal.Stop], also
    when it had already subscribed (the exits after a failed creation or
    initialisation of the tunnel). *)
Theorem signal_stop_only_on_return (e : Env) (f : Flags) :
  (In (EvCall SignalStop tt) (fst (invoke e f)) <->
   kubernetesMode f = true /\ snd (invoke e f) = Returned tt)
  /\ (In (EvCall SignalStop tt) (fst (invoke e f)) ->
      exists pre pf,
        fst (invoke e f) = pre ++ [EvRecv (GetStop pf); EvCall SignalStop tt]
        /\ In notifyEv pre
        /\ never isSignalStop pre)
  /\ (forall code, snd (invoke e f) = Exited code ->
      never isSignalStop (fst (invoke e f))).
Proof.
  destruct (invoke_ends e f)
    as [v Hv | Hv Hp | r Hv Hp Hk | config client err Hv Hp Hk
        | config client search r Hv Hp Hk Hs
        | config client search found pf err Hv Hp Hk Hs
        | config client search found pf err Hv Hp Hk Hs
        | config client search found pf browser Hv Hp Hk Hs
        | config client search found pf browser Hv Hp Hk Hs].
  1-8: split; [split; [intros Hin | intros [Hk' Hr]; try congruence]
              | split; [intros Hin | intros code Hc; try discriminate Hc]];
       try (destruct r as [[] nspace]); try destruct r; try destruct browser;
       try (absurd_In Hin isSignalStop); never_holds.
  split; [split; [intros _; now split | intros _] | split; [intros _ | intros code Hc]].
  - right. apply in_or_app. right. apply in_or_app. right. simpl. tauto.
  - exists (clientEv (config, client, None) :: search
              ++ servedEvs config found (dashboardLocalPort f) pf browser), pf.
    split; [now rewrite <- app_comm_cons, <- app_assoc | split].
    + right. apply in_or_app. right. unfold servedEvs. simpl. tauto.
    + unfold servedEvs, browserEvs. destruct browser; never_holds.
  - discriminate Hc.
Qed.

Lemma signal_stop_only_on_return_witness :
  exists pre pf,
    fst (invoke (simEnv (healthy ["dapr-system"]))
                (mkFlags "dapr-system" 8080 false true)) =
      pre ++ [EvRecv (GetStop pf); EvCall SignalStop tt]
    /\ In notifyEv pre
    /\ never isSignalStop pre.
Proof.
  apply (proj1 (proj2 (signal_stop_only_on_return (simEnv (healthy ["dapr-system"]))
                         (mkFlags "dapr-system" 8080 false true)))).
  simpl. tauto.
Defined.

(** ** The goroutine and the interrupt (lines 126-129, 143) *)

Lemma quiet_searchLoop (client : Client) (l : list string)
    (found : string) (f : string -> Prog unit) :
  (forall a, quiet (f a)) ->
  quiet (bind (searchLoop client l found) f).
Proof.
  intros Hf. induction l as [| ns l IH]; simpl.
  - apply Hf.
  - split; [reflexivity |]. intros [[] nspace]; simpl; [apply Hf | apply IH].
Qed.

Lemma quiet_Run (f : Flags) : quiet (Run f).
Proof.
  unfold Run.
  destruct (dashboardVersion f); [simpl; auto |].
  destruct (dashboardLocalPort f <=? 0); [simpl; auto |].
  destruct (kubernetesMode f).
  - unfold runKubernetes. cbn [bind call quiet isStop].
    split; [reflexivity |].
    intros [[config client] [err |]]; cbn [bind call quiet isStop]; [auto |].
    apply quiet_searchLoop. intros found.
    destruct (found =? "")%string.
    + unfold searchAllPods. simpl. split; [reflexivity |].
      intros [[] nspace]; simpl; auto.
    + unfold forwardAndServe. simpl. split; [reflexivity |].
      intros _. split; [reflexivity |].
      intros [pf [err |]]; simpl; [auto |]. split; [reflexivity |].
      intros [err |]; simpl; [auto |].
      repeat split. intros [err |]; simpl; auto.
  - unfold runStandalone. simpl. split; [reflexivity |].
    intros [err |]; simpl; auto.
Qed.

Lemma stops_searchLoop (n : nat) (client : Client) (l : list string)
    (found : string) (f : string -> Prog unit) :
  (forall a, stops n (f a)) ->
  stops n (bind (searchLoop client l found) f).
Proof.
  intros Hf. induction l as [| ns l IH]; simpl.
  - apply Hf.
  - intros [[] nspace]; simpl; [apply Hf | apply IH].
Qed.

Lemma stops_Run (f : Flags) : stops 1 (Run f).
Proof.
  unfold Run.
  destruct (dashboardVersion f); [simpl; auto |].
  destruct (dashboardLocalPort f <=? 0); [simpl; auto |].
  destruct (kubernetesMode f).
  - unfold runKubernetes. cbn [bind call stops isStop].
    intros [[config client] [err |]]; cbn [bind call stops isStop]; [auto |].
    apply stops_searchLoop. intros found.
    destruct (found =? "")%string.
    + unfold searchAllPods. simpl. intros [[] nspace]; simpl; auto.
    + unfold forwardAndServe. simpl.
      intros _ [pf [err |]]; simpl; [auto |].
      intros [err |]; simpl; [auto |].
      repeat split. intros _ _ [err |]; simpl; auto.
  - unfold runStandalone. simpl. intros [err |]; simpl; auto.
Qed.

Lemma tunnelInit_not_stopped (t : Tunnel) :
  state t <> Stopped -> state (tunnelInit t) <> Stopped.
Proof.
  destruct t as [s n]. unfold tunnelInit. simpl.
  destruct s; simpl; congruence.
Qed.

Lemma effect_not_stopped (c : Call) (r : Resp c) (w : World) :
  isStop c = false ->
  Forall (fun b => state (snd b) <> Stopped) (wTunnels w) ->
  Forall (fun b => state (snd b) <> Stopped) (wTunnels (effect c r w)).
Proof.
  intros Hc H. destruct c; simpl in *; try exact H; try discriminate.
  - destruct r as [pf [err |]]; simpl; [exact H |].
    constructor; [simpl; discriminate | exact H].
  - destruct r as [err |]; simpl; [exact H |].
    apply (update_Forall (fun t => state t <> Stopped));
      [apply tunnelInit_not_stopped | exact H].
Qed.

Lemma lookup_Forall (P : Tunnel -> Prop) (pf : PortForward)
    (l : list (PortForward * Tunnel)) (t : Tunnel) :
  Forall (fun b => P (snd b)) l -> lookup pf l = Some t -> P t.
Proof.
  intros H L. destruct (lookup_In _ _ _ L) as [pf' Hin].
  rewrite Forall_forall in H. exact (H _ Hin).
Qed.

Lemma never_snoc (p : Event -> bool) (tr : Trace) (ev : Event) :
  never p tr -> p ev = false -> never p (tr ++ [ev]).
Proof.
  intros H Hev. apply never_app. split; [exact H |].
  apply never_cons. split; [exact Hev | apply never_nil].
Qed.

(** A step of a flow in a calm world. *)
Lemma advance_calm (e : Env) (p : Prog unit) (w : World) :
  wPending w = 0%nat ->
  quiet p ->
  Forall (fun p => quiet p) (wGoroutines w) ->
  Forall (fun b => state (snd b) <> Stopped) (wTunnels w) ->
  never isStopCall (wHistory w) ->
  wPending (snd (advance e p w)) = 0%nat
  /\ Forall (fun p => quiet p) (wGoroutines (snd (advance e p w)))
  /\ Forall (fun b => state (snd b) <> Stopped) (wTunnels (snd (advance e p w)))
  /\ never isStopCall (wHistory (snd (advance e p w)))
  /\ match fst (advance e p w) with
     | Continues p' => quiet p'
     | _ => True
     end.
Proof.
  intros Hpend Hq Hgo Htun Hhist.
  destruct p as [a | code | c k | body k | [| pf] k]; simpl in *.
  - repeat split; auto.
  - repeat split; auto.
  - destruct Hq as [Hc Hk].
    set (r := respond e (wHistory w) c) in *.
    destruct (effect_frame c r (log (EvCall c r) w)) as (_ & Hg & Hh & Hp & _).
    rewrite Hg, Hh, Hp. simpl.
    repeat split; auto.
    + now apply effect_not_stopped.
    + now apply never_snoc.
  - destruct Hq as [Hb Hk]. repeat split; auto.
    + apply Forall_app. split; [exact Hgo | now constructor].
    + now apply never_snoc.
  - rewrite Hpend. simpl. repeat split; auto.
  - destruct (lookup pf (wTunnels w)) as [t |] eqn:L; simpl; [| repeat split; auto].
    pose proof (lookup_Forall (fun t => state t <> Stopped) _ _ _ Htun L) as Ht.
    unfold stopSignalled.
    destruct (state t) eqn:St; try congruence; simpl; repeat split; auto.
Qed.

Lemma step_calm (e : Env) (t : Tick) (w : World) :
  t <> Interrupt -> calm w -> calm (step e t w).
Proof.
  intros Ht (Hpend & Hmain & Hgo & Htun & Hhist & Hst).
  unfold step.
  destruct (wStatus w) eqn:S;
    [| repeat split; try assumption; rewrite S; discriminate
     | exfalso; now apply Hst].
  destruct t as [| i |]; [| | contradiction].
  - destruct (advance_calm e (wMain w) w Hpend Hmain Hgo Htun Hhist)
      as (H1 & H2 & H3 & H4 & H5).
    pose proof (advance_frame e (wMain w) w) as [Hm Hs]. rewrite S in Hs.
    destruct (advance e (wMain w) w) as [[p | | code |] w']; simpl in *.
    + repeat split; simpl; auto. rewrite Hs. discriminate.
    + repeat split; simpl; auto; [now rewrite Hm | discriminate].
    + repeat split; simpl; auto; [now rewrite Hm | discriminate].
    + repeat split; auto. rewrite S. discriminate.
  - destruct (nth_error (wGoroutines w) i) as [p |] eqn:N;
      [| repeat split; auto; rewrite S; discriminate].
    assert (Hp : quiet p).
    { rewrite Forall_forall in Hgo. apply Hgo. eapply nth_error_In, N. }
    destruct (advance_calm e p w Hpend Hp Hgo Htun Hhist)
      as (H1 & H2 & H3 & H4 & H5).
    pose proof (advance_frame e p w) as [Hm Hs]. rewrite S in Hs.
    destruct (advance e p w) as [[p' | | code |] w']; simpl in *.
    + repeat split; simpl; auto.
      * now rewrite Hm.
      * now apply replace_Forall.
      * rewrite Hs. discriminate.
    + repeat split; auto. rewrite S. discriminate.
    + repeat split; simpl; auto; [now rewrite Hm | discriminate].
    + repeat split; auto. rewrite S. discriminate.
Qed.

Lemma run_calm (e : Env) (sched : list Tick) (w : World) :
  ~ In Interrupt sched -> calm w -> calm (run e sched w).
Proof.
  unfold run. revert w.
  induction sched as [| t sched IH]; intros w Hno Hw; simpl; [exact Hw |].
  apply IH.
  - intros H. apply Hno. now right.
  - apply step_calm; [| exact Hw]. intros ->. apply Hno. now left.
Qed.

Lemma start_calm (f : Flags) : calm (start f).
Proof.
  repeat split; simpl; auto; [apply quiet_Run | discriminate].
Qed.

(** X11.  The tunnel is stopped only on an interrupt, and the cluster
    branch returns only after one: under every schedule without an
    interrupt, no stop request is ever made, no tunnel is stopped, the
    process is not killed, and in cluster mode [Run] has not returned. *)
Theorem no_return_without_interrupt (e : Env) (f : Flags) (sched : list Tick) :
  ~ In Interrupt sched ->
  let w := run e sched (start f) in
  never isStopCall (wHistory w)
  /\ Forall (fun b => state (snd b) <> Stopped /\ fired (snd b) = 0%nat) (wTunnels w)
  /\ wStatus w <> Killed
  /\ (kubernetesMode f = true -> wStatus w <> Done (Returned tt)).
Proof.
  intros Hno w.
  destruct (run_calm e sched (start f) Hno (start_calm f))
    as (_ & _ & _ & Htun & Hhist & Hst).
  fold w in Htun, Hhist, Hst.
  pose proof (run_invariant (fun w => consistent (wTunnels w)) e
                (fun t w => step_tunnels consistent e t w consistent_closed)
                sched (start f) (Forall_nil _)) as Hcons.
  fold w in Hcons.
  split; [exact Hhist | split; [| split; [exact Hst |]]].
  - unfold consistent in Hcons. rewrite Forall_forall in *.
    intros b Hb. split; [now apply Htun |].
    destruct (Hcons b Hb) as [[Hs _] | [_ Hf]]; [| exact Hf].
    exfalso. exact (Htun b Hb Hs).
  - intros Hk Hret.
    pose proof (run_invariant guarded e (step_guarded e) sched (start f)
                  (start_guarded f Hk)) as G.
    fold w in G. unfold guarded in G. rewrite Hret in G.
    destruct G as (pf & t & Hin & Hs).
    rewrite Forall_forall in Htun. exact (Htun _ Hin Hs).
Qed.

Lemma no_return_without_interrupt_witness :
  wStatus (run (simEnv (healthy ["dapr-system"]))
               (repeat RunMain 20 ++ [RunGoroutine 0; RunGoroutine 0; RunMain])
               (start (mkFlags "dapr-system" 9090 false true)))
    <> Done (Returned tt).
Proof.
  refine (proj2 (proj2 (proj2 (no_return_without_interrupt
            (simEnv (healthy ["dapr-system"]))
            (mkFlags "dapr-system" 9090 false true)
            (repeat RunMain 20 ++ [RunGoroutine 0; RunGoroutine 0; RunMain]) _))) _).
  - simpl. intuition discriminate.
  - reflexivity.
Defined.

Lemma Forall2_nth_error {X Y : Type} (R : X -> Y -> Prop) (l1 : list X) (l2 : list Y)
    (i : nat) (y : Y) :
  Forall2 R l1 l2 -> nth_error l2 i = Some y ->
  exists x, nth_error l1 i = Some x /\ R x y.
Proof.
  intros H. revert i. induction H as [| x0 y0 l1 l2 HR _ IH]; intros i Hi.
  - destruct i; discriminate.
  - destruct i as [| i]; simpl in *.
    + injection Hi as <-. now exists x0.
    + now apply IH.
Qed.

Lemma Forall2_replace {X Y : Type} (R : X -> Y -> Prop) (l1 : list X) (l2 : list Y)
    (i : nat) (x : X) (y : Y) :
  Forall2 R l1 l2 -> R x y -> Forall2 R (replace i x l1) (replace i y l2).
Proof.
  intros H Hxy. revert i. induction H as [| x0 y0 l1 l2 HR Hl IH]; intros i; simpl.
  - destruct i; constructor.
  - destruct i; constructor; auto.
Qed.

Lemma list_sum_replace (l : list nat) (i x y : nat) :
  nth_error l i = Some x ->
  (list_sum (replace i y l) + x = list_sum l + y)%nat.
Proof.
  revert i. induction l as [| a l IH]; intros i Hi.
  - destruct i; discriminate.
  - destruct i as [| i]; simpl in *.
    + injection Hi as ->. lia.
    + specialize (IH i Hi). lia.
Qed.

(** A step of a flow with a budget of [b] stop requests: it makes [d]
    of them, keeps [b'] and hands [bs] to the goroutines it starts. *)
Lemma advance_stops (e : Env) (p : Prog unit) (w : World) (b : nat) :
  stops b p ->
  exists (d b' : nat) (bs : list nat) (sp : list (Prog unit)),
    count isStopCall (wHistory (snd (advance e p w))) =
      (count isStopCall (wHistory w) + d)%nat
    /\ wGoroutines (snd (advance e p w)) = wGoroutines w ++ sp
    /\ Forall2 (fun b p => stops b p) bs sp
    /\ (d + b' + list_sum bs <= b)%nat
    /\ match fst (advance e p w) with
       | Continues p' => stops b' p'
       | _ => b' = b
       end.
Proof.
  intros H.
  destruct p as [a | code | c k | body k | [| pf] k]; simpl in *.
  - exists 0%nat, b, [], []. rewrite app_nil_r. repeat split; auto; simpl; lia.
  - exists 0%nat, b, [], []. rewrite app_nil_r. repeat split; auto; simpl; lia.
  - set (r := respond e (wHistory w) c) in *.
    destruct (effect_frame c r (log (EvCall c r) w)) as (_ & Hg & Hh & _ & _).
    rewrite Hg, Hh. simpl. rewrite count_snoc. simpl.
    destruct (isStop c).
    + destruct b as [| m]; [contradiction |].
      exists 1%nat, m, [], []. rewrite app_nil_r. repeat split; auto; simpl; lia.
    + exists 0%nat, b, [], []. rewrite app_nil_r. repeat split; auto; simpl; lia.
  - destruct H as [Hb Hk].
    exists 0%nat, 0%nat, [b], [body]. rewrite count_snoc. simpl.
    repeat split; auto; simpl; lia.
  - destruct (wPending w); simpl; exists 0%nat, b, [], [];
      rewrite ?count_snoc, app_nil_r; simpl; repeat split; auto; lia.
  - destruct (lookup pf (wTunnels w)) as [t |];
      [destruct (stopSignalled t) |]; simpl; exists 0%nat, b, [], [];
      rewrite ?count_snoc, app_nil_r; simpl; repeat split; auto; lia.
Qed.

Lemma list_sum_app_nat (l1 l2 : list nat) :
  list_sum (l1 ++ l2) = (list_sum l1 + list_sum l2)%nat.
Proof. induction l1 as [| a l1 IH]; simpl; lia. Qed.

Lemma step_budgeted (e : Env) (t : Tick) (w : World) :
  budgeted w -> budgeted (step e t w).
Proof.
  intros B. unfold step.
  destruct (wStatus w) eqn:S; [| exact B | exact B].
  destruct B as (bm & bg & Hmain & Hgo & Hsum).
  destruct t as [| i |].
  - destruct (advance_stops e (wMain w) w bm Hmain)
      as (d & b' & bs & sp & Hc & Hg & Hsp & Hle & Hp).
    pose proof (advance_frame e (wMain w) w) as [Hm _].
    destruct (advance e (wMain w) w) as [[p | | code |] w'] eqn:A; simpl in *.
    + exists b', (bg ++ bs). simpl. rewrite Hg, Hc, list_sum_app_nat.
      repeat split; auto; [now apply Forall2_app | lia].
    + subst b'. exists bm, (bg ++ bs). simpl. rewrite Hm, Hg, Hc, list_sum_app_nat.
      repeat split; auto; [now apply Forall2_app | lia].
    + subst b'. exists bm, (bg ++ bs). simpl. rewrite Hm, Hg, Hc, list_sum_app_nat.
      repeat split; auto; [now apply Forall2_app | lia].
    + now exists bm, bg.
  - destruct (nth_error (wGoroutines w) i) as [p |] eqn:N; [| now exists bm, bg].
    destruct (Forall2_nth_error _ _ _ _ _ Hgo N) as (bi & Hbi & Hp0).
    destruct (advance_stops e p w bi Hp0)
      as (d & b' & bs & sp & Hc & Hg & Hsp & Hle & Hp).
    pose proof (advance_frame e p w) as [Hm _].
    assert (Hbi' : nth_error (bg ++ bs) i = Some bi).
    { rewrite nth_error_app1; [exact Hbi |]. apply nth_error_Some. congruence. }
    destruct (advance e p w) as [[p' | | code |] w'] eqn:A; simpl in *.
    + exists bm, (replace i b' (bg ++ bs)). simpl. rewrite Hm, Hg, Hc.
      repeat split; auto.
      * apply Forall2_replace; [now apply Forall2_app | exact Hp].
      * pose proof (list_sum_replace _ _ _ b' Hbi') as Hr.
        rewrite list_sum_app_nat in Hr. lia.
    + now exists bm, bg.
    + subst b'. exists bm, (bg ++ bs). simpl. rewrite Hm, Hg, Hc, list_sum_app_nat.
      repeat split; auto; [now apply Forall2_app | lia].
    + now exists bm, bg.
  - destruct (wSubscribed w); [destruct (wPending w) |];
      exists bm, bg; simpl; repeat split; auto.
Qed.

Lemma start_budgeted (f : Flags) : budgeted (start f).
Proof.
  exists 1%nat, []. simpl. repeat split; [apply stops_Run | constructor | lia].
Qed.

(** X12.  Under every schedule, whatever the number of interrupts and
    whatever the environment answers, at most one stop request is made
    on a tunnel during an invocation. *)
Theorem stop_requested_at_most_once (e : Env) (f : Flags) (sched : list Tick) :
  (count isStopCall (wHistory (run e sched (start f))) <= 1)%nat.
Proof.
  destruct (run_invariant budgeted e (step_budgeted e) sched (start f)
              (start_budgeted f)) as (bm & bg & _ & _ & Hsum).
  lia.
Qed.

Lemma run_cons (e : Env) (t : Tick) (s : list Tick) (w : World) :
  run e (t :: s) w = run e s (step e t w).
Proof. reflexivity. Qed.

Lemma pf_eqb_refl (pf : PortForward) : pf_eqb pf pf = true.
Proof. destruct pf as [n]. apply Nat.eqb_refl. Qed.

(** The steps of the main flow and of a goroutine, one kind at a time. *)
Lemma step_main_call (e : Env) (w : World) (c : Call) (k : Resp c -> Prog unit)
    (r : Resp c) :
  wStatus w = Live ->
  wMain w = Vis c k ->
  respond e (wHistory w) c = r ->
  step e RunMain w = setMain (k r) (effect c r (log (EvCall c r) w)).
Proof.
  intros S M R. unfold step. rewrite S, M. simpl. now rewrite R.
Qed.

Lemma step_main_go (e : Env) (w : World) (body k : Prog unit) :
  wStatus w = Live ->
  wMain w = Go body k ->
  step e RunMain w = setMain k (setGoroutines (wGoroutines w ++ [body]) (log EvGo w)).
Proof. intros S M. unfold step. now rewrite S, M. Qed.

Lemma step_main_blocked (e : Env) (w : World) (pf : PortForward) (k : Prog unit)
    (t : Tunnel) :
  wMain w = Recv (GetStop pf) k ->
  lookup pf (wTunnels w) = Some t ->
  stopSignalled t = false ->
  step e RunMain w = w.
Proof.
  intros M L St. unfold step. destruct (wStatus w); [| reflexivity | reflexivity].
  rewrite M. simpl. now rewrite L, St.
Qed.

Lemma step_main_recv_stop (e : Env) (w : World) (pf : PortForward) (k : Prog unit)
    (t : Tunnel) :
  wStatus w = Live ->
  wMain w = Recv (GetStop pf) k ->
  lookup pf (wTunnels w) = Some t ->
  stopSignalled t = true ->
  step e RunMain w = setMain k (log (EvRecv (GetStop pf)) w).
Proof.
  intros S M L St. unfold step. rewrite S, M. simpl. now rewrite L, St.
Qed.

Lemma step_main_ret (e : Env) (w : World) (a : unit) :
  wStatus w = Live ->
  wMain w = Ret a ->
  step e RunMain w = setStatus (Done (Returned tt)) w.
Proof. intros S M. unfold step. now rewrite S, M. Qed.

Lemma step_interrupt (e : Env) (w : World) :
  wStatus w = Live ->
  wSubscribed w = true ->
  wPending w = 0%nat ->
  step e Interrupt w = setPending 1 w.
Proof. intros S Sub P. unfold step. now rewrite S, Sub, P. Qed.

Lemma step_goroutine_recv_signal (e : Env) (w : World) (i : nat) (k : Prog unit)
    (n : nat) :
  wStatus w = Live ->
  nth_error (wGoroutines w) i = Some (Recv Signals k) ->
  wPending w = S n ->
  step e (RunGoroutine i) w =
    setGoroutines (replace i k (wGoroutines w))
      (setPending n (log (EvRecv Signals) w)).
Proof. intros S N P. unfold step. rewrite S, N. simpl. now rewrite P. Qed.

Lemma step_goroutine_call (e : Env) (w : World) (i : nat) (c : Call)
    (k : Resp c -> Prog unit) (r : Resp c) :
  wStatus w = Live ->
  nth_error (wGoroutines w) i = Some (Vis c k) ->
  respond e (wHistory w) c = r ->
  step e (RunGoroutine i) w =
    setGoroutines
      (replace i (k r) (wGoroutines (effect c r (log (EvCall c r) w))))
      (effect c r (log (EvCall c r) w)).
Proof. intros S N R. unfold step. rewrite S, N. simpl. now rewrite R. Qed.

(** Bring the world back to the form of a record. *)
Ltac world :=
  cbv beta iota delta
    [setMain setGoroutines setTunnels setPending setSubscribed setStatus log effect
     wMain wGoroutines wHistory wSubscribed wPending wTunnels wStatus
     fst snd app update replace lookup tunnelStop tunnelInit stopSignalled
     state fired newTunnel bind call recv go stopOnInterrupt];
  rewrite ?pf_eqb_refl;
  cbv beta iota.

Ltac tick_call e R :=
  rewrite run_cons;
  lazymatch goal with
  | |- context [step e RunMain ?w] =>
      lazymatch eval cbn in (wMain w) with
      | Vis ?c ?k =>
          rewrite (step_main_call e w c k _ eq_refl eq_refl R)
      end
  end;
  world.

Ltac tick_unit e :=
  rewrite run_cons;
  lazymatch goal with
  | |- context [step e RunMain ?w] =>
      lazymatch eval cbn in (wMain w) with
      | Vis ?c ?k =>
          let h := eval cbn in (wHistory w) in
          rewrite (step_main_call e w c k (respond e h c) eq_refl eq_refl eq_refl);
          destruct (respond e h c)
      end
  end;
  world.

Ltac tick_with L := rewrite run_cons; erewrite L by reflexivity; world.

(** X13.  An interrupt ends the command: when the client is available,
    the service is found in the user's namespace and the tunnel is
    created and initialised without error, then after the main flow has
    reached its wait (eleven steps at most), one interrupt, two steps of
    the goroutine (receive the signal, request the stop) and three steps
    of the main flow (receive from the stop channel, the deferred
    [signal.Stop], return) leave the tunnel stopped, its StopSignal
    fired once, the signal subscription ended and [Run] returned,
    whether or not the browser could be opened. *)
Theorem interrupt_stops_tunnel_and_returns (e : Env) (f : Flags) config client nspace pf :
  dashboardVersion f = false -> 0 < dashboardLocalPort f ->
  kubernetesMode f = true ->
  dashboardNamespace f <> "" ->
  respond e [] GetKubeConfigClient = (config, client, None) ->
  respond e [clientEv (config, client, None)]
    (CheckPodExists client (dashboardNamespace f) dashboardSvc) = (true, nspace) ->
  respond e [clientEv (config, client, None);
             probeEv client (dashboardNamespace f) (true, nspace); notifyEv]
    (NewPortForward config (dashboardNamespace f) dashboardSvc defaultHost
       (dashboardLocalPort f) remotePort false) = (pf, None) ->
  respond e [clientEv (config, client, None);
             probeEv client (dashboardNamespace f) (true, nspace); notifyEv;
             createEv config (dashboardNamespace f) (dashboardLocalPort f) (pf, None)]
    (Init pf) = None ->
  let w := run e (repeat RunMain 11
                    ++ [Interrupt; RunGoroutine 0; RunGoroutine 0;
                        RunMain; RunMain; RunMain]) (start f) in
  wStatus w = Done (Returned tt)
  /\ wTunnels w = [(pf, mkTunnel Stopped 1)]
  /\ wSubscribed w = false
  /\ count isStopCall (wHistory w) = 1%nat.
Proof.
  intros Hv Hp Hk Hns R1 R2 R3 R4 w. subst w.
  unfold clientEv, probeEv, notifyEv, createEv in *.
  apply Z.leb_gt in Hp. apply String.eqb_neq in Hns.
  unfold start, Run. rewrite Hv, Hp, Hk.
  unfold runKubernetes. rewrite namespaces_cases.
  cbn [repeat app searchLoop]. world.
  tick_call e R1.
  tick_call e R2.
  rewrite Hns. unfold forwardAndServe. world.
  tick_unit e.
  tick_call e R3.
  tick_call e R4.
  tick_with step_main_go.
  tick_unit e.
  tick_unit e.
  rewrite run_cons.
  lazymatch goal with
  | |- context [step e RunMain ?w] =>
      lazymatch eval cbn in (wMain w) with
      | Vis ?c ?k =>
          let h := eval cbn in (wHistory w) in
          rewrite (step_main_call e w c k (respond e h c) eq_refl eq_refl eq_refl);
          destruct (respond e h c) as [berr |]
      end
  end; world.
  - tick_unit e. tick_unit e.
    tick_with step_interrupt.
    tick_with step_goroutine_recv_signal.
    rewrite run_cons.
    lazymatch goal with
    | |- context [step e (RunGoroutine 0) ?w] =>
        let h := eval cbn in (wHistory w) in
        erewrite (step_goroutine_call e w 0 (Stop pf) _ (respond e h (Stop pf)))
          by reflexivity;
        destruct (respond e h (Stop pf))
    end; world.
    rewrite run_cons.
    erewrite (step_main_recv_stop e _ pf _ (mkTunnel Stopped 1));
      [| reflexivity | reflexivity | cbn -[pf_eqb]; now rewrite pf_eqb_refl | reflexivity].
    world.
    tick_unit e.
    tick_with step_main_ret.
    unfold run. cbn [fold_left wStatus wTunnels wSubscribed wHistory].
    repeat split.
  - rewrite run_cons.
    erewrite (step_main_blocked e _ pf _ (mkTunnel Running 0));
      [| reflexivity | cbn -[pf_eqb]; now rewrite pf_eqb_refl | reflexivity]; world.
    rewrite run_cons.
    erewrite (step_main_blocked e _ pf _ (mkTunnel Running 0));
      [| reflexivity | cbn -[pf_eqb]; now rewrite pf_eqb_refl | reflexivity]; world.
    tick_with step_interrupt.
    tick_with step_goroutine_recv_signal.
    rewrite run_cons.
    lazymatch goal with
    | |- context [step e (RunGoroutine 0) ?w] =>
        let h := eval cbn in (wHistory w) in
        erewrite (step_goroutine_call e w 0 (Stop pf) _ (respond e h (Stop pf)))
          by reflexivity;
        destruct (respond e h (Stop pf))
    end; world.
    rewrite run_cons.
    erewrite (step_main_recv_stop e _ pf _ (mkTunnel Stopped 1));
      [| reflexivity | reflexivity | cbn -[pf_eqb]; now rewrite pf_eqb_refl | reflexivity].
    world.
    tick_unit e.
    tick_with step_main_ret.
    unfold run. cbn [fold_left wStatus wTunnels wSubscribed wHistory].
    repeat split.
Qed.

Lemma interrupt_stops_tunnel_and_returns_witness :
  wStatus (run (simEnv (healthy ["dapr-system"]))
               (repeat RunMain 11
                  ++ [Interrupt; RunGoroutine 0; RunGoroutine 0;
                      RunMain; RunMain; RunMain])
               (start (mkFlags "dapr-system" 9090 false true)))
    = Done (Returned tt)
  /\ wTunnels (run (simEnv (healthy ["dapr-system"]))
                   (repeat RunMain 11
                      ++ [Interrupt; RunGoroutine 0; RunGoroutine 0;
                          RunMain; RunMain; RunMain])
                   (start (mkFlags "dapr-system" 9090 false true)))
    = [(PortForwardHandle 0, mkTunnel Stopped 1)]
  /\ wSubscribed (run (simEnv (healthy ["dapr-system"]))
                      (repeat RunMain 11
                         ++ [Interrupt; RunGoroutine 0; RunGoroutine 0;
                             RunMain; RunMain; RunMain])
                      (start (mkFlags "dapr-system" 9090 false true)))
    = false
  /\ count isStopCall
       (wHistory (run (simEnv (healthy ["dapr-system"]))
                      (repeat RunMain 11
                         ++ [Interrupt; RunGoroutine 0; RunGoroutine 0;
                             RunMain; RunMain; RunMain])
                      (start (mkFlags "dapr-system" 9090 false true))))
    = 1%nat.
Proof.
  apply (interrupt_stops_tunnel_and_returns (simEnv (healthy ["dapr-system"]))
           (mkFlags "dapr-system" 9090 false true)
           (ConfigHandle 0) (ClientHandle 0) "dapr-system" (PortForwardHandle 0)).
  - reflexivity.
  - simpl. lia.
  - reflexivity.
  - discriminate.
  - reflexivity.
  - reflexivity.
  - reflexivity.
  - reflexivity.
Defined.

(** ** The order of the queries, and the default flags (lines 67-98, 154-161) *)

(** X14.  For a user namespace other than the empty string, the
    namespaces queried by an invocation are an initial part of the
    candidate list followed by the cluster-wide query: the cluster-wide
    query is made only after every candidate has been queried, and
    nothing is queried after it.  With the namespace flag at its default
    the full sequence is "dapr-system", "default", cluster-wide. *)
Theorem queries_follow_candidates (e : Env) (f : Flags) :
  dashboardNamespace f <> "" ->
  (exists later,
      namespaces (dashboardNamespace f) ++ [""] = probed (fst (invoke e f)) ++ later)
  /\ (dashboardNamespace f = dashboardNamespace defaultFlags ->
      exists later,
        ["dapr-system"; "default"; ""] = probed (fst (invoke e f)) ++ later).
Proof.
  intros Hns.
  assert (H : exists later,
             namespaces (dashboardNamespace f) ++ [""] =
             probed (fst (invoke e f)) ++ later).
  { destruct (invoke_refined e f) as [N | (Hv & Hp & Hk & config & client & C)].
    { assert (Np : never isProbe (fst (invoke e f))).
      { apply (never_weaken _ isClusterWork); [| exact N].
        intros [[] r | | |]; simpl; congruence. }
      rewrite (never_probe_probed _ Np). now eexists. }
    destruct C as [evs r S | evs found rest out S Hfound Sv];
      change (clientEv ?x :: ?l) with ([clientEv x] ++ l);
      rewrite !probed_app; simpl probed at 1.
    - inversion S as [l1 ns l2 misses x Hl HF Hevs Hfound | misses HF Hevs Hfound].
      + exfalso. subst ns.
        apply (namespaces_nonempty _ Hns ""); [| reflexivity].
        rewrite Hl. apply In_middle.
      + exists []. rewrite (misses_probed _ _ _ HF), app_nil_r.
        unfold fallbackEv. now destruct r as [[] nspace].
    - destruct (searched_probed _ _ _ _ S) as [later Hl].
      rewrite (never_probe_probed _ (serves_no_probes _ _ _ _ _ Sv)), app_nil_r.
      exists (later ++ [""]). simpl. rewrite app_assoc. now rewrite <- Hl. }
  split; [exact H |].
  intros Hd. rewrite Hd in H. exact H.
Qed.

Lemma queries_follow_candidates_witness :
  exists later,
    ["dapr-system"; "default"; ""] =
    probed (fst (invoke (simEnv (healthy ["default"]))
                        (mkFlags (dashboardNamespace defaultFlags)
                                 (dashboardLocalPort defaultFlags) false true)))
    ++ later.
Proof.
  refine (proj2 (queries_follow_candidates (simEnv (healthy ["default"]))
                   (mkFlags (dashboardNamespace defaultFlags)
                            (dashboardLocalPort defaultFlags) false true) _) _).
  - discriminate.
  - reflexivity.
Defined.

(** ** The empty user namespace (lines 69-98) *)

(** X15.  With the empty string as user namespace the first candidate
    query is made without namespace restriction, and a service it finds
    is not served: [foundNamespace] is then the empty string, which the
    command reads as "not found", so the same query is made once more,
    its result is reported (advice or failure) and the process exits
    with status 1; no other candidate is queried and no tunnel is
    created. *)
Theorem empty_namespace_hit_not_served (e : Env) (f : Flags) config client nspace :
  dashboardVersion f = false -> 0 < dashboardLocalPort f ->
  kubernetesMode f = true ->
  dashboardNamespace f = "" ->
  respond e [] GetKubeConfigClient = (config, client, None) ->
  respond e [clientEv (config, client, None)]
    (CheckPodExists client "" dashboardSvc) = (true, nspace) ->
  let r := respond e [clientEv (config, client, None);
                      probeEv client "" (true, nspace)]
             (CheckPodExists client "" dashboardSvc) in
  invoke e f =
    ([clientEv (config, client, None); probeEv client "" (true, nspace);
      probeEv client "" r; fallbackEv r],
     Exited 1)
  /\ never isTunnelUse (fst (invoke e f))
  /\ probed (fst (invoke e f)) = [""; ""].
Proof.
  intros Hv Hp Hk Hns R1 R2 r.
  assert (E : invoke e f =
              ([clientEv (config, client, None); probeEv client "" (true, nspace);
                probeEv client "" r; fallbackEv r], Exited 1)).
  { rewrite (invoke_kubernetes e f Hv Hp Hk), (runKubernetes_client_ok e f _ _ R1).
    rewrite Hns. unfold clientEv, probeEv in *.
    change (namespaces "") with ["" ; daprSystemNamespace; defaultNamespace].
    cbn [searchLoop bind call exec]. rewrite R2. cbn [bind exec String.eqb].
    now rewrite searchAllPods_run. }
  rewrite E. cbn [fst]. unfold fallbackEv.
  split; [reflexivity | split; destruct r as [[] x]; reflexivity].
Qed.

Lemma empty_namespace_hit_not_served_witness :
  invoke (simEnv (healthy ["other-ns"])) (mkFlags "" 8080 false true) =
    ([clientEv (ConfigHandle 0, ClientHandle 0, None);
      probeEv (ClientHandle 0) "" (true, "other-ns");
      probeEv (ClientHandle 0) "" (true, "other-ns");
      fallbackEv (true, "other-ns")],
     Exited 1).
Proof.
  refine (proj1 (empty_namespace_hit_not_served (simEnv (healthy ["other-ns"]))
                   (mkFlags "" 8080 false true)
                   (ConfigHandle 0) (ClientHandle 0) "other-ns" _ _ _ _ _ _)).
  - reflexivity.
  - simpl. lia.
  - reflexivity.
  - reflexivity.
  - reflexivity.
  - reflexivity.
Defined.

(** ** The goroutine is started once the tunnel is up (lines 120-129) *)

(** X16.  A goroutine is started at most once per invocation, and
    exactly when some tunnel was initialised without error; it is
    started right after that initialisation and before anything is
    announced. *)
Theorem goroutine_started_after_init (e : Env) (f : Flags) :
  (count isGo (fst (invoke e f)) <= 1)%nat
  /\ (In EvGo (fst (invoke e f)) <->
      exists pf, In (initEv pf None) (fst (invoke e f)))
  /\ (In EvGo (fst (invoke e f)) ->
      exists before after pf found,
        fst (invoke e f) =
          before ++ [initEv pf None; EvGo; foundEv found] ++ after
        /\ never isMessage before).
Proof.
  destruct (invoke_ends e f)
    as [v Hv | Hv Hp | r Hv Hp Hk | config client err Hv Hp Hk
        | config client search r Hv Hp Hk Hs
        | config client search found pf err Hv Hp Hk Hs
        | config client search found pf err Hv Hp Hk Hs
        | config client search found pf browser Hv Hp Hk Hs
        | config client search found pf browser Hv Hp Hk Hs].
  1-7: split; [| split; [split; [intros Hin | intros [pf0 Hin]] | intros Hin]];
       try (destruct r as [[] nspace]); try destruct r;
       try (absurd_In Hin isGo); try (absurd_In Hin isInitOk);
       try (assert (Hn : never isGo search)
              by (apply never_onlyProbes; [not_a_probe | assumption]));
       try change (clientEv ?x :: ?l) with ([clientEv x] ++ l);
       rewrite ?count_app, ?(never_count _ _ Hn); unfold count; simpl; lia.
  - assert (Hn : never isGo search)
      by (apply never_onlyProbes; [not_a_probe | assumption]).
    assert (Hshape : clientEv (config, client, None) :: search
                       ++ servedEvs config found (dashboardLocalPort f) pf browser =
                     (clientEv (config, client, None) :: search
                        ++ [notifyEv;
                            createEv config found (dashboardLocalPort f) (pf, None)])
                     ++ [initEv pf None; EvGo; foundEv found]
                     ++ (availableEv (webURL (dashboardLocalPort f))
                         :: browserEvs (webURL (dashboardLocalPort f)) browser
                         ++ [EvWait (GetStop pf)])).
    { unfold servedEvs. simpl. now rewrite <- app_assoc. }
    split; [| split; [split; [intros _ | intros _] | intros _]].
    + change (clientEv ?x :: ?l) with ([clientEv x] ++ l).
      unfold servedEvs. rewrite !count_app, (never_count _ _ Hn).
      destruct browser; unfold count; simpl; lia.
    + exists pf. right. apply in_or_app. right. unfold servedEvs. simpl. tauto.
    + right. apply in_or_app. right. unfold servedEvs. simpl. tauto.
    + eexists _, _, pf, found. split; [exact Hshape | never_holds].
  - assert (Hn : never isGo search)
      by (apply never_onlyProbes; [not_a_probe | assumption]).
    assert (Hshape : clientEv (config, client, None) :: search
                       ++ servedEvs config found (dashboardLocalPort f) pf browser
                       ++ [EvRecv (GetStop pf); EvCall SignalStop tt] =
                     (clientEv (config, client, None) :: search
                        ++ [notifyEv;
                            createEv config found (dashboardLocalPort f) (pf, None)])
                     ++ [initEv pf None; EvGo; foundEv found]
                     ++ (availableEv (webURL (dashboardLocalPort f))
                         :: (browserEvs (webURL (dashboardLocalPort f)) browser
                             ++ [EvWait (GetStop pf)])
                         ++ [EvRecv (GetStop pf); EvCall SignalStop tt])).
    { unfold servedEvs. simpl. now rewrite <- !app_assoc. }
    split; [| split; [split; [intros _ | intros _] | intros _]].
    + change (clientEv ?x :: ?l) with ([clientEv x] ++ l).
      unfold servedEvs. rewrite !count_app, (never_count _ _ Hn).
      destruct browser; unfold count; simpl; lia.
    + exists pf. right. apply in_or_app. right. apply in_or_app. left.
      unfold servedEvs. simpl. tauto.
    + right. apply in_or_app. right. apply in_or_app. left.
      unfold servedEvs. simpl. tauto.
    + eexists _, _, pf, found. split; [exact Hshape | never_holds].
Qed.
